(** * Chat API: tool adapters, chat routes and trace routes

    A shallow embedding of the Hono back end of the chatbot
    (apps/api/src): the two Google tool adapters, the chat routes
    (thread deletion, stream, history) and the trace routes, followed by the
    properties of the design document that concern them.

    JavaScript values are modelled by their shape: an optional property
    is an [option], a string is the [string] of its UTF-8 bytes, a number
    that the code only uses as an integer is a [Z], a date is its time in
    milliseconds.  Effects (HTTP calls to Google, calls to the agent and
    to its memory, database reads) are threaded through a small
    state-and-exception monad over a [World] that also keeps the log of
    the calls performed.  The agent, its memory, the span store and the
    Google services are collaborators: the world holds what they answer,
    and records only what the code of this repository asks of them. *)

From Stdlib Require Import ZArith String Ascii List Lia Permutation.
From stdpp Require Import base option list strings gmap pretty sorting.

Local Open Scope Z_scope.
Set Warnings "-register-all".

(** ** JavaScript helpers *)

Module Js.

(** Truthiness of a string: only the empty string is falsy. *)
Definition truthy (s : string) : bool :=
  match s with
  | EmptyString => false
  | String _ _ => true
  end.

(** Truthiness of [string | undefined]. *)
Definition truthy_opt (v : option string) : bool :=
  match v with
  | Some s => truthy s
  | None => false
  end.

(** [v || d] for [v : string | undefined] and a string [d]. *)
Definition or_str (v : option string) (d : string) : string :=
  match v with
  | Some s => if truthy s then s else d
  | None => d
  end.

(** [l.slice(0, n)] for an integral [n]: a negative end counts from the
    end of the array, and the result is clamped to the array. *)
Definition slice0 {A : Type} (n : Z) (l : list A) : list A :=
  if n <? 0
  then take (Z.to_nat (Z.max (Z.of_nat (length l) + n) 0)) l
  else take (Z.to_nat n) l.

(** [arr?.[0]]: the first element of an array that may be undefined. *)
Definition first {A : Type} (arr : option (list A)) : option A :=
  match arr with
  | Some (x :: _) => Some x
  | _ => None
  end.

(** [o?.f] for an optional property [f]. *)
Definition prop {A B : Type} (o : option A) (f : A -> option B) : option B :=
  match o with
  | Some a => f a
  | None => None
  end.

(** [l.find(p)]: the first element satisfying [p]. *)
Fixpoint find {A : Type} (p : A -> bool) (l : list A) : option A :=
  match l with
  | [] => None
  | x :: l' => if p x then Some x else find p l'
  end.

End Js.

(** ** JSON values *)

(** A parsed JSON document, as [c.req.json()] resolves to.  Only the
    zero-ness of a number is ever inspected, so numbers are kept as
    integers.  An object lists its properties in source order. *)
Inductive Json : Type :=
| JNull
| JBool (b : bool)
| JNumber (n : Z)
| JString (s : string)
| JArray (items : list Json)
| JObject (fields : list (string * Json)).

(** A JavaScript value read from a property: [None] is [undefined]. *)
Definition JsValue : Type := option Json.

(** [!!v] *)
Definition js_truthy (v : JsValue) : bool :=
  match v with
  | None => false
  | Some JNull => false
  | Some (JBool b) => b
  | Some (JNumber n) => negb (n =? 0)
  | Some (JString s) => Js.truthy s
  | Some (JArray _) => true
  | Some (JObject _) => true
  end.

(** [typeof v === "string"] *)
Definition js_is_string (v : JsValue) : bool :=
  match v with
  | Some (JString _) => true
  | _ => false
  end.

(** The property [key] of a parsed object; with a repeated key
    [JSON.parse] keeps the last occurrence. *)
Fixpoint get_field (key : string) (fields : list (string * Json)) : JsValue :=
  match fields with
  | [] => None
  | (k, v) :: rest =>
    match get_field key rest with
    | Some v' => Some v'
    | None => if String.eqb k key then Some v else None
    end
  end.

(** ** Upstream payloads *)

(** The part of a Google People API [connections.list] response that the
    contacts tool reads. *)
Module People.

Record Name := { displayName : option string }.
Record Field := { value : option string }.

Record Person := {
  names : option (list Name);
  emailAddresses : option (list Field);
  phoneNumbers : option (list Field)
}.

Record Data := { connections : option (list Person) }.

End People.

(** The part of the Gmail API [messages.list] and [messages.get]
    responses that the mail tool reads. *)
Module Gmail.

Record MessageRef := { id : string }.
Record ListData := { messages : option (list MessageRef) }.

Record Header := { name : string; value : string }.
Record Payload := { headers : option (list Header) }.
Record Detail := { snippet : option string; payload : option Payload }.

End Gmail.

(** A request issued with [fetch]: the endpoint, its search parameters
    and the bearer token of the [Authorization] header. *)
Inductive HttpRequest : Type :=
| PeopleConnections (personFields : string) (pageSize : Z) (bearer : string)
| GmailMessagesList (maxResults : Z) (q : option string) (bearer : string)
| GmailMessagesGet (id : string) (format : string)
    (metadataHeaders : list string) (bearer : string).

(** What [fetch] resolves to: [response.ok] with the parsed
    [response.json()], or a non-2xx [status] with [response.text()].  A
    [fetch] that rejects, for want of any response, is not modelled. *)
Inductive HttpResponse (T : Type) : Type :=
| HttpOk (data : T)
| HttpFail (status : Z) (text : string).
Arguments HttpOk {T} data.
Arguments HttpFail {T} status text.

(** The external HTTP services, as functions of the request sent. *)
Record Upstream := {
  people_connections : string -> Z -> string -> HttpResponse People.Data;
  gmail_messages_list : Z -> option string -> string -> HttpResponse Gmail.ListData;
  gmail_messages_get : string -> string -> HttpResponse Gmail.Detail
}.

(** ** Sessions, accounts, memory and spans *)

Record User := { user_id : string; user_name : string; user_email : string }.
Record AuthSession := { user : User; session_id : string }.

(** A row of the [account] table (only the columns read here). *)
Record Account := {
  userId : string;
  providerId : string;
  accessToken : option string
}.

Record Thread := {
  thread_id : string;
  resourceId : string;
  title : option string
}.

Inductive Role : Type := RoleUser | RoleAssistant | RoleSystem.

(** A stored message; [createdAt] is the time in milliseconds since the
    epoch when the message carries a date. *)
Record Message := {
  message_id : string;
  message_thread : string;
  role : Role;
  content : string;
  createdAt : option Z
}.

(** The agent's memory: threads and messages, in storage order. *)
Record Memory := {
  threads : list Thread;
  stored_messages : list Message
}.

(** A row of [mastra_ai_spans]. *)
Record Span := {
  spanId : string;
  traceId : string;
  parentSpanId : option string;
  span_name : string;
  spanType : string;
  startedAt : Z;
  endedAt : option Z;
  input : string;
  output : string;
  metadata : gmap string string;
  attributes : string;
  error : option string
}.

(** ** The streaming agent *)

(** The options object handed to [agent.stream]. *)
Record StreamOptions := {
  format : option string;
  memory_thread : Json;
  memory_resource : string;
  runtimeContext : gmap string string
}.

(** The text stream of the agent: the chunks it yields, and whether the
    iteration then ends normally or throws. *)
Record AgentStream := {
  stream_traceId : option string;
  textStream : list string;
  textStream_fails : bool
}.

(** ** The world and its effects *)

Inductive Event : Type :=
| EvFetch (r : HttpRequest)
| EvGetGoogleAccount (uid : string)
| EvAgentStream (message : string) (opts : StreamOptions)
| EvGetThreadById (tid : string)
| EvQuery (tid : string)
| EvDeleteMessages (ids : list string)
| EvSelectSpans (key : string).

(** [agent_saves message opts m] is the memory that a turn of the agent
    leaves behind when it finds the memory [m]: [agent.stream] is the
    call that saves the messages of the turn, and it is the library that
    decides what is saved and under which thread. *)
Record World := {
  upstream : Upstream;
  account_table : list Account;
  agent_memory : option Memory;
  ai_spans : option (list Span);
  chat_agent : string -> StreamOptions -> option AgentStream;
  agent_saves : string -> StreamOptions -> Memory -> Memory;
  log : list Event
}.

Definition with_log (w : World) (l : list Event) : World :=
  {| upstream := upstream w; account_table := account_table w;
     agent_memory := agent_memory w; ai_spans := ai_spans w;
     chat_agent := chat_agent w; agent_saves := agent_saves w; log := l |}.

Definition with_memory (w : World) (m : option Memory) : World :=
  {| upstream := upstream w; account_table := account_table w;
     agent_memory := m; ai_spans := ai_spans w;
     chat_agent := chat_agent w; agent_saves := agent_saves w; log := log w |}.

(** The result of running an async function: the value it resolves to,
    or the message of the [Error] it rejects with. *)
Inductive Outcome (A : Type) : Type :=
| Returns (a : A)
| Throws (msg : string).
Arguments Returns {A} a.
Arguments Throws {A} msg.

Definition Eff (A : Type) : Type := World -> Outcome A * World.

Definition ret {A : Type} (a : A) : Eff A := fun w => (Returns a, w).

Definition throw {A : Type} (msg : string) : Eff A := fun w => (Throws msg, w).

Definition bind {A B : Type} (m : Eff A) (k : A -> Eff B) : Eff B :=
  fun w =>
    match m w with
    | (Returns a, w') => k a w'
    | (Throws e, w') => (Throws e, w')
    end.

Notation "x <- m ;; k" := (bind m (fun x => k))
  (at level 100, m at next level, right associativity).

Definition emit (e : Event) : Eff unit :=
  fun w => (Returns tt, with_log w (log w ++ [e])).

Definition ask {A : Type} (f : World -> A) : Eff A := fun w => (Returns (f w), w).

(** [arr.map(f)] for an effectful [f], in array order.  With
    [Promise.all] over async callbacks each callback runs up to its first
    [await] in array order, and the results keep the array order. *)
Fixpoint mapM {A B : Type} (f : A -> Eff B) (l : list A) : Eff (list B) :=
  match l with
  | [] => ret []
  | x :: l' => y <- f x ;; ys <- mapM f l' ;; ret (y :: ys)
  end.

(** [fetch(url, { headers: { Authorization: `Bearer ${token}` } })]. *)
Definition fetch_people (fields : string) (pageSize : Z) (token : string)
  : Eff (HttpResponse People.Data) :=
  _ <- emit (EvFetch (PeopleConnections fields pageSize token)) ;;
  ask (fun w => people_connections (upstream w) fields pageSize token).

Definition fetch_gmail_list (maxResults : Z) (q : option string) (token : string)
  : Eff (HttpResponse Gmail.ListData) :=
  _ <- emit (EvFetch (GmailMessagesList maxResults q token)) ;;
  ask (fun w => gmail_messages_list (upstream w) maxResults q token).

Definition fetch_gmail_detail (id : string) (token : string)
  : Eff (HttpResponse Gmail.Detail) :=
  _ <- emit (EvFetch (GmailMessagesGet id "metadata" ["Subject"; "From"; "Date"] token)) ;;
  ask (fun w => gmail_messages_get (upstream w) id token).

(** ** Tool adapters *)

(** The [context] of a tool call, as the input schema shapes it;
    [maxResults] ranges over the integral numbers. *)
Record ToolInput := {
  query : option string;
  maxResults : option Z
}.

(** [runtimeContext?.get("googleAccessToken")]. *)
Definition get_access_token (rc : option (gmap string string)) : option string :=
  match rc with
  | Some m => m !! "googleAccessToken"
  | None => None
  end.

(** mastra/tools/google-contacts.ts *)
Module GoogleContacts.

Record Contact := {
  name : string;
  email : option string;
  phone : option string
}.

(** The callback of [(data.connections || []).map(...)]. *)
Definition to_contact (person : People.Person) : Contact :=
  {| name := Js.or_str (Js.prop (Js.first (People.names person)) People.displayName) "Unknown";
     email := Js.prop (Js.first (People.emailAddresses person)) People.value;
     phone := Js.prop (Js.first (People.phoneNumbers person)) People.value |}.

Definition execute (context : ToolInput) (rc : option (gmap string string))
  : Eff (list Contact) :=
  match get_access_token rc with
  | Some token =>
    if Js.truthy token then
      let maxResults := default 10 (maxResults context) in
      response <- fetch_people "names,emailAddresses,phoneNumbers" maxResults token ;;
      match response with
      | HttpFail status errorText =>
        throw ("Failed to fetch contacts: " +:+ pretty status +:+ " " +:+ errorText)
      | HttpOk data =>
        ret (map to_contact (default [] (People.connections data)))
      end
    else throw "Google access token not available"
  | None => throw "Google access token not available"
  end.

End GoogleContacts.

(** mastra/tools/google-gmail.ts *)
Module GoogleGmail.

Record Email := {
  id : string;
  subject : string;
  from : string;
  date : string;
  snippet : string
}.

(** [headers.find((h) => h.name === key)?.value] *)
Definition header_value (key : string) (headers : list Gmail.Header) : option string :=
  Gmail.value <$> Js.find (fun h => String.eqb (Gmail.name h) key) headers.

(** The sub-result for a message whose detail request was not [ok]. *)
Definition placeholder (msg : Gmail.MessageRef) : Email :=
  {| id := Gmail.id msg;
     subject := "Error fetching email";
     from := "Unknown";
     date := "";
     snippet := "" |}.

Definition of_detail (msg : Gmail.MessageRef) (detail : Gmail.Detail) : Email :=
  let headers := default [] (Js.prop (Gmail.payload detail) Gmail.headers) in
  {| id := Gmail.id msg;
     subject := Js.or_str (header_value "Subject" headers) "No Subject";
     from := Js.or_str (header_value "From" headers) "Unknown";
     date := Js.or_str (header_value "Date" headers) "";
     snippet := Js.or_str (Gmail.snippet detail) "" |}.

(** The [q] parameter: set only [if (context.query)]. *)
Definition search_query (context : ToolInput) : option string :=
  match query context with
  | Some s => if Js.truthy s then Some s else None
  | None => None
  end.

(** The async callback mapped over the listed messages. *)
Definition fetch_email (token : string) (msg : Gmail.MessageRef) : Eff Email :=
  detailResponse <- fetch_gmail_detail (Gmail.id msg) token ;;
  match detailResponse with
  | HttpFail _ _ => ret (placeholder msg)
  | HttpOk detail => ret (of_detail msg detail)
  end.

(** The sub-result that the callback resolves to for one listed
    message, given the answer of the service to its detail request. *)
Definition email_for (up : Upstream) (token : string) (msg : Gmail.MessageRef) : Email :=
  match gmail_messages_get up (Gmail.id msg) token with
  | HttpFail _ _ => placeholder msg
  | HttpOk detail => of_detail msg detail
  end.

Definition execute (context : ToolInput) (rc : option (gmap string string))
  : Eff (list Email) :=
  match get_access_token rc with
  | Some token =>
    if Js.truthy token then
      let maxResults := default 10 (maxResults context) in
      let q := search_query context in
      listResponse <- fetch_gmail_list maxResults q token ;;
      match listResponse with
      | HttpFail status errorText =>
        throw ("Failed to fetch emails: " +:+ pretty status +:+ " " +:+ errorText)
      | HttpOk listData =>
        let messages := default [] (Gmail.messages listData) in
        mapM (fetch_email token) (Js.slice0 maxResults messages)
      end
    else throw "Google access token not available"
  | None => throw "Google access token not available"
  end.

End GoogleGmail.

(** ** JSON text of a string *)

(** [JSON.stringify] applied to a string (QuoteJSONString), and
    [JSON.parse] applied to the text of a string literal.  A string
    stands for its UTF-8 bytes: bytes from 128 up pass through both
    functions unchanged. *)
Module JSON.

Definition dquote : ascii := "034"%char.
Definition backslash : ascii := "092"%char.
Definition newline : ascii := "010"%char.

Definition hex_digit (n : N) : ascii :=
  match n with
  | 0 => "0" | 1 => "1" | 2 => "2" | 3 => "3" | 4 => "4" | 5 => "5"
  | 6 => "6" | 7 => "7" | 8 => "8" | 9 => "9" | 10 => "a" | 11 => "b"
  | 12 => "c" | 13 => "d" | 14 => "e" | _ => "f"
  end%N%char.

(** [\uXXXX] with four lowercase hexadecimal digits. *)
Definition unicode_escape (n : N) : string :=
  String backslash (String "u" (String (hex_digit (n / 4096 mod 16))
    (String (hex_digit (n / 256 mod 16)) (String (hex_digit (n / 16 mod 16))
      (String (hex_digit (n mod 16)) ""))))).

Definition quote_char (c : ascii) : string :=
  match N_of_ascii c with
  | 8 => String backslash "b"
  | 9 => String backslash "t"
  | 10 => String backslash "n"
  | 12 => String backslash "f"
  | 13 => String backslash "r"
  | 34 => String backslash (String dquote "")
  | 92 => String backslash (String backslash "")
  | n => if n <? 32 then unicode_escape n else String c ""
  end%N.

Fixpoint quote_chars (s : string) : string :=
  match s with
  | EmptyString => EmptyString
  | String c s' => quote_char c +:+ quote_chars s'
  end.

Definition stringify (s : string) : string :=
  String dquote (quote_chars s +:+ String dquote "").

Definition hex_value (c : ascii) : option N :=
  let n := N_of_ascii c in
  if ((48 <=? n) && (n <=? 57))%N then Some (n - 48)%N
  else if ((97 <=? n) && (n <=? 102))%N then Some (n - 87)%N
  else if ((65 <=? n) && (n <=? 70))%N then Some (n - 55)%N
  else None.

(** The code unit written as [\uXXXX]; code points from 128 up would
    take several bytes and are not produced by [stringify]. *)
Definition unescape_unicode (h1 h2 h3 h4 : ascii) : option ascii :=
  match hex_value h1, hex_value h2, hex_value h3, hex_value h4 with
  | Some a, Some b, Some c, Some d =>
    let n := (a * 4096 + b * 256 + c * 16 + d)%N in
    if (n <? 128)%N then Some (ascii_of_N n) else None
  | _, _, _, _ => None
  end.

(** The characters of a string literal after its opening quote, up to
    the closing quote, which must end the text. *)
Fixpoint unquote_chars (s : string) : option string :=
  match s with
  | EmptyString => None
  | String c s' =>
    if Ascii.eqb c dquote then
      match s' with
      | EmptyString => Some EmptyString
      | String _ _ => None
      end
    else if Ascii.eqb c backslash then
      match s' with
      | String e s'' =>
        let simple (r : ascii) := String r <$> unquote_chars s'' in
        if Ascii.eqb e "b" then simple "008"%char
        else if Ascii.eqb e "t" then simple "009"%char
        else if Ascii.eqb e "n" then simple "010"%char
        else if Ascii.eqb e "f" then simple "012"%char
        else if Ascii.eqb e "r" then simple "013"%char
        else if Ascii.eqb e dquote then simple dquote
        else if Ascii.eqb e backslash then simple backslash
        else if Ascii.eqb e "/" then simple "/"%char
        else if Ascii.eqb e "u" then
          match s'' with
          | String h1 (String h2 (String h3 (String h4 rest))) =>
            match unescape_unicode h1 h2 h3 h4 with
            | Some r => String r <$> unquote_chars rest
            | None => None
            end
          | _ => None
          end
        else None
      | EmptyString => None
      end
    else if (N_of_ascii c <? 32)%N then None
    else String c <$> unquote_chars s'
  end.

(** [JSON.parse(text)] when [text] is a string literal. *)
Definition parse_string (text : string) : option string :=
  match text with
  | String c s' => if Ascii.eqb c dquote then unquote_chars s' else None
  | EmptyString => None
  end.

End JSON.

(** ** Sorting *)

(** A stable insertion sort: [x] is placed before the first element it
    may precede.  [Array.prototype.sort] is stable, so for a consistent
    comparator this is the array it produces. *)
Fixpoint insert_sorted {A : Type} (before : A -> A -> bool) (x : A) (l : list A) : list A :=
  match l with
  | [] => [x]
  | y :: l' => if before x y then x :: y :: l' else y :: insert_sorted before x l'
  end.

Fixpoint stable_sort {A : Type} (before : A -> A -> bool) (l : list A) : list A :=
  match l with
  | [] => []
  | x :: l' => insert_sorted before x (stable_sort before l')
  end.

(** [[...arr].sort(compare)] for a comparator returning a number. *)
Definition js_sort {A : Type} (compare : A -> A -> Z) (arr : list A) : list A :=
  stable_sort (fun a b => compare a b <=? 0) arr.

(** [ORDER BY key ASC]; rows with equal keys keep the table order. *)
Definition order_by_asc {A : Type} (key : A -> Z) (rows : list A) : list A :=
  stable_sort (fun a b => key a <=? key b) rows.

(** ** Requests and responses *)

(** What the handlers read from the Hono context: the session that
    [auth.api.getSession] resolves from the request headers, the parsed
    JSON body ([None] when the body is not JSON), the query string and
    the route parameter. *)
Record Request := {
  req_session : option AuthSession;
  req_json : option Json;
  req_query : gmap string string;
  req_param : string
}.

Record TraceSummary := {
  summary_traceId : string;
  summary_name : string;
  summary_startTime : Z;
  summary_endTime : option Z;
  summary_input : string;
  summary_output : string;
  summary_metadata : gmap string string
}.

Record SpanView := {
  view_id : string;
  view_traceId : string;
  view_name : string;
  view_type : string;
  view_startTime : Z;
  view_endTime : option Z;
  view_input : string;
  view_output : string;
  view_metadata : gmap string string;
  view_attributes : string;
  view_errorInfo : option string;
  view_parentSpanId : option string;
  isRootSpan : bool
}.

Record TraceDetail := {
  detail_traceId : string;
  detail_spans : list SpanView;
  detail_startTime : Z;
  detail_endTime : option Z;
  detail_metadata : gmap string string
}.

(** The objects passed to [c.json]. *)
Inductive JsonBody : Type :=
| ErrorBody (error : string)
| SuccessBody (success : bool)
| MessagesBody (messages : list Message)
| ConversationBody (threadId : string) (title : string) (traces : list TraceSummary)
| TraceBody (trace : TraceDetail).

(** How the body of a streamed response ends: [controller.close()] or
    [controller.error(error)]. *)
Inductive StreamEnd : Type := Closed | Errored.

Inductive Response : Type :=
| JsonResponse (body : JsonBody) (status : Z)
| StreamResponse (status : Z) (headers : list (string * string))
    (chunks : list string) (finish : StreamEnd)
| UiMessageStreamResponse (stream : AgentStream)
| InternalServerError.

Definition c_json (body : JsonBody) (status : Z) : Response := JsonResponse body status.

Fixpoint header_of (key : string) (headers : list (string * string)) : option string :=
  match headers with
  | [] => None
  | (k, v) :: rest => if String.eqb k key then Some v else header_of key rest
  end.

(** ** middleware/auth.ts *)

Definition requireAuth (c : Request) (next : AuthSession -> Eff Response) : Eff Response :=
  match req_session c with
  | None => ret (c_json (ErrorBody "Unauthorized") 401)
  | Some session => next session
  end.

(** The rows selected by [getGoogleAccount], and [accounts[0] || null]. *)
Definition google_account (table : list Account) (uid : string) : option Account :=
  head (List.filter
          (fun a => String.eqb (userId a) uid && String.eqb (providerId a) "google")
          table).

Definition getGoogleAccount (uid : string) : Eff (option Account) :=
  _ <- emit (EvGetGoogleAccount uid) ;;
  ask (fun w => google_account (account_table w) uid).

(** Hono answers 500 when a handler throws. *)
Definition serve (handler : Eff Response) (w : World) : Response * World :=
  match handler w with
  | (Returns r, w') => (r, w')
  | (Throws _, w') => (InternalServerError, w')
  end.

(** [await c.req.json()] *)
Definition c_req_json (c : Request) : Eff Json :=
  match req_json c with
  | Some body => ret body
  | None => throw "Unexpected end of JSON input"
  end.

(** The property [key] of a parsed body: only an object has one. *)
Definition body_property (body : Json) (key : string) : JsValue :=
  match body with
  | JObject fields => get_field key fields
  | _ => None
  end.

(** One binding of [const { message, threadId } = body]. *)
Definition destructure (body : Json) (key : string) : Eff JsValue :=
  match body with
  | JNull => throw "Cannot destructure property of null"
  | _ => ret (body_property body key)
  end.

(** ** The memory of the agent

    The memory is a library object; it is modelled by the contract the
    handlers rely on: [getThreadById] finds a thread by identity,
    [query({ threadId })] yields the messages of that thread in storage
    order, [deleteMessages(ids)] removes the messages with these
    identities. *)
Module Mem.

Definition getThreadById (m : Memory) (tid : string) : option Thread :=
  Js.find (fun t => String.eqb (thread_id t) tid) (threads m).

Definition query (m : Memory) (tid : string) : list Message :=
  List.filter (fun x => String.eqb (message_thread x) tid) (stored_messages m).

Definition deleteMessages (m : Memory) (ids : list string) : Memory :=
  {| threads := threads m;
     stored_messages :=
       List.filter (fun x => negb (existsb (String.eqb (message_id x)) ids))
         (stored_messages m) |}.

End Mem.

Definition agent_getMemory : Eff (option Memory) := ask agent_memory.

Definition memory_getThreadById (tid : string) : Eff (option Thread) :=
  _ <- emit (EvGetThreadById tid) ;;
  ask (fun w => Js.prop (agent_memory w) (fun m => Mem.getThreadById m tid)).

Definition memory_query (tid : string) : Eff (list Message) :=
  _ <- emit (EvQuery tid) ;;
  ask (fun w => match agent_memory w with
                | Some m => Mem.query m tid
                | None => []
                end).

Definition memory_deleteMessages (ids : list string) : Eff unit :=
  _ <- emit (EvDeleteMessages ids) ;;
  fun w => (Returns tt,
            with_memory w ((fun m => Mem.deleteMessages m ids) <$> agent_memory w)).

(** [await agent.stream(message, options)]: when the call resolves, the
    turn is saved in the memory of the agent, if it has one. *)
Definition agent_stream (message : string) (opts : StreamOptions) : Eff AgentStream :=
  _ <- emit (EvAgentStream message opts) ;;
  fun w =>
    match chat_agent w message opts with
    | Some stream =>
      (Returns stream, with_memory w (agent_saves w message opts <$> agent_memory w))
    | None => (Throws "agent.stream rejected", w)
    end.

(** ** The chat routes (thread deletion, stream as server-sent events, history) *)

Definition default_thread (session : AuthSession) : string :=
  "thread-" +:+ user_id (user session).

(** The string held by a value known to be a string. *)
Definition js_string_of (v : JsValue) : string :=
  match v with
  | Some (JString s) => s
  | _ => ""
  end.

(** [threadId || `thread-${session.user.id}`] *)
Definition resolve_thread (threadId : JsValue) (session : AuthSession) : Json :=
  match threadId with
  | Some v => if js_truthy threadId then v else JString (default_thread session)
  | None => JString (default_thread session)
  end.

(** The runtime context built for a turn. *)
Definition turn_context (account : option Account) (session : AuthSession)
  : gmap string string :=
  <["userId" := user_id (user session)]>
    (<["googleAccessToken" := Js.or_str (Js.prop account accessToken) ""]> ∅).

(** The second argument of [agent.stream]: the memory thread and
    resource, the runtime context and, in one variant, the format. *)
Definition stream_options (fmt : option string) (resolvedThreadId : Json)
    (account : option Account) (session : AuthSession) : StreamOptions :=
  {| format := fmt;
     memory_thread := resolvedThreadId;
     memory_resource := user_id (user session);
     runtimeContext := turn_context account session |}.

(** The options that the stream handlers build from the fields of a
    body, for the session of the caller and the accounts on record. *)
Definition turn_options (fmt : option string) (w : World)
    (fields : list (string * Json)) (session : AuthSession) : StreamOptions :=
  stream_options fmt (resolve_thread (get_field "threadId" fields) session)
    (google_account (account_table w) (user_id (user session))) session.

(** The world once a stream handler has looked up the account of [uid]
    and called [agent.stream(message, opts)]. *)
Definition after_turn (w : World) (uid message : string) (opts : StreamOptions) : World :=
  with_log w ((log w ++ [EvGetGoogleAccount uid]) ++ [EvAgentStream message opts]).

(** The same world once [agent.stream] has resolved and saved the turn. *)
Definition saved_turn (w : World) (uid message : string) (opts : StreamOptions) : World :=
  with_memory (after_turn w uid message opts)
    (agent_saves w message opts <$> agent_memory w).

Definition nl : string := String JSON.newline "".

Definition traceId_frame (traceId : string) : string :=
  "event: traceId" +:+ nl +:+ "data: " +:+ JSON.stringify traceId +:+ nl +:+ nl.

Definition data_frame (chunk : string) : string :=
  "data: " +:+ JSON.stringify chunk +:+ nl +:+ nl.

Definition done_frame : string := "data: [DONE]" +:+ nl +:+ nl.

(** The [start] callback of the [ReadableStream]: the chunks enqueued,
    in order, and how the stream ends.  What a reader of the body gets of
    the chunks enqueued is [received], below. *)
Definition sse_start (stream : AgentStream) : list string * StreamEnd :=
  let first :=
    match stream_traceId stream with
    | Some traceId => if Js.truthy traceId then [traceId_frame traceId] else []
    | None => []
    end in
  let texts := map data_frame (textStream stream) in
  if textStream_fails stream
  then (first ++ texts, Errored)
  else (first ++ texts ++ [done_frame], Closed).

(** What a reader of the body receives of the chunks enqueued: all of
    them when the stream is closed; when it is errored, only the [taken]
    first ones, those it had read by then, since [controller.error]
    drops the chunks still queued. *)
Definition received (taken : nat) (chunks : list string) (finish : StreamEnd)
  : list string :=
  match finish with
  | Closed => chunks
  | Errored => take taken chunks
  end.

Definition sse_headers : list (string * string) :=
  [("Content-Type", "text/event-stream");
   ("Cache-Control", "no-cache");
   ("Connection", "keep-alive")].

Module ChatRoutes.

(** DELETE /chat/threads/:threadId *)
Definition delete_thread (c : Request) (session : AuthSession) : Eff Response :=
  let threadId := req_param c in
  memory <- agent_getMemory ;;
  match memory with
  | None => ret (c_json (ErrorBody "Memory not configured") 500)
  | Some _ =>
    thread <- memory_getThreadById threadId ;;
    match thread with
    | None => ret (c_json (ErrorBody "Thread not found") 404)
    | Some t =>
      if negb (String.eqb (resourceId t) (user_id (user session)))
      then ret (c_json (ErrorBody "Thread not found") 404)
      else
        uiMessages <- memory_query threadId ;;
        _ <- (if (0 <? length uiMessages)%nat
              then memory_deleteMessages (map message_id uiMessages)
              else ret tt) ;;
        ret (c_json (SuccessBody true) 200)
    end
  end.

(** POST /chat/stream *)
Definition post_stream (c : Request) (session : AuthSession) : Eff Response :=
  body <- c_req_json c ;;
  message <- destructure body "message" ;;
  threadId <- destructure body "threadId" ;;
  if negb (js_truthy message) || negb (js_is_string message)
  then ret (c_json (ErrorBody "Message is required") 400)
  else
    account <- getGoogleAccount (user_id (user session)) ;;
    let resolvedThreadId := resolve_thread threadId session in
    stream <- agent_stream (js_string_of message)
      (stream_options None resolvedThreadId account session) ;;
    let (chunks, finish) := sse_start stream in
    ret (StreamResponse 200 sse_headers chunks finish).

(** The comparator of the history sort:
    [new Date(a.createdAt || 0).getTime() - new Date(b.createdAt || 0).getTime()]. *)
Definition created_time (m : Message) : Z := default 0 (createdAt m).

Definition by_created (a b : Message) : Z := created_time a - created_time b.

(** GET /chat/history *)
Definition get_history (c : Request) (session : AuthSession) : Eff Response :=
  let threadId := Js.or_str (req_query c !! "threadId") (default_thread session) in
  memory <- agent_getMemory ;;
  match memory with
  | None => ret (c_json (MessagesBody []) 200)
  | Some _ =>
    uiMessages <- memory_query threadId ;;
    let sortedMessages := js_sort by_created uiMessages in
    ret (c_json (MessagesBody sortedMessages) 200)
  end.

(** [chat.use("*", requireAuth)] in front of each handler. *)
Definition route (handler : Request -> AuthSession -> Eff Response) (c : Request)
  : World -> Response * World :=
  serve (requireAuth c (handler c)).

End ChatRoutes.

(** The variant of routes/chat.ts that hands the stream to the AI SDK:
    only the stream handler differs, and the response is the one that
    [toUIMessageStreamResponse] builds from the stream. *)
Module ChatRoutesAiSdk.

(** POST /chat/stream *)
Definition post_stream (c : Request) (session : AuthSession) : Eff Response :=
  body <- c_req_json c ;;
  message <- destructure body "message" ;;
  threadId <- destructure body "threadId" ;;
  if negb (js_truthy message) || negb (js_is_string message)
  then ret (c_json (ErrorBody "Message is required") 400)
  else
    account <- getGoogleAccount (user_id (user session)) ;;
    let resolvedThreadId := resolve_thread threadId session in
    stream <- agent_stream (js_string_of message)
      (stream_options (Some "aisdk") resolvedThreadId account session) ;;
    ret (UiMessageStreamResponse stream).

Definition route (handler : Request -> AuthSession -> Eff Response) (c : Request)
  : World -> Response * World :=
  serve (requireAuth c (handler c)).

End ChatRoutesAiSdk.

(** ** routes/traces.ts *)

(** [try { body } catch (error) { handler }] *)
Definition try_catch {A : Type} (body : Eff A) (handler : string -> Eff A) : Eff A :=
  fun w =>
    match body w with
    | (Returns a, w') => (Returns a, w')
    | (Throws e, w') => handler e w'
    end.

(** [storage.db.any(sql, [key])]: the rows selected from
    [mastra_ai_spans]; the query rejects when the store is unavailable. *)
Definition db_any {A : Type} (key : string) (select : list Span -> list A) : Eff (list A) :=
  _ <- emit (EvSelectSpans key) ;;
  fun w =>
    match ai_spans w with
    | Some rows => (Returns (select rows), w)
    | None => (Throws "storage unavailable", w)
    end.

(** The columns selected for a root span. *)
Record RootRow := {
  row_traceId : string;
  row_startedAt : Z;
  row_endedAt : option Z;
  row_metadata : gmap string string;
  row_input : string;
  row_output : string;
  row_name : string
}.

Global Instance RootRow_eq_dec : EqDecision RootRow.
Proof. solve_decision. Defined.

Definition root_row (s : Span) : RootRow :=
  {| row_traceId := traceId s; row_startedAt := startedAt s;
     row_endedAt := endedAt s; row_metadata := metadata s;
     row_input := input s; row_output := output s; row_name := span_name s |}.

(** SELECT DISTINCT "traceId", "startedAt", "endedAt", metadata, input,
    output, name FROM mastra_ai_spans WHERE metadata->>'threadId' = $1
    AND "parentSpanId" IS NULL ORDER BY "startedAt" ASC *)
Definition select_root_spans (threadId : string) (rows : list Span) : list RootRow :=
  order_by_asc row_startedAt
    (remove_dups
       (map root_row
          (List.filter
             (fun s => bool_decide (metadata s !! "threadId" = Some threadId)
                       && bool_decide (parentSpanId s = None))
             rows))).

(** SELECT * FROM mastra_ai_spans WHERE "traceId" = $1
    ORDER BY "startedAt" ASC *)
Definition select_trace_spans (tid : string) (rows : list Span) : list Span :=
  order_by_asc startedAt (List.filter (fun s => String.eqb (traceId s) tid) rows).

Module TraceRoutes.

Definition to_summary (s : RootRow) : TraceSummary :=
  {| summary_traceId := row_traceId s; summary_name := row_name s;
     summary_startTime := row_startedAt s; summary_endTime := row_endedAt s;
     summary_input := row_input s; summary_output := row_output s;
     summary_metadata := row_metadata s |}.

(** GET /traces/conversation/:threadId *)
Definition get_conversation (c : Request) (session : AuthSession) : Eff Response :=
  let threadId := req_param c in
  try_catch
    (rootSpans <- db_any threadId (select_root_spans threadId) ;;
     memory <- agent_getMemory ;;
     thread <- match memory with
               | Some _ => memory_getThreadById threadId
               | None => ret None
               end ;;
     ret (c_json (ConversationBody threadId
                    (Js.or_str (Js.prop thread title) "Untitled Chat")
                    (map to_summary rootSpans)) 200))
    (fun _ => ret (c_json (ErrorBody "Failed to fetch conversation traces") 500)).

(** [!s.parentSpanId] *)
Definition no_parent (s : Span) : bool := negb (Js.truthy_opt (parentSpanId s)).

Definition to_view (s : Span) : SpanView :=
  {| view_id := spanId s; view_traceId := traceId s; view_name := span_name s;
     view_type := spanType s; view_startTime := startedAt s;
     view_endTime := endedAt s; view_input := input s; view_output := output s;
     view_metadata := metadata s; view_attributes := attributes s;
     view_errorInfo := error s; view_parentSpanId := parentSpanId s;
     isRootSpan := no_parent s |}.

(** [spans.find((s) => !s.parentSpanId) || spans[0]] *)
Definition find_root (spans : list Span) : option Span :=
  match Js.find no_parent spans with
  | Some s => Some s
  | None => head spans
  end.

(** GET /traces/:traceId *)
Definition get_trace (c : Request) (session : AuthSession) : Eff Response :=
  let tid := req_param c in
  try_catch
    (spans <- db_any tid (select_trace_spans tid) ;;
     if (length spans =? 0)%nat
     then ret (c_json (ErrorBody "Trace not found") 404)
     else
       match find_root spans with
       | None => throw "Cannot read properties of undefined"
       | Some rootSpan =>
         ret (c_json (TraceBody
                {| detail_traceId := tid;
                   detail_spans := map to_view spans;
                   detail_startTime := startedAt rootSpan;
                   detail_endTime := Js.prop (last spans) endedAt;
                   detail_metadata := metadata rootSpan |}) 200)
       end)
    (fun _ => ret (c_json (ErrorBody "Failed to fetch trace") 500)).

(** [traces.use("*", requireAuth)] in front of each handler. *)
Definition route (handler : Request -> AuthSession -> Eff Response) (c : Request)
  : World -> Response * World :=
  serve (requireAuth c (handler c)).

End TraceRoutes.

(** ** A small concrete world

    Two users, one thread of the first user with three messages stored
    out of order, one trace of two spans, and upstream services that list
    two mail messages, the first of which cannot be read. *)
Module Sample.

Definition alice : AuthSession :=
  {| user := {| user_id := "alice"; user_name := "Alice"; user_email := "alice@example.com" |};
     session_id := "session-alice" |}.

Definition bob : AuthSession :=
  {| user := {| user_id := "bob"; user_name := "Bob"; user_email := "bob@example.com" |};
     session_id := "session-bob" |}.

Definition people : People.Data :=
  {| People.connections := Some
       [ {| People.names := Some [ {| People.displayName := Some "John Doe" |} ];
            People.emailAddresses := Some [ {| People.value := Some "john@example.com" |} ];
            People.phoneNumbers := None |};
         {| People.names := None;
            People.emailAddresses := None;
            People.phoneNumbers := Some [] |} ] |}.

Definition m1 : Gmail.MessageRef := {| Gmail.id := "msg1" |}.
Definition m2 : Gmail.MessageRef := {| Gmail.id := "msg2" |}.

Definition listed : Gmail.ListData := {| Gmail.messages := Some [m1; m2] |}.

Definition detail2 : Gmail.Detail :=
  {| Gmail.snippet := Some "See you";
     Gmail.payload := Some {| Gmail.headers := Some
       [ {| Gmail.name := "From"; Gmail.value := "carol@example.com" |} ] |} |}.

Definition services : Upstream :=
  {| people_connections := fun _ _ _ => HttpOk people;
     gmail_messages_list := fun _ _ _ => HttpOk listed;
     gmail_messages_get := fun id _ =>
       if String.eqb id "msg1" then HttpFail 404 "Not Found" else HttpOk detail2 |}.

Definition thread1 : Thread :=
  {| thread_id := "t1"; resourceId := "alice"; title := Some "Trip" |}.

Definition message (mid : string) (r : Role) (text : string) (at_ : option Z) : Message :=
  {| message_id := mid; message_thread := "t1"; role := r; content := text;
     createdAt := at_ |}.

Definition store : Memory :=
  {| threads := [thread1];
     stored_messages :=
       [ message "c" RoleUser "third" (Some 3000);
         message "a" RoleUser "first" (Some 1000);
         message "b" RoleAssistant "second" (Some 2000) ] |}.

Definition span (sid : string) (parent : option string) (t0 : Z) (t1 : option Z) : Span :=
  {| spanId := sid; traceId := "trace1"; parentSpanId := parent;
     span_name := sid; spanType := "agent_run"; startedAt := t0; endedAt := t1;
     input := "in"; output := "out";
     metadata := {[ "threadId" := "t1" ]}; attributes := "";
     error := None |}.

Definition rows : list Span :=
  [ span "child" (Some "root") 20 (Some 30); span "root" None 10 (Some 40) ].

(** An agent that answers every message with the chunk "Hi" and has no
    trace identity to report. *)
Definition untraced : AgentStream :=
  {| stream_traceId := None; textStream := ["Hi"]; textStream_fails := false |}.

(** A memory that files the message of the user under the thread named
    in the options, and opens that thread, untitled, for the resource of
    the options when there is none of that identity. *)
Definition saves (message : string) (opts : StreamOptions) (m : Memory) : Memory :=
  let tid := js_string_of (Some (memory_thread opts)) in
  {| threads :=
       if existsb (fun t => String.eqb (thread_id t) tid) (threads m)
       then threads m
       else threads m ++ [ {| thread_id := tid; resourceId := memory_resource opts;
                              title := None |} ];
     stored_messages :=
       stored_messages m
       ++ [ {| message_id := "turn-" +:+ pretty (length (stored_messages m));
               message_thread := tid; role := RoleUser; content := message;
               createdAt := None |} ] |}.

Definition world : World :=
  {| upstream := services;
     account_table := [ {| userId := "alice"; providerId := "google";
                           accessToken := Some "token-a" |} ];
     agent_memory := Some store;
     ai_spans := Some rows;
     chat_agent := fun _ _ => Some untraced;
     agent_saves := saves;
     log := [] |}.

Definition request (who : AuthSession) (body : option Json) (param : string) : Request :=
  {| req_session := Some who; req_json := body; req_query := ∅; req_param := param |}.

Definition hello : Json := JObject [("message", JString "Hello")].

(** GET /chat/history?threadId=t1 *)
Definition history_request (who : AuthSession) : Request :=
  {| req_session := Some who; req_json := None;
     req_query := {[ "threadId" := "t1" ]}; req_param := "" |}.

Definition no_token : option (gmap string string) := Some ∅.
Definition with_token : option (gmap string string) :=
  Some {[ "googleAccessToken" := "token-a" ]}.

Definition one_result : ToolInput := {| query := None; maxResults := Some 1 |}.
Definition defaults : ToolInput := {| query := None; maxResults := None |}.

End Sample.

(** ** The output shapes of the design document *)

Module Shape.

(** A contact against the person it was made from: a missing name
    becomes "Unknown", a missing address or number is omitted. *)
Definition contact (p : People.Person) (c : GoogleContacts.Contact) : Prop :=
  GoogleContacts.name c <> ""
  /\ (People.names p = None \/ People.names p = Some [] ->
      GoogleContacts.name c = "Unknown")
  /\ (forall n rest, People.names p = Some (n :: rest) ->
      GoogleContacts.name c
      = match People.displayName n with
        | Some (String a s) => String a s
        | _ => "Unknown"
        end)
  /\ (People.emailAddresses p = None \/ People.emailAddresses p = Some [] ->
      GoogleContacts.email c = None)
  /\ (forall f rest, People.emailAddresses p = Some (f :: rest) ->
      GoogleContacts.email c = People.value f)
  /\ (People.phoneNumbers p = None \/ People.phoneNumbers p = Some [] ->
      GoogleContacts.phone c = None)
  /\ (forall f rest, People.phoneNumbers p = Some (f :: rest) ->
      GoogleContacts.phone c = People.value f).

Definition no_header (key : string) (detail : Gmail.Detail) : Prop :=
  Forall (fun h => Gmail.name h <> key)
    (default [] (Js.prop (Gmail.payload detail) Gmail.headers)).

(** A mail entry against the listed message it was made from and the
    answer to its detail request. *)
Definition email (up : Upstream) (token : string) (msg : Gmail.MessageRef)
    (e : GoogleGmail.Email) : Prop :=
  GoogleGmail.id e = Gmail.id msg
  /\ GoogleGmail.subject e <> ""
  /\ GoogleGmail.from e <> ""
  /\ (forall detail, gmail_messages_get up (Gmail.id msg) token = HttpOk detail ->
      (no_header "Subject" detail -> GoogleGmail.subject e = "No Subject")
      /\ (no_header "From" detail -> GoogleGmail.from e = "Unknown")
      /\ (no_header "Date" detail -> GoogleGmail.date e = "")
      /\ (Gmail.snippet detail = None -> GoogleGmail.snippet e = "")).

(** A text without a line break. *)
Fixpoint one_line (s : string) : bool :=
  match s with
  | EmptyString => true
  | String c s' => negb (Ascii.eqb c JSON.newline) && one_line s'
  end.

(** A data frame of the event stream: the JSON text of its chunk on
    one line after "data: ", closed by an empty line, and parsed back
    to the chunk by [JSON.parse]. *)
Definition text_frame (chunk frame : string) : Prop :=
  exists payload,
    frame = "data: " +:+ payload +:+ nl +:+ nl
    /\ one_line payload = true
    /\ JSON.parse_string payload = Some chunk.

(** A mail entry whose detail request failed. *)
Definition degraded (up : Upstream) (token : string) (msg : Gmail.MessageRef)
    (e : GoogleGmail.Email) : Prop :=
  GoogleGmail.id e = Gmail.id msg
  /\ (forall status text,
       gmail_messages_get up (Gmail.id msg) token = HttpFail status text ->
       e = {| GoogleGmail.id := Gmail.id msg;
              GoogleGmail.subject := "Error fetching email";
              GoogleGmail.from := "Unknown";
              GoogleGmail.date := "";
              GoogleGmail.snippet := "" |}).

End Shape.

(** ** Further concrete cases *)

Module Cases.

(** Services that answer every request with a failure status. *)
Definition refusing : Upstream :=
  {| people_connections := fun _ _ _ => HttpFail 401 "Unauthorized";
     gmail_messages_list := fun _ _ _ => HttpFail 401 "Unauthorized";
     gmail_messages_get := fun _ _ => HttpFail 401 "Unauthorized" |}.

(** An agent whose text stream breaks after two chunks. *)
Definition broken : AgentStream :=
  {| stream_traceId := Some "0123456789abcdef0123456789abcdef";
     textStream := ["Hel"; "lo"];
     textStream_fails := true |}.

(** The sample world with other services and another agent. *)
Definition world_with (services : Upstream)
    (agent : string -> StreamOptions -> option AgentStream) : World :=
  {| upstream := services;
     account_table := account_table Sample.world;
     agent_memory := agent_memory Sample.world;
     ai_spans := ai_spans Sample.world;
     chat_agent := agent;
     agent_saves := agent_saves Sample.world;
     log := [] |}.

Definition refused : World := world_with refusing (fun _ _ => None).

Definition breaking : World := world_with Sample.services (fun _ _ => Some broken).

(** A body that names a thread. *)
Definition hello_in (threadId : string) : Json :=
  JObject [("message", JString "Hello"); ("threadId", JString threadId)].

(** The sample world without a span store. *)
Definition storeless : World :=
  {| upstream := Sample.services;
     account_table := account_table Sample.world;
     agent_memory := agent_memory Sample.world;
     ai_spans := None;
     chat_agent := chat_agent Sample.world;
     agent_saves := agent_saves Sample.world;
     log := [] |}.

(** The sample memory with a second thread of the first user, which
    holds two messages of its own. *)
Definition thread2 : Thread :=
  {| thread_id := "t2"; resourceId := "alice"; title := Some "Dinner" |}.

Definition note (mid : string) (r : Role) (text : string) (at_ : option Z) : Message :=
  {| message_id := mid; message_thread := "t2"; role := r; content := text;
     createdAt := at_ |}.

Definition two_threads : Memory :=
  {| threads := [Sample.thread1; thread2];
     stored_messages :=
       [ note "d" RoleUser "Where?" (Some 4000) ]
       ++ stored_messages Sample.store
       ++ [ note "e" RoleAssistant "At eight" (Some 5000) ] |}.

Definition busy : World :=
  {| upstream := Sample.services;
     account_table := account_table Sample.world;
     agent_memory := Some two_threads;
     ai_spans := ai_spans Sample.world;
     chat_agent := chat_agent Sample.world;
     agent_saves := agent_saves Sample.world;
     log := [] |}.

(** Two spans of one trace: the first to start has the empty string for
    parent identity, the second has none. *)
Definition adopted : Span :=
  {| spanId := "step"; traceId := "trace2"; parentSpanId := Some "";
     span_name := "step"; spanType := "tool_call"; startedAt := 10; endedAt := Some 15;
     input := "in"; output := "out"; metadata := ∅; attributes := "";
     error := None |}.

Definition top : Span :=
  {| spanId := "run"; traceId := "trace2"; parentSpanId := None;
     span_name := "run"; spanType := "agent_run"; startedAt := 20; endedAt := Some 40;
     input := "in"; output := "out"; metadata := {[ "threadId" := "t1" ]};
     attributes := ""; error := None |}.

(** The sample world with these two spans in store. *)
Definition relinked : World :=
  {| upstream := Sample.services;
     account_table := account_table Sample.world;
     agent_memory := agent_memory Sample.world;
     ai_spans := Some [top; adopted];
     chat_agent := chat_agent Sample.world;
     agent_saves := agent_saves Sample.world;
     log := [] |}.

(** A stream with a trace identity that ends well. *)
Definition traced : AgentStream :=
  {| stream_traceId := Some "0123456789abcdef0123456789abcdef";
     textStream := ["Hel"; "lo"];
     textStream_fails := false |}.

Definition answering : World := world_with Sample.services (fun _ _ => Some traced).

End Cases.

(** ** Environment configuration *)

Module Config.

(** [process.env]: the variables that are set, with their values. *)
Definition ProcessEnv : Type := gmap string string.

Record Env := {
  PORT : string;
  NODE_ENV : string;
  FRONTEND_URL : string;
  DATABASE_URL : string;
  GOOGLE_CLIENT_ID : string;
  GOOGLE_CLIENT_SECRET : string;
  BETTER_AUTH_SECRET : string;
  BETTER_AUTH_URL : string;
  GOOGLE_GENERATIVE_AI_API_KEY : string
}.

Definition env (process_env : ProcessEnv) : Env :=
  {| PORT := Js.or_str (process_env !! "PORT") "3001";
     NODE_ENV := Js.or_str (process_env !! "NODE_ENV") "development";
     FRONTEND_URL := Js.or_str (process_env !! "FRONTEND_URL") "http://localhost:3000";
     DATABASE_URL := Js.or_str (process_env !! "DATABASE_URL") "";
     GOOGLE_CLIENT_ID := Js.or_str (process_env !! "GOOGLE_CLIENT_ID") "";
     GOOGLE_CLIENT_SECRET := Js.or_str (process_env !! "GOOGLE_CLIENT_SECRET") "";
     BETTER_AUTH_SECRET := Js.or_str (process_env !! "BETTER_AUTH_SECRET") "";
     BETTER_AUTH_URL := Js.or_str (process_env !! "BETTER_AUTH_URL") "http://localhost:3001";
     GOOGLE_GENERATIVE_AI_API_KEY :=
       Js.or_str (process_env !! "GOOGLE_GENERATIVE_AI_API_KEY") "" |}.

(** [env[key]] *)
Definition env_at (e : Env) (key : string) : option string :=
  if String.eqb key "PORT" then Some (PORT e)
  else if String.eqb key "NODE_ENV" then Some (NODE_ENV e)
  else if String.eqb key "FRONTEND_URL" then Some (FRONTEND_URL e)
  else if String.eqb key "DATABASE_URL" then Some (DATABASE_URL e)
  else if String.eqb key "GOOGLE_CLIENT_ID" then Some (GOOGLE_CLIENT_ID e)
  else if String.eqb key "GOOGLE_CLIENT_SECRET" then Some (GOOGLE_CLIENT_SECRET e)
  else if String.eqb key "BETTER_AUTH_SECRET" then Some (BETTER_AUTH_SECRET e)
  else if String.eqb key "BETTER_AUTH_URL" then Some (BETTER_AUTH_URL e)
  else if String.eqb key "GOOGLE_GENERATIVE_AI_API_KEY"
       then Some (GOOGLE_GENERATIVE_AI_API_KEY e)
  else None.

Definition required : list string :=
  ["DATABASE_URL"; "GOOGLE_CLIENT_ID"; "GOOGLE_CLIENT_SECRET"; "BETTER_AUTH_SECRET";
   "GOOGLE_GENERATIVE_AI_API_KEY"].

(** [l.join(sep)] *)
Fixpoint join (sep : string) (l : list string) : string :=
  match l with
  | [] => ""
  | [x] => x
  | x :: rest => x +:+ sep +:+ join sep rest
  end.

Definition missing (e : Env) : list string :=
  List.filter (fun key => negb (Js.truthy_opt (env_at e key))) required.

(** [inl message] is [throw new Error(message)]. *)
Definition validateEnv (e : Env) : string + bool :=
  if (0 <? length (missing e))%nat && String.eqb (NODE_ENV e) "production"
  then inl ("Missing required environment variables: " +:+ join ", " (missing e))
  else inr true.

End Config.

(** ** Keys in insertion order *)

(** The distinct keys of a list in the order in which they first appear:
    the key order of a [Map], or of an object with string keys, filled
    by a loop over the list. *)
Definition first_seen (keys : list string) : list string :=
  rev (remove_dups (rev keys)).

(** ** GET /traces: the traces of a page of spans *)

Module TraceList.

(** An entry of [tracesMap]. *)
Record Trace := {
  trace_traceId : string;
  trace_name : string;
  trace_startTime : Z;
  trace_endTime : option Z;
  trace_spans : list Span;
  trace_metadata : gmap string string;
  trace_attributes : string
}.

(** A [Map] with string keys: its entries in insertion order. *)
Definition TracesMap : Type := list (string * Trace).

Definition has (key : string) (m : TracesMap) : bool :=
  existsb (fun entry => String.eqb (fst entry) key) m.

(** [m.set(key, value)]: a new key goes last, a known key keeps its
    place. *)
Fixpoint set (key : string) (value : Trace) (m : TracesMap) : TracesMap :=
  match m with
  | [] => [(key, value)]
  | (k, v) :: rest =>
    if String.eqb k key then (k, value) :: rest else (k, v) :: set key value rest
  end.

(** A change made to the object that [m.get(key)] returns. *)
Fixpoint update (key : string) (f : Trace -> Trace) (m : TracesMap) : TracesMap :=
  match m with
  | [] => []
  | (k, v) :: rest =>
    if String.eqb k key then (k, f v) :: rest else (k, v) :: update key f rest
  end.

Definition opened (span : Span) : Trace :=
  {| trace_traceId := traceId span;
     trace_name := span_name span;
     trace_startTime := startedAt span;
     trace_endTime := endedAt span;
     trace_spans := [];
     trace_metadata := metadata span;
     trace_attributes := attributes span |}.

Definition push (span : Span) (trace : Trace) : Trace :=
  {| trace_traceId := trace_traceId trace;
     trace_name := trace_name trace;
     trace_startTime := trace_startTime trace;
     trace_endTime := trace_endTime trace;
     trace_spans := trace_spans trace ++ [span];
     trace_metadata := trace_metadata trace;
     trace_attributes := trace_attributes trace |}.

(** [if (span.endedAt && (!trace.endTime || new Date(span.endedAt) >
    new Date(trace.endTime))) trace.endTime = span.endedAt] *)
Definition extend (span : Span) (trace : Trace) : Trace :=
  match endedAt span with
  | Some ended =>
    if match trace_endTime trace with
       | Some known => known <? ended
       | None => true
       end
    then {| trace_traceId := trace_traceId trace;
            trace_name := trace_name trace;
            trace_startTime := trace_startTime trace;
            trace_endTime := Some ended;
            trace_spans := trace_spans trace;
            trace_metadata := trace_metadata trace;
            trace_attributes := trace_attributes trace |}
    else trace
  | None => trace
  end.

(** The body of [for (const span of spans)]. *)
Definition step (tracesMap : TracesMap) (span : Span) : TracesMap :=
  let key := traceId span in
  let tracesMap1 :=
    if negb (has key tracesMap) then set key (opened span) tracesMap else tracesMap in
  let tracesMap2 := update key (push span) tracesMap1 in
  update key (extend span) tracesMap2.

(** [Array.from(tracesMap.values())] after the loop. *)
Definition tracesList (spans : list Span) : list Trace :=
  map snd (fold_left step spans []).

(** What the loop computes, in words of the page: the spans of a trace
    and the latest end among the spans of a trace that have ended. *)

Definition of_trace (key : string) (spans : list Span) : list Span :=
  List.filter (fun s => String.eqb (traceId s) key) spans.

Definition latest_end (endTime : option Z) (mine : list Span) : Prop :=
  (forall s e, In s mine -> endedAt s = Some e ->
     exists e', endTime = Some e' /\ e <= e')
  /\ (forall e', endTime = Some e' -> exists s, In s mine /\ endedAt s = Some e').

(** What a trace holds once the spans of the page have been read: its
    spans in page order, its name, start, metadata and attributes from
    the first of them, and its end. *)
Definition trace_ok (spans : list Span) (t : Trace) : Prop :=
  let mine := of_trace (trace_traceId t) spans in
  trace_spans t = mine
  /\ (exists first rest,
        mine = first :: rest
        /\ trace_name t = span_name first
        /\ trace_startTime t = startedAt first
        /\ trace_metadata t = metadata first
        /\ trace_attributes t = attributes first)
  /\ latest_end (trace_endTime t) mine.

Definition entry_ok (spans : list Span) (entry : string * Trace) : Prop :=
  trace_traceId (snd entry) = fst entry /\ trace_ok spans (snd entry).

(** What [update] does to an entry. *)
Definition at_key (key : string) (f : Trace -> Trace) (entry : string * Trace) :
    string * Trace :=
  if String.eqb (fst entry) key then (fst entry, f (snd entry)) else entry.

End TraceList.

(** ** The conversation list of the web client *)

Module Sidebar.

Record Thread := {
  id : string;
  title : string;
  createdAt : string;
  updatedAt : string
}.

(** [Record<string, Thread[]>]: the properties in insertion order. *)
Definition Groups : Type := list (string * list Thread).

(** [groups[group]] is defined. *)
Definition has (group : string) (groups : Groups) : bool :=
  existsb (fun entry => String.eqb (fst entry) group) groups.

(** [groups[group] = value]: a new property goes last. *)
Fixpoint set (group : string) (value : list Thread) (groups : Groups) : Groups :=
  match groups with
  | [] => [(group, value)]
  | (k, v) :: rest =>
    if String.eqb k group then (k, value) :: rest else (k, v) :: set group value rest
  end.

(** [groups[group].push(thread)] *)
Fixpoint push (group : string) (thread : Thread) (groups : Groups) : Groups :=
  match groups with
  | [] => []
  | (k, v) :: rest =>
    if String.eqb k group then (k, v ++ [thread]) :: rest
    else (k, v) :: push group thread rest
  end.

Definition day : Z := 24 * 60 * 60 * 1000.

Section Dates.

(** [new Date(text).getTime()], [None] for an invalid date. *)
Variable Date_time : string -> option Z.

(** The start of the current day in local time, [today.getTime()]. *)
Variable today : Z.

(** [threadDate >= bound]: false for an invalid date. *)
Definition since (threadDate : option Z) (bound : Z) : bool :=
  match threadDate with
  | Some t => bound <=? t
  | None => false
  end.

Definition group_of (thread : Thread) : string :=
  let threadDate :=
    Date_time (if Js.truthy (updatedAt thread) then updatedAt thread
               else createdAt thread) in
  if since threadDate today then "Today"
  else if since threadDate (today - day) then "Yesterday"
  else if since threadDate (today - 7 * day) then "Last 7 days"
  else if since threadDate (today - 30 * day) then "Last 30 days"
  else "Older".

(** The body of [threads.forEach]. *)
Definition add (groups : Groups) (thread : Thread) : Groups :=
  let group := group_of thread in
  let groups1 := if negb (has group groups) then set group [] groups else groups in
  push group thread groups1.

Definition groupThreadsByDate (threads : list Thread) : Groups :=
  fold_left add threads [].

(** The threads of a group, in the order of the list. *)
Definition members (group : string) (threads : list Thread) : list Thread :=
  List.filter (fun thread => String.eqb (group_of thread) group) threads.

End Dates.

Definition labels : list string :=
  ["Today"; "Yesterday"; "Last 7 days"; "Last 30 days"; "Older"].

End Sidebar.

(** ** The chat page of the web client: reading the streamed answer *)

Module ChatPage.

(** [chunk.split("\n")] *)
Fixpoint split_lines (chunk : string) : list string :=
  match chunk with
  | EmptyString => [EmptyString]
  | String c rest =>
    if Ascii.eqb c JSON.newline then EmptyString :: split_lines rest
    else match split_lines rest with
         | line :: lines => String c line :: lines
         | [] => [String c EmptyString]
         end
  end.

(** [line.startsWith(prefix)] *)
Definition startsWith (line prefix : string) : bool := String.prefix prefix line.

(** [line.slice(n)] *)
Fixpoint slice (n : nat) (line : string) : string :=
  match n, line with
  | O, _ => line
  | S n', String _ rest => slice n' rest
  | S _, EmptyString => EmptyString
  end.

(** The white space and line terminators of one byte. *)
Definition space1 (a : N) : bool :=
  ((9 <=? a) && (a <=? 13) || (a =? 32))%N.

(** U+00A0. *)
Definition space2 (a b : N) : bool := ((a =? 194) && (b =? 160))%N.

(** U+1680, U+2000 to U+200A, U+2028, U+2029, U+202F, U+205F, U+3000 and
    U+FEFF. *)
Definition space3 (a b c : N) : bool :=
  ((a =? 225) && (b =? 154) && (c =? 128)
   || (a =? 226) && (b =? 128)
      && ((128 <=? c) && (c <=? 138) || (c =? 168) || (c =? 169) || (c =? 175))
   || (a =? 226) && (b =? 129) && (c =? 159)
   || (a =? 227) && (b =? 128) && (c =? 128)
   || (a =? 239) && (b =? 187) && (c =? 191))%N.

(** [!line.trim()]: the line holds nothing but white space and line
    terminators. *)
Fixpoint blank (line : string) : bool :=
  match line with
  | EmptyString => true
  | String a rest1 =>
    if space1 (N_of_ascii a) then blank rest1
    else match rest1 with
         | String b rest2 =>
           if space2 (N_of_ascii a) (N_of_ascii b) then blank rest2
           else match rest2 with
                | String c rest3 =>
                  if space3 (N_of_ascii a) (N_of_ascii b) (N_of_ascii c)
                  then blank rest3 else false
                | EmptyString => false
                end
         | EmptyString => false
         end
  end.

Fixpoint all_hex (text : string) : bool :=
  match text with
  | EmptyString => true
  | String c rest => bool_decide (is_Some (JSON.hex_value c)) && all_hex rest
  end.

(** [/^[a-f0-9]{32}$/i.test(text)] *)
Definition looks_like_traceId (text : string) : bool :=
  (String.length text =? 32)%nat && all_hex text.

Section Reader.

(** [JSON.parse], [None] when it throws. *)
Variable JSON_parse : string -> option Json.

(** The text that [+=] appends for a value that is not a string. *)
Variable String_of : Json -> string.

(** The body of [for (const line of lines)], on [assistantContent]. *)
Definition on_line (assistantContent line : string) : string :=
  if startsWith line "event:" || blank line then assistantContent
  else if startsWith line "data: " then
    let data := slice 6 line in
    if String.eqb data "[DONE]" then assistantContent
    else match JSON_parse data with
         | Some (JString text) =>
           if looks_like_traceId text then assistantContent
           else assistantContent +:+ text
         | Some value => assistantContent +:+ String_of value
         | None => assistantContent
         end
  else assistantContent.

(** One turn of [while (reader)], on the text of the bytes read. *)
Definition on_read (assistantContent chunk : string) : string :=
  fold_left on_line (split_lines chunk) assistantContent.

(** The content of the assistant message when the stream is done. *)
Definition read_all (reads : list string) : string :=
  fold_left on_read reads EmptyString.

End Reader.

(** What a text adds to the content shown. *)
Definition shown (text : string) : string :=
  if looks_like_traceId text then EmptyString else text.

(** The read ends where a line ends. *)
Fixpoint whole_lines (chunk : string) : bool :=
  match chunk with
  | EmptyString => true
  | String c EmptyString => Ascii.eqb c JSON.newline
  | String _ rest => whole_lines rest
  end.

(** The text of a list of reads or frames, end to end. *)
Definition joined (parts : list string) : string :=
  fold_right String.append EmptyString parts.

(** A parser that reads the string literals of JSON and rejects every
    other text: one instance of the parser above. *)
Definition parse_strings (text : string) : option Json :=
  JString <$> JSON.parse_string text.

End ChatPage.

(** * Properties *)

(** ** Truthiness *)

Lemma truthy_nonempty (s : string) : Js.truthy s = true <-> s <> "".
Proof. destruct s; simpl; split; intros; congruence. Qed.

Lemma or_str_truthy (v : option string) (d : string) :
  d <> "" -> Js.or_str v d <> "".
Proof.
  intros Hd. unfold Js.or_str. destruct v as [s|]; [|exact Hd].
  destruct (Js.truthy s) eqn:E; [|exact Hd]. now apply truthy_nonempty.
Qed.

Lemma or_str_present (s d : string) : s <> "" -> Js.or_str (Some s) d = s.
Proof. intros H. apply truthy_nonempty in H. simpl. now rewrite H. Qed.

(** ** Tool adapters *)

Section Tools.

Variable w : World.
Variable context : ToolInput.
Variable rc : option (gmap string string).

Lemma mapM_fetch_email (token : string) (l : list Gmail.MessageRef) (w0 : World) :
  exists w1,
    mapM (GoogleGmail.fetch_email token) l w0
    = (Returns (map (GoogleGmail.email_for (upstream w0) token) l), w1)
    /\ upstream w1 = upstream w0.
Proof.
  revert w0. induction l as [|msg l IH]; intros w0.
  - exists w0. split; reflexivity.
  - cbn [mapM map].
    set (wa := with_log w0 (log w0 ++
      [EvFetch (GmailMessagesGet (Gmail.id msg) "metadata" ["Subject"; "From"; "Date"] token)])).
    destruct (IH wa) as (w1 & Hrun & Hup).
    exists w1. split; [|exact Hup].
    unfold bind at 1. unfold GoogleGmail.fetch_email at 1.
    unfold bind at 1. unfold fetch_gmail_detail, bind, emit, ask. fold wa.
    change (upstream wa) with (upstream w0) in *.
    unfold GoogleGmail.email_for at 1.
    destruct (gmail_messages_get (upstream w0) (Gmail.id msg) token);
      unfold ret at 1; rewrite Hrun; reflexivity.
Qed.

Lemma gmail_execute_ok (token : string) (listData : Gmail.ListData) :
  get_access_token rc = Some token -> token <> "" ->
  gmail_messages_list (upstream w) (default 10 (maxResults context))
    (GoogleGmail.search_query context) token = HttpOk listData ->
  fst (GoogleGmail.execute context rc w)
  = Returns (map (GoogleGmail.email_for (upstream w) token)
               (Js.slice0 (default 10 (maxResults context))
                  (default [] (Gmail.messages listData)))).
Proof.
  intros Htok Hne Hlist. unfold GoogleGmail.execute. rewrite Htok.
  apply truthy_nonempty in Hne. rewrite Hne.
  unfold bind at 1. unfold fetch_gmail_list, bind, emit, ask.
  cbn [upstream with_log]. rewrite Hlist.
  match goal with |- context [mapM ?f ?l ?w0] =>
    destruct (mapM_fetch_email token l w0) as (w1 & -> & _) end.
  reflexivity.
Qed.

Lemma contacts_execute_ok (token : string) (data : People.Data) :
  get_access_token rc = Some token -> token <> "" ->
  people_connections (upstream w) "names,emailAddresses,phoneNumbers"
    (default 10 (maxResults context)) token = HttpOk data ->
  fst (GoogleContacts.execute context rc w)
  = Returns (map GoogleContacts.to_contact (default [] (People.connections data))).
Proof.
  intros Htok Hne Hdata. unfold GoogleContacts.execute. rewrite Htok.
  apply truthy_nonempty in Hne. rewrite Hne.
  unfold bind at 1. unfold fetch_people, bind, emit, ask.
  cbn [upstream with_log]. rewrite Hdata. reflexivity.
Qed.

End Tools.

Lemma slice0_length {A : Type} (n : Z) (l : list A) :
  (length (Js.slice0 n l) <= length l)%nat
  /\ (0 <= n -> length (Js.slice0 n l) = Nat.min (Z.to_nat n) (length l))
  /\ (Z.of_nat (length l) <= n -> Js.slice0 n l = l).
Proof.
  unfold Js.slice0. destruct (n <? 0) eqn:E.
  - apply Z.ltb_lt in E. rewrite length_take. repeat split; lia.
  - apply Z.ltb_ge in E. rewrite length_take. repeat split; try lia.
    intros H. apply take_ge. lia.
Qed.

Lemma header_value_missing (key : string) (hs : list Gmail.Header) :
  Forall (fun h => Gmail.name h <> key) hs -> GoogleGmail.header_value key hs = None.
Proof.
  unfold GoogleGmail.header_value. induction 1 as [|h hs Hh _ IH]; [reflexivity|].
  cbn [Js.find]. destruct (String.eqb_spec (Gmail.name h) key); [contradiction|exact IH].
Qed.

Lemma to_contact_shape (p : People.Person) : Shape.contact p (GoogleContacts.to_contact p).
Proof.
  unfold Shape.contact, GoogleContacts.to_contact; cbn.
  repeat split.
  - apply or_str_truthy. discriminate.
  - intros [-> | ->]; reflexivity.
  - intros n rest ->. cbn. destruct (People.displayName n) as [[|a s]|]; reflexivity.
  - intros [-> | ->]; reflexivity.
  - intros f rest ->. reflexivity.
  - intros [-> | ->]; reflexivity.
  - intros f rest ->. reflexivity.
Qed.

Lemma email_for_shape (up : Upstream) (token : string) (msg : Gmail.MessageRef) :
  Shape.email up token msg (GoogleGmail.email_for up token msg).
Proof.
  unfold Shape.email, GoogleGmail.email_for.
  destruct (gmail_messages_get up (Gmail.id msg) token) as [detail|status text].
  - split; [reflexivity|].
    split; [cbn; apply or_str_truthy; discriminate|].
    split; [cbn; apply or_str_truthy; discriminate|].
    intros d [= <-]. unfold Shape.no_header. cbn.
    split; [|split; [|split]]; intros Hmiss.
    + now rewrite (header_value_missing _ _ Hmiss).
    + now rewrite (header_value_missing _ _ Hmiss).
    + now rewrite (header_value_missing _ _ Hmiss).
    + now rewrite Hmiss.
  - split; [reflexivity|].
    split; [cbn; discriminate|].
    split; [cbn; discriminate|].
    intros d [=].
Qed.

Lemma email_for_degraded (up : Upstream) (token : string) (msg : Gmail.MessageRef) :
  Shape.degraded up token msg (GoogleGmail.email_for up token msg).
Proof.
  unfold Shape.degraded, GoogleGmail.email_for. split.
  - destruct (gmail_messages_get up (Gmail.id msg) token); reflexivity.
  - intros status text ->. reflexivity.
Qed.

Lemma Forall2_map_self {A B : Type} (R : A -> B -> Prop) (f : A -> B) (l : list A) :
  (forall x, R x (f x)) -> Forall2 R l (map f l).
Proof. intros H. induction l; cbn; constructor; auto. Qed.

(** C3, as amended.  A tool adapter called without a resolved credential
    (no runtime context, no access token in it, or an empty one) throws
    the error "Google access token not available" and leaves the world as
    it found it: no request has been sent. *)
Theorem credential_gating (w : World) (context : ToolInput)
    (rc : option (gmap string string)) :
  Js.truthy_opt (get_access_token rc) = false ->
  GoogleContacts.execute context rc w = (Throws "Google access token not available", w)
  /\ GoogleGmail.execute context rc w = (Throws "Google access token not available", w)
  /\ log (snd (GoogleContacts.execute context rc w)) = log w
  /\ log (snd (GoogleGmail.execute context rc w)) = log w.
Proof.
  intros H. unfold GoogleContacts.execute, GoogleGmail.execute.
  destruct (get_access_token rc) as [token|]; cbn in H.
  - rewrite H. repeat split; reflexivity.
  - repeat split; reflexivity.
Qed.

Lemma credential_gating_witness :
  GoogleContacts.execute Sample.defaults Sample.no_token Sample.world
  = (Throws "Google access token not available", Sample.world)
  /\ GoogleGmail.execute Sample.defaults Sample.no_token Sample.world
     = (Throws "Google access token not available", Sample.world)
  /\ log (snd (GoogleContacts.execute Sample.defaults Sample.no_token Sample.world))
     = log Sample.world
  /\ log (snd (GoogleGmail.execute Sample.defaults Sample.no_token Sample.world))
     = log Sample.world.
Proof.
  apply (credential_gating Sample.world Sample.defaults Sample.no_token).
  reflexivity.
Defined.

(** C3 as stated fails: the message of the error is not
    "access token not available". *)
Lemma credential_message_counterexample :
  fst (GoogleContacts.execute Sample.defaults None Sample.world)
  <> Throws "access token not available"
  /\ fst (GoogleGmail.execute Sample.defaults None Sample.world)
     <> Throws "access token not available".
Proof. split; cbn; discriminate. Qed.

(** C4, as amended.  With a resolved credential and a well-formed answer
    of the service, the contacts tool returns one contact per listed
    person, and the mail tool one entry per message among the first
    [maxResults] listed (as many as listed when the service lists at most
    [maxResults]); every contact and every entry has the fixed shape: a
    missing name, subject or sender becomes "Unknown", "No Subject",
    "Unknown", a missing address or number is omitted. *)
Theorem structured_output (w : World) (context : ToolInput)
    (rc : option (gmap string string)) (token : string) :
  get_access_token rc = Some token -> token <> "" ->
  (forall data,
      people_connections (upstream w) "names,emailAddresses,phoneNumbers"
        (default 10 (maxResults context)) token = HttpOk data ->
      exists contacts,
        fst (GoogleContacts.execute context rc w) = Returns contacts
        /\ length contacts = length (default [] (People.connections data))
        /\ Forall2 Shape.contact (default [] (People.connections data)) contacts)
  /\ (forall listData,
      gmail_messages_list (upstream w) (default 10 (maxResults context))
        (GoogleGmail.search_query context) token = HttpOk listData ->
      let n := default 10 (maxResults context) in
      let messages := default [] (Gmail.messages listData) in
      exists emails,
        fst (GoogleGmail.execute context rc w) = Returns emails
        /\ length emails = length (Js.slice0 n messages)
        /\ (0 <= n -> length emails = Nat.min (Z.to_nat n) (length messages))
        /\ (Z.of_nat (length messages) <= n -> length emails = length messages)
        /\ Forall2 (Shape.email (upstream w) token) (Js.slice0 n messages) emails).
Proof.
  intros Htok Hne. split.
  - intros data Hdata. eexists. split.
    + exact (contacts_execute_ok w context rc token data Htok Hne Hdata).
    + split; [apply length_map|].
      apply Forall2_map_self, to_contact_shape.
  - intros listData Hlist n messages. eexists. split.
    + exact (gmail_execute_ok w context rc token listData Htok Hne Hlist).
    + rewrite length_map. fold n messages.
      destruct (slice0_length n messages) as (_ & Hmin & Hall).
      repeat split.
      * exact Hmin.
      * intros H. now rewrite (Hall H).
      * apply Forall2_map_self, email_for_shape.
Qed.

Lemma structured_output_witness :
  (exists contacts,
      fst (GoogleContacts.execute Sample.defaults Sample.with_token Sample.world)
      = Returns contacts
      /\ length contacts = length (default [] (People.connections Sample.people))
      /\ Forall2 Shape.contact (default [] (People.connections Sample.people)) contacts)
  /\ (let n := default 10 (maxResults Sample.defaults) in
      let messages := default [] (Gmail.messages Sample.listed) in
      exists emails,
        fst (GoogleGmail.execute Sample.defaults Sample.with_token Sample.world)
        = Returns emails
        /\ length emails = length (Js.slice0 n messages)
        /\ (0 <= n -> length emails = Nat.min (Z.to_nat n) (length messages))
        /\ (Z.of_nat (length messages) <= n -> length emails = length messages)
        /\ Forall2 (Shape.email (upstream Sample.world) "token-a")
             (Js.slice0 n messages) emails).
Proof.
  assert (Hne : "token-a" <> "") by discriminate.
  destruct (structured_output Sample.world Sample.defaults Sample.with_token "token-a"
              eq_refl Hne) as [Hc Hg].
  split.
  - exact (Hc Sample.people eq_refl).
  - exact (Hg Sample.listed eq_refl).
Defined.

(** C4 as stated fails for the mail tool: asked for one result while the
    service lists two messages, it returns one entry. *)
Lemma structured_output_counterexample :
  gmail_messages_list (upstream Sample.world) 1 None "token-a" = HttpOk Sample.listed
  /\ length (default [] (Gmail.messages Sample.listed)) = 2%nat
  /\ exists emails,
       fst (GoogleGmail.execute Sample.one_result Sample.with_token Sample.world)
       = Returns emails
       /\ length emails = 1%nat
       /\ length emails <> length (default [] (Gmail.messages Sample.listed)).
Proof.
  split; [reflexivity|]. split; [reflexivity|].
  eexists. split; [vm_compute; reflexivity|].
  split; [reflexivity|]. cbn. discriminate.
Qed.

(** C7, as amended.  When the list request succeeds, the mail tool
    returns normally whatever the detail requests answer: the output has
    one entry per message among the first [maxResults] listed, in order
    and with the identity of its message, and an entry whose detail
    request is answered with a failure status is the placeholder (subject
    "Error fetching email", sender "Unknown", empty date and snippet). *)
Theorem item_failure_degrades (w : World) (context : ToolInput)
    (rc : option (gmap string string)) (token : string) (listData : Gmail.ListData) :
  get_access_token rc = Some token -> token <> "" ->
  gmail_messages_list (upstream w) (default 10 (maxResults context))
    (GoogleGmail.search_query context) token = HttpOk listData ->
  let n := default 10 (maxResults context) in
  let messages := default [] (Gmail.messages listData) in
  exists emails,
    fst (GoogleGmail.execute context rc w) = Returns emails
    /\ Forall2 (Shape.degraded (upstream w) token) (Js.slice0 n messages) emails
    /\ (Z.of_nat (length messages) <= n ->
        Forall2 (Shape.degraded (upstream w) token) messages emails).
Proof.
  intros Htok Hne Hlist n messages. eexists. split.
  - exact (gmail_execute_ok w context rc token listData Htok Hne Hlist).
  - fold n messages. split.
    + apply Forall2_map_self, email_for_degraded.
    + intros H. destruct (slice0_length n messages) as (_ & _ & Hall).
      rewrite (Hall H). apply Forall2_map_self, email_for_degraded.
Qed.

Lemma item_failure_degrades_witness :
  let n := default 10 (maxResults Sample.defaults) in
  let messages := default [] (Gmail.messages Sample.listed) in
  exists emails,
    fst (GoogleGmail.execute Sample.defaults Sample.with_token Sample.world)
    = Returns emails
    /\ Forall2 (Shape.degraded (upstream Sample.world) "token-a")
         (Js.slice0 n messages) emails
    /\ (Z.of_nat (length messages) <= n ->
        Forall2 (Shape.degraded (upstream Sample.world) "token-a") messages emails).
Proof.
  apply (item_failure_degrades Sample.world Sample.defaults Sample.with_token
           "token-a" Sample.listed).
  - reflexivity.
  - discriminate.
  - reflexivity.
Defined.

(** C7 as stated fails: asked for one result while the service lists two
    messages, the first of which cannot be read, the tool returns the
    placeholder of the first and no entry for the second. *)
Lemma item_failure_counterexample :
  gmail_messages_list (upstream Sample.world) 1 None "token-a" = HttpOk Sample.listed
  /\ Gmail.messages Sample.listed = Some [Sample.m1; Sample.m2]
  /\ gmail_messages_get (upstream Sample.world) "msg1" "token-a" = HttpFail 404 "Not Found"
  /\ fst (GoogleGmail.execute Sample.one_result Sample.with_token Sample.world)
     = Returns [GoogleGmail.placeholder Sample.m1]
  /\ ~ (exists emails,
         fst (GoogleGmail.execute Sample.one_result Sample.with_token Sample.world)
         = Returns emails
         /\ length emails = length [Sample.m1; Sample.m2]).
Proof.
  assert (E : fst (GoogleGmail.execute Sample.one_result Sample.with_token Sample.world)
              = Returns [GoogleGmail.placeholder Sample.m1]) by (vm_compute; reflexivity).
  repeat split; try reflexivity; try exact E.
  intros (emails & He & Hlen). rewrite E in He. injection He as <-.
  cbn in Hlen. discriminate.
Qed.

(** ** JSON text of a chunk *)

Lemma one_line_app (s t : string) :
  Shape.one_line (s +:+ t) = Shape.one_line s && Shape.one_line t.
Proof.
  induction s as [|c s IH]; [reflexivity|].
  change (String c s +:+ t) with (String c (s +:+ t)).
  cbn [Shape.one_line]. rewrite IH. now rewrite andb_assoc.
Qed.

Lemma quote_char_one_line (c : ascii) : Shape.one_line (JSON.quote_char c) = true.
Proof. destruct c as [[] [] [] [] [] [] [] []]; reflexivity. Qed.

Lemma quote_chars_one_line (s : string) : Shape.one_line (JSON.quote_chars s) = true.
Proof.
  induction s as [|c s IH]; [reflexivity|].
  cbn [JSON.quote_chars]. now rewrite one_line_app, quote_char_one_line, IH.
Qed.

Lemma stringify_one_line (s : string) : Shape.one_line (JSON.stringify s) = true.
Proof.
  unfold JSON.stringify. cbn [Shape.one_line].
  rewrite one_line_app, quote_chars_one_line. reflexivity.
Qed.

Lemma string_app_assoc (s t u : string) : (s +:+ t) +:+ u = s +:+ (t +:+ u).
Proof.
  induction s as [|c s IH]; [reflexivity|].
  change (String c ((s +:+ t) +:+ u) = String c (s +:+ (t +:+ u))).
  now rewrite IH.
Qed.

Lemma unquote_quote_char (c : ascii) (rest : string) :
  JSON.unquote_chars (JSON.quote_char c +:+ rest) = String c <$> JSON.unquote_chars rest.
Proof. destruct c as [[] [] [] [] [] [] [] []]; reflexivity. Qed.

Lemma unquote_quote_chars (s : string) :
  JSON.unquote_chars (JSON.quote_chars s +:+ String JSON.dquote "") = Some s.
Proof.
  induction s as [|c s IH]; [reflexivity|].
  cbn [JSON.quote_chars]. rewrite string_app_assoc.
  rewrite unquote_quote_char, IH. reflexivity.
Qed.

Lemma parse_stringify (s : string) : JSON.parse_string (JSON.stringify s) = Some s.
Proof. unfold JSON.stringify. cbn. apply unquote_quote_chars. Qed.

Lemma data_frame_text (chunk : string) : Shape.text_frame chunk (data_frame chunk).
Proof.
  exists (JSON.stringify chunk). split; [reflexivity|].
  split; [apply stringify_one_line | apply parse_stringify].
Qed.

(** ** POST /chat/stream *)


Section Stream.

Variable w : World.
Variable c : Request.
Variable session : AuthSession.
Variable fields : list (string * Json).
Variable msg : string.

Hypothesis Hbody : req_json c = Some (JObject fields).
Hypothesis Hmsg : get_field "message" fields = Some (JString msg).
Hypothesis Hne : msg <> "".

(** Runs a stream handler on the body above, up to the answer of the
    agent. *)
Ltac run_to_agent :=
  unfold c_req_json; rewrite Hbody;
  cbn [bind ret destructure body_property];
  rewrite Hmsg;
  cbn [js_truthy js_is_string js_string_of];
  rewrite (proj2 (truthy_nonempty msg) Hne);
  cbn [negb orb];
  unfold getGoogleAccount, agent_stream, bind, emit, ask;
  cbn [chat_agent with_log account_table log].

Lemma post_stream_runs :
  let opts := turn_options None w fields session in
  ChatRoutes.post_stream c session w
  = match chat_agent w msg opts with
    | Some stream =>
      (Returns (StreamResponse 200 sse_headers (fst (sse_start stream))
                  (snd (sse_start stream))),
       saved_turn w (user_id (user session)) msg opts)
    | None =>
      (Throws "agent.stream rejected", after_turn w (user_id (user session)) msg opts)
    end.
Proof.
  intros opts. unfold ChatRoutes.post_stream. run_to_agent.
  fold (turn_options None w fields session). fold opts.
  destruct (chat_agent w msg opts) as [stream|]; [|reflexivity].
  destruct (sse_start stream); reflexivity.
Qed.

Lemma post_stream_aisdk_runs :
  let opts := turn_options (Some "aisdk") w fields session in
  ChatRoutesAiSdk.post_stream c session w
  = match chat_agent w msg opts with
    | Some stream =>
      (Returns (UiMessageStreamResponse stream),
       saved_turn w (user_id (user session)) msg opts)
    | None =>
      (Throws "agent.stream rejected", after_turn w (user_id (user session)) msg opts)
    end.
Proof.
  intros opts. unfold ChatRoutesAiSdk.post_stream. run_to_agent.
  fold (turn_options (Some "aisdk") w fields session). fold opts.
  destruct (chat_agent w msg opts) as [stream|]; reflexivity.
Qed.

End Stream.

Lemma route_authenticated (handler : Request -> AuthSession -> Eff Response)
    (c : Request) (session : AuthSession) (w : World) :
  req_session c = Some session ->
  serve (requireAuth c (handler c)) w = serve (handler c session) w.
Proof. intros H. unfold requireAuth. now rewrite H. Qed.




(** The same answer for a body without a message, with a number for
    message, and for a body that is an array; a request without a
    session is answered 401 before the handler runs. *)
Example invalid_bodies :
  let answer body :=
    fst (ChatRoutes.route ChatRoutes.post_stream
           (Sample.request Sample.alice (Some body) "") Sample.world) in
  answer (JObject []) = JsonResponse (ErrorBody "Message is required") 400
  /\ answer (JObject [("message", JNumber 7)])
     = JsonResponse (ErrorBody "Message is required") 400
  /\ answer (JArray []) = JsonResponse (ErrorBody "Message is required") 400
  /\ fst (ChatRoutes.route ChatRoutes.post_stream
            {| req_session := None; req_json := Some (JObject []);
               req_query := ∅; req_param := "" |} Sample.world)
     = JsonResponse (ErrorBody "Unauthorized") 401.
Proof. repeat split; reflexivity. Qed.

Lemma data_frame_not_done (chunk : string) : data_frame chunk <> done_frame.
Proof. unfold data_frame, done_frame, JSON.stringify. cbv [String.append]. discriminate. Qed.

Lemma traceId_frame_not_done (t : string) : traceId_frame t <> done_frame.
Proof. unfold traceId_frame, done_frame. cbv [String.append]. discriminate. Qed.

Lemma traceId_frame_not_data (t chunk : string) : traceId_frame t <> data_frame chunk.
Proof. unfold traceId_frame, data_frame. cbv [String.append]. discriminate. Qed.

(** C1, as amended.  For an authenticated POST /chat/stream with a
    non-empty string message, when [agent.stream] resolves and its text
    stream ends normally, the server-sent-events handler answers with
    status 200 and content type text/event-stream, and the body is, in
    this order: the [event: traceId] frame, once, exactly when the stream
    carries a non-empty trace identity; one [data:] frame per chunk, in
    the order of the chunks, each holding the JSON text of its chunk on
    one line; and the frame [data: [DONE]], which is none of the
    others. *)
Theorem stream_frames (w : World) (c : Request) (session : AuthSession)
    (fields : list (string * Json)) (msg : string) (stream : AgentStream) :
  req_session c = Some session ->
  req_json c = Some (JObject fields) ->
  get_field "message" fields = Some (JString msg) ->
  msg <> "" ->
  chat_agent w msg (turn_options None w fields session) = Some stream ->
  textStream_fails stream = false ->
  exists chunks,
    fst (ChatRoutes.route ChatRoutes.post_stream c w)
    = StreamResponse 200 sse_headers chunks Closed
    /\ header_of "Content-Type" sse_headers = Some "text/event-stream"
    /\ chunks
       = match stream_traceId stream with
         | Some (String a t) => [traceId_frame (String a t)]
         | _ => []
         end ++ map data_frame (textStream stream) ++ [done_frame]
    /\ Forall2 Shape.text_frame (textStream stream) (map data_frame (textStream stream))
    /\ (forall chunk, data_frame chunk <> done_frame)
    /\ (forall t, traceId_frame t <> done_frame)
    /\ (forall t chunk, traceId_frame t <> data_frame chunk).
Proof.
  intros Hauth Hbody Hmsg Hne Hagent Hends.
  unfold ChatRoutes.route. rewrite (route_authenticated _ c session w Hauth).
  unfold serve. rewrite (post_stream_runs w c session fields msg Hbody Hmsg Hne).
  cbv zeta. rewrite Hagent. unfold sse_start. rewrite Hends. cbn [fst snd].
  eexists. split; [reflexivity|]. split; [reflexivity|].
  split.
  { destruct (stream_traceId stream) as [[|a t]|]; reflexivity. }
  split; [apply Forall2_map_self, data_frame_text|].
  split; [exact data_frame_not_done|].
  split; [exact traceId_frame_not_done | exact traceId_frame_not_data].
Qed.

Lemma stream_frames_witness :
  exists chunks,
    fst (ChatRoutes.route ChatRoutes.post_stream
           (Sample.request Sample.alice (Some Sample.hello) "") Sample.world)
    = StreamResponse 200 sse_headers chunks Closed
    /\ header_of "Content-Type" sse_headers = Some "text/event-stream"
    /\ chunks
       = match stream_traceId Sample.untraced with
         | Some (String a t) => [traceId_frame (String a t)]
         | _ => []
         end ++ map data_frame (textStream Sample.untraced) ++ [done_frame]
    /\ Forall2 Shape.text_frame (textStream Sample.untraced)
         (map data_frame (textStream Sample.untraced))
    /\ (forall chunk, data_frame chunk <> done_frame)
    /\ (forall t, traceId_frame t <> done_frame)
    /\ (forall t chunk, traceId_frame t <> data_frame chunk).
Proof.
  apply (stream_frames Sample.world (Sample.request Sample.alice (Some Sample.hello) "")
           Sample.alice [("message", JString "Hello")] "Hello" Sample.untraced).
  - reflexivity.
  - reflexivity.
  - reflexivity.
  - discriminate.
  - reflexivity.
  - reflexivity.
Defined.

(** C1 as stated fails: when the stream of the agent carries no trace
    identity, the body holds the text frames and the terminal frame, and
    no [event: traceId] frame. *)
Lemma stream_frames_counterexample :
  let c := Sample.request Sample.alice (Some Sample.hello) "" in
  chat_agent Sample.world "Hello" (turn_options None Sample.world
                                     [("message", JString "Hello")] Sample.alice)
  = Some {| stream_traceId := None; textStream := ["Hi"]; textStream_fails := false |}
  /\ fst (ChatRoutes.route ChatRoutes.post_stream c Sample.world)
     = StreamResponse 200 sse_headers [data_frame "Hi"; done_frame] Closed
  /\ (forall t, ~ In (traceId_frame t) [data_frame "Hi"; done_frame]).
Proof.
  split; [reflexivity|]. split; [vm_compute; reflexivity|].
  intros t [H | [H | []]].
  - symmetry in H. exact (traceId_frame_not_data _ _ H).
  - symmetry in H. exact (traceId_frame_not_done _ H).
Qed.

Lemma resolve_thread_default (threadId : JsValue) (session : AuthSession) :
  js_truthy threadId = false ->
  resolve_thread threadId session = JString ("thread-" +:+ user_id (user session)).
Proof.
  intros H. unfold resolve_thread, default_thread.
  destruct threadId; [now rewrite H | reflexivity].
Qed.

(** C2, as amended.  For an authenticated POST /chat/stream with a
    non-empty string message and no thread identity (none, or a falsy
    one), the handler itself creates no thread and derives no title: its
    only calls are the lookup of the Google account of the caller and
    then [agent.stream], to which it hands the default thread of the
    caller, ["thread-" + user id], with the caller as resource.  The
    memory afterwards is what [agent.stream] saved, starting from the
    memory as the request found it, and is the memory as found when
    [agent.stream] rejects. *)
Theorem default_thread_resolution (w : World) (c : Request) (session : AuthSession)
    (fields : list (string * Json)) (msg : string) :
  req_session c = Some session ->
  req_json c = Some (JObject fields) ->
  get_field "message" fields = Some (JString msg) ->
  msg <> "" ->
  js_truthy (get_field "threadId" fields) = false ->
  let uid := user_id (user session) in
  let opts fmt :=
    {| format := fmt;
       memory_thread := JString ("thread-" +:+ uid);
       memory_resource := uid;
       runtimeContext := turn_context (google_account (account_table w) uid) session |} in
  let saved fmt :=
    match chat_agent w msg (opts fmt) with
    | Some _ => agent_saves w msg (opts fmt) <$> agent_memory w
    | None => agent_memory w
    end in
  log (snd (ChatRoutes.route ChatRoutes.post_stream c w))
  = log w ++ [EvGetGoogleAccount uid; EvAgentStream msg (opts None)]
  /\ log (snd (ChatRoutesAiSdk.route ChatRoutesAiSdk.post_stream c w))
     = log w ++ [EvGetGoogleAccount uid; EvAgentStream msg (opts (Some "aisdk"))]
  /\ agent_memory (snd (ChatRoutes.route ChatRoutes.post_stream c w)) = saved None
  /\ agent_memory (snd (ChatRoutesAiSdk.route ChatRoutesAiSdk.post_stream c w))
     = saved (Some "aisdk").
Proof.
  intros Hauth Hbody Hmsg Hne Hthread uid opts saved.
  unfold ChatRoutes.route, ChatRoutesAiSdk.route.
  rewrite !(route_authenticated _ c session w Hauth).
  unfold serve.
  rewrite (post_stream_runs w c session fields msg Hbody Hmsg Hne).
  rewrite (post_stream_aisdk_runs w c session fields msg Hbody Hmsg Hne).
  cbv zeta. unfold turn_options, stream_options.
  rewrite (resolve_thread_default _ session Hthread). fold uid.
  change {| format := None; memory_thread := JString ("thread-" +:+ uid);
            memory_resource := uid;
            runtimeContext := turn_context (google_account (account_table w) uid) session |}
    with (opts None).
  change {| format := Some "aisdk"; memory_thread := JString ("thread-" +:+ uid);
            memory_resource := uid;
            runtimeContext := turn_context (google_account (account_table w) uid) session |}
    with (opts (Some "aisdk")).
  unfold saved.
  destruct (chat_agent w msg (opts None)), (chat_agent w msg (opts (Some "aisdk")));
    cbn [snd saved_turn after_turn log with_log with_memory agent_memory];
    rewrite <- !app_assoc; repeat split; reflexivity.
Qed.

Lemma default_thread_resolution_witness :
  let c := Sample.request Sample.bob (Some Sample.hello) "" in
  let opts fmt :=
    {| format := fmt;
       memory_thread := JString ("thread-" +:+ "bob");
       memory_resource := "bob";
       runtimeContext :=
         turn_context (google_account (account_table Sample.world) "bob") Sample.bob |} in
  let saved fmt :=
    match chat_agent Sample.world "Hello" (opts fmt) with
    | Some _ => agent_saves Sample.world "Hello" (opts fmt) <$> agent_memory Sample.world
    | None => agent_memory Sample.world
    end in
  log (snd (ChatRoutes.route ChatRoutes.post_stream c Sample.world))
  = log Sample.world ++ [EvGetGoogleAccount "bob"; EvAgentStream "Hello" (opts None)]
  /\ log (snd (ChatRoutesAiSdk.route ChatRoutesAiSdk.post_stream c Sample.world))
     = log Sample.world
       ++ [EvGetGoogleAccount "bob"; EvAgentStream "Hello" (opts (Some "aisdk"))]
  /\ agent_memory (snd (ChatRoutes.route ChatRoutes.post_stream c Sample.world))
     = saved None
  /\ agent_memory (snd (ChatRoutesAiSdk.route ChatRoutesAiSdk.post_stream c Sample.world))
     = saved (Some "aisdk").
Proof.
  apply (default_thread_resolution Sample.world
           (Sample.request Sample.bob (Some Sample.hello) "") Sample.bob
           [("message", JString "Hello")] "Hello").
  - reflexivity.
  - reflexivity.
  - reflexivity.
  - discriminate.
  - reflexivity.
Defined.

(** C2 as stated fails.  A user who has no thread sends two messages,
    each without a thread identity.  The calls that the handler makes
    are, for each request, the lookup of the account and then
    [agent.stream]: no thread is created and no title is derived before
    the model is invoked, and both turns are handed the same thread
    identity, "thread-bob", not a new thread each. *)
Lemma thread_creation_counterexample :
  let first := Sample.request Sample.bob (Some Sample.hello) "" in
  let second :=
    Sample.request Sample.bob (Some (JObject [("message", JString "Again")])) "" in
  let w1 := snd (ChatRoutes.route ChatRoutes.post_stream first Sample.world) in
  let w2 := snd (ChatRoutes.route ChatRoutes.post_stream second w1) in
  exists opts,
    log w2 = [ EvGetGoogleAccount "bob"; EvAgentStream "Hello" opts;
               EvGetGoogleAccount "bob"; EvAgentStream "Again" opts ]
    /\ memory_thread opts = JString "thread-bob"
    /\ memory_resource opts = "bob".
Proof.
  eexists. split; [vm_compute; reflexivity|]. split; reflexivity.
Qed.

(** ** Sorting *)

Section StableSort.

Context {A : Type}.
Variable before : A -> A -> bool.

Hypothesis before_total : forall a b, before a b = true \/ before b a = true.
Hypothesis before_trans :
  forall a b c, before a b = true -> before b c = true -> before a c = true.

Let R (a b : A) : Prop := before a b = true.

Lemma insert_sorted_perm (x : A) (l : list A) :
  Permutation (insert_sorted before x l) (x :: l).
Proof.
  induction l as [|y l IH]; cbn; [reflexivity|].
  destruct (before x y); [reflexivity|].
  rewrite IH. apply perm_swap.
Qed.

Lemma stable_sort_perm (l : list A) : Permutation (stable_sort before l) l.
Proof.
  induction l as [|x l IH]; cbn; [reflexivity|].
  rewrite insert_sorted_perm. now constructor.
Qed.

Lemma insert_sorted_sorted (x : A) (l : list A) :
  StronglySorted R l -> StronglySorted R (insert_sorted before x l).
Proof.
  induction 1 as [|y l Hsorted IH Hall]; cbn.
  - repeat constructor.
  - destruct (before x y) eqn:E.
    + constructor; [now constructor|].
      constructor; [exact E|].
      eapply Forall_impl; [exact Hall|].
      intros z Hz. exact (before_trans x y z E Hz).
    + constructor; [exact IH|].
      rewrite (insert_sorted_perm x l). constructor; [|exact Hall].
      destruct (before_total x y) as [H|H]; [congruence|exact H].
Qed.

Lemma stable_sort_sorted (l : list A) : StronglySorted R (stable_sort before l).
Proof.
  induction l as [|x l IH]; cbn; [constructor|].
  now apply insert_sorted_sorted.
Qed.

End StableSort.

Lemma StronglySorted_weaken {A : Type} (R1 R2 : A -> A -> Prop) (l : list A) :
  (forall a b, R1 a b -> R2 a b) -> StronglySorted R1 l -> StronglySorted R2 l.
Proof.
  intros H. induction 1 as [|x l _ IH Hall]; constructor; [exact IH|].
  eapply Forall_impl; [exact Hall|]. intros y. apply H.
Qed.

Lemma StronglySorted_lookup {A : Type} (R : A -> A -> Prop) (l : list A) :
  StronglySorted R l ->
  forall (i j : nat) (a b : A),
    l !! i = Some a -> l !! j = Some b -> (i < j)%nat -> R a b.
Proof.
  induction 1 as [|x l _ IH Hall]; intros i j a b Hi Hj Hij.
  - discriminate.
  - destruct j as [|j]; [lia|]. cbn in Hj. destruct i as [|i].
    + cbn in Hi. injection Hi as <-.
      rewrite Forall_forall in Hall. apply Hall.
      eapply list_elem_of_lookup_2. exact Hj.
    + cbn in Hi. apply (IH i j a b Hi Hj). lia.
Qed.

Lemma js_sort_by_key {A : Type} (key : A -> Z) (l : list A) :
  StronglySorted (fun a b => key a <= key b) (js_sort (fun a b => key a - key b) l)
  /\ Permutation (js_sort (fun a b => key a - key b) l) l.
Proof.
  unfold js_sort. split; [|apply stable_sort_perm].
  eapply StronglySorted_weaken;
    [|apply (stable_sort_sorted (fun a b => key a - key b <=? 0))].
  - intros a b H. apply Z.leb_le in H. lia.
  - intros a b. rewrite !Z.leb_le. lia.
  - intros a b c. rewrite !Z.leb_le. lia.
Qed.

Lemma order_by_asc_spec {A : Type} (key : A -> Z) (l : list A) :
  StronglySorted (fun a b => key a <= key b) (order_by_asc key l)
  /\ Permutation (order_by_asc key l) l.
Proof.
  unfold order_by_asc. split; [|apply stable_sort_perm].
  eapply StronglySorted_weaken;
    [|apply (stable_sort_sorted (fun a b => key a <=? key b))].
  - intros a b H. now apply Z.leb_le in H.
  - intros a b. rewrite !Z.leb_le. lia.
  - intros a b c. rewrite !Z.leb_le. lia.
Qed.

(** ** GET /chat/history *)

Lemma get_history_runs (w : World) (c : Request) (session : AuthSession) :
  fst (ChatRoutes.get_history c session w)
  = Returns (c_json (MessagesBody
      match agent_memory w with
      | Some m =>
        js_sort ChatRoutes.by_created
          (Mem.query m (Js.or_str (req_query c !! "threadId") (default_thread session)))
      | None => []
      end) 200).
Proof.
  unfold ChatRoutes.get_history, agent_getMemory, memory_query.
  cbn [bind ask ret emit].
  destruct (agent_memory w) as [m|] eqn:E; cbn [bind ask ret emit fst agent_memory with_log].
  - rewrite E. reflexivity.
  - reflexivity.
Qed.

(** C6.  An authenticated GET /chat/history answers with the messages
    that the memory returns for the thread, whatever their order in
    storage, sorted by creation time in ascending order (a message
    without a date counts as the epoch); without a [threadId] parameter
    the thread is the default thread of the caller,
    ["thread-" + user id]. *)
Theorem history_chronological (w : World) (c : Request) (session : AuthSession) :
  req_session c = Some session ->
  exists messages,
    fst (ChatRoutes.route ChatRoutes.get_history c w)
    = JsonResponse (MessagesBody messages) 200
    /\ StronglySorted
         (fun a b => ChatRoutes.created_time a <= ChatRoutes.created_time b) messages
    /\ (forall a b ta tb i j,
          messages !! i = Some a -> messages !! j = Some b -> (i < j)%nat ->
          createdAt a = Some ta -> createdAt b = Some tb -> ta <= tb)
    /\ (forall m tid,
          agent_memory w = Some m -> req_query c !! "threadId" = Some tid -> tid <> "" ->
          Permutation messages (Mem.query m tid))
    /\ (forall m,
          agent_memory w = Some m -> req_query c !! "threadId" = None ->
          Permutation messages (Mem.query m ("thread-" +:+ user_id (user session)))).
Proof.
  intros Hauth. unfold ChatRoutes.route.
  rewrite (route_authenticated _ c session w Hauth).
  unfold serve.
  pose proof (get_history_runs w c session) as Hrun.
  destruct (ChatRoutes.get_history c session w) as [[r|e] w'] eqn:E;
    cbn [fst] in Hrun; [|discriminate].
  injection Hrun as ->. cbn [fst c_json].
  eexists. split; [reflexivity|].
  assert (Hsorted : StronglySorted
            (fun a b => ChatRoutes.created_time a <= ChatRoutes.created_time b)
            match agent_memory w with
            | Some m =>
              js_sort ChatRoutes.by_created
                (Mem.query m (Js.or_str (req_query c !! "threadId") (default_thread session)))
            | None => []
            end).
  { destruct (agent_memory w); [|constructor].
    apply (js_sort_by_key ChatRoutes.created_time). }
  split; [exact Hsorted|]. split.
  - intros a b ta tb i j Ha Hb Hij Hta Htb.
    pose proof (StronglySorted_lookup _ _ Hsorted i j a b Ha Hb Hij) as Hle.
    unfold ChatRoutes.created_time in Hle. rewrite Hta, Htb in Hle.
    exact Hle.
  - split.
    + intros m tid -> -> Hne. rewrite (or_str_present tid _ Hne).
      apply (js_sort_by_key ChatRoutes.created_time).
    + intros m -> ->. apply (js_sort_by_key ChatRoutes.created_time).
Qed.

Lemma history_chronological_witness :
  exists messages,
    fst (ChatRoutes.route ChatRoutes.get_history (Sample.history_request Sample.alice)
           Sample.world)
    = JsonResponse (MessagesBody messages) 200
    /\ StronglySorted
         (fun a b => ChatRoutes.created_time a <= ChatRoutes.created_time b) messages
    /\ (forall a b ta tb i j,
          messages !! i = Some a -> messages !! j = Some b -> (i < j)%nat ->
          createdAt a = Some ta -> createdAt b = Some tb -> ta <= tb)
    /\ (forall m tid,
          agent_memory Sample.world = Some m ->
          req_query (Sample.history_request Sample.alice) !! "threadId" = Some tid ->
          tid <> "" ->
          Permutation messages (Mem.query m tid))
    /\ (forall m,
          agent_memory Sample.world = Some m ->
          req_query (Sample.history_request Sample.alice) !! "threadId" = None ->
          Permutation messages
            (Mem.query m ("thread-" +:+ user_id (user Sample.alice)))).
Proof.
  apply (history_chronological Sample.world (Sample.history_request Sample.alice)
           Sample.alice).
  reflexivity.
Defined.

(** The three messages of the sample thread, stored as third, first,
    second, come back as first, second, third. *)
Example history_of_sample_thread :
  fst (ChatRoutes.route ChatRoutes.get_history (Sample.history_request Sample.alice)
         Sample.world)
  = JsonResponse (MessagesBody
      [ Sample.message "a" RoleUser "first" (Some 1000);
        Sample.message "b" RoleAssistant "second" (Some 2000);
        Sample.message "c" RoleUser "third" (Some 3000) ]) 200.
Proof. vm_compute. reflexivity. Qed.

(** ** DELETE /chat/threads/:threadId *)

Lemma query_after_delete (m : Memory) (tid : string) :
  Mem.query (Mem.deleteMessages m (map message_id (Mem.query m tid))) tid = [].
Proof.
  unfold Mem.query, Mem.deleteMessages. cbn [stored_messages].
  set (ids := map message_id (List.filter _ (stored_messages m))).
  assert (Hids : forall x, In x (stored_messages m) ->
                           String.eqb (message_thread x) tid = true ->
                           existsb (String.eqb (message_id x)) ids = true).
  { intros x Hx Ht. apply existsb_exists. exists (message_id x).
    split; [|apply String.eqb_refl].
    apply in_map. apply filter_In. now split. }
  clearbody ids.
  induction (stored_messages m) as [|x l IH]; [reflexivity|].
  cbn [List.filter].
  destruct (existsb (String.eqb (message_id x)) ids) eqn:Ex; cbn [negb].
  - apply IH. intros y Hy. apply Hids. now right.
  - cbn [List.filter].
    destruct (String.eqb (message_thread x) tid) eqn:Et.
    + rewrite (Hids x (or_introl eq_refl) Et) in Ex. discriminate.
    + apply IH. intros y Hy. apply Hids. now right.
Qed.

Lemma query_nil_no_message (m : Memory) (tid : string) :
  Mem.query m tid = [] ->
  forall x, In x (stored_messages m) -> message_thread x <> tid.
Proof.
  unfold Mem.query. intros Hq x Hx Ht.
  assert (Hin : In x (List.filter (fun y => String.eqb (message_thread y) tid)
                        (stored_messages m))).
  { apply filter_In. split; [exact Hx|]. now apply String.eqb_eq. }
  rewrite Hq in Hin. exact Hin.
Qed.

(** C9.  An authenticated DELETE /chat/threads/:id, with the memory
    configured: when no thread has this identity, or the thread belongs
    to another user, the answer is 404 and the memory is left as it
    was; otherwise the answer is [{ success: true }], no message of the
    thread is left, and the threads, this one included, are as before. *)
Theorem delete_thread_messages (w : World) (c : Request) (session : AuthSession)
    (m : Memory) :
  req_session c = Some session ->
  agent_memory w = Some m ->
  let tid := req_param c in
  let uid := user_id (user session) in
  let result := ChatRoutes.route ChatRoutes.delete_thread c w in
  (Mem.getThreadById m tid = None
   \/ (exists t, Mem.getThreadById m tid = Some t /\ resourceId t <> uid) ->
   fst result = JsonResponse (ErrorBody "Thread not found") 404
   /\ agent_memory (snd result) = Some m)
  /\ (forall t, Mem.getThreadById m tid = Some t -> resourceId t = uid ->
      fst result = JsonResponse (SuccessBody true) 200
      /\ exists m',
           agent_memory (snd result) = Some m'
           /\ threads m' = threads m
           /\ Mem.getThreadById m' tid = Some t
           /\ Mem.query m' tid = []
           /\ (forall x, In x (stored_messages m') -> message_thread x <> tid)).
Proof.
  intros Hauth Hmem tid uid result. subst result.
  unfold ChatRoutes.route. rewrite (route_authenticated _ c session w Hauth).
  unfold serve, ChatRoutes.delete_thread, agent_getMemory, memory_getThreadById.
  cbn [bind ask ret emit]. rewrite Hmem.
  cbn [bind ask ret emit agent_memory with_log Js.prop]. rewrite Hmem.
  cbn [Js.prop]. fold tid uid. split.
  - intros [Hnone | (t & Hsome & Hown)].
    + rewrite Hnone. cbn. split; [reflexivity|exact Hmem].
    + rewrite Hsome. apply String.eqb_neq in Hown. rewrite Hown.
      cbn. split; [reflexivity|exact Hmem].
  - intros t Hsome Hown. rewrite Hsome.
    apply String.eqb_eq in Hown. rewrite Hown. cbn [negb].
    unfold memory_query, memory_deleteMessages.
    cbn [bind ask ret emit agent_memory with_log log]. rewrite Hmem.
    destruct (Mem.query m tid) as [|x xs] eqn:Hq.
    + cbn. split; [reflexivity|].
      exists m. repeat split; try assumption.
      now apply query_nil_no_message.
    + cbn [length Nat.ltb Nat.leb bind ret emit fst snd agent_memory with_log
             with_memory log]. rewrite Hmem. cbn [fmap option_fmap option_map].
      split; [reflexivity|].
      eexists. split; [reflexivity|].
      rewrite <- Hq. split; [reflexivity|]. split; [exact Hsome|].
      split; [apply query_after_delete|].
      apply query_nil_no_message, query_after_delete.
Qed.

Lemma delete_thread_messages_witness :
  let c := Sample.request Sample.alice None "t1" in
  let result := ChatRoutes.route ChatRoutes.delete_thread c Sample.world in
  (Mem.getThreadById Sample.store "t1" = None
   \/ (exists t, Mem.getThreadById Sample.store "t1" = Some t /\ resourceId t <> "alice") ->
   fst result = JsonResponse (ErrorBody "Thread not found") 404
   /\ agent_memory (snd result) = Some Sample.store)
  /\ (forall t, Mem.getThreadById Sample.store "t1" = Some t -> resourceId t = "alice" ->
      fst result = JsonResponse (SuccessBody true) 200
      /\ exists m',
           agent_memory (snd result) = Some m'
           /\ threads m' = threads Sample.store
           /\ Mem.getThreadById m' "t1" = Some t
           /\ Mem.query m' "t1" = []
           /\ (forall x, In x (stored_messages m') -> message_thread x <> "t1")).
Proof.
  apply (delete_thread_messages Sample.world (Sample.request Sample.alice None "t1")
           Sample.alice Sample.store).
  - reflexivity.
  - reflexivity.
Defined.

(** On the sample world: the owner empties her thread and the thread
    stays; another user is answered 404 and nothing changes. *)
Example delete_by_owner_and_by_stranger :
  let by_alice := ChatRoutes.route ChatRoutes.delete_thread
                    (Sample.request Sample.alice None "t1") Sample.world in
  let by_bob := ChatRoutes.route ChatRoutes.delete_thread
                  (Sample.request Sample.bob None "t1") Sample.world in
  fst by_alice = JsonResponse (SuccessBody true) 200
  /\ agent_memory (snd by_alice)
     = Some {| threads := [Sample.thread1]; stored_messages := [] |}
  /\ fst by_bob = JsonResponse (ErrorBody "Thread not found") 404
  /\ agent_memory (snd by_bob) = Some Sample.store.
Proof. repeat split; vm_compute; reflexivity. Qed.

(** ** GET /traces/:traceId *)

Lemma find_first {A : Type} (p : A -> bool) (l : list A) :
  match Js.find p l with
  | Some x =>
    exists before after,
      l = before ++ x :: after /\ p x = true /\ Forall (fun y => p y = false) before
  | None => Forall (fun y => p y = false) l
  end.
Proof.
  induction l as [|y l IH]; cbn; [constructor|].
  destruct (p y) eqn:E.
  - exists [], l. repeat split; [exact E|constructor].
  - destruct (Js.find p l) as [x|].
    + destruct IH as (before & after & -> & Hx & Hall).
      exists (y :: before), after. repeat split; [exact Hx|now constructor].
    + now constructor.
Qed.

Lemma no_parent_falsy (s : Span) :
  (TraceRoutes.no_parent s = true
   <-> parentSpanId s = None \/ parentSpanId s = Some "")
  /\ (TraceRoutes.no_parent s = false
      <-> ~ (parentSpanId s = None \/ parentSpanId s = Some "")).
Proof.
  unfold TraceRoutes.no_parent.
  destruct (parentSpanId s) as [[|a p]|]; cbn; split; split;
    try (intros _; auto; fail); try discriminate.
  - intros H. exfalso. apply H. now right.
  - intros [H|H]; discriminate.
  - intros _ [H|H]; discriminate.
  - intros H. exfalso. apply H. now left.
Qed.

Lemma select_trace_spans_spec (tid : string) (rows : list Span) :
  Permutation (select_trace_spans tid rows)
    (List.filter (fun s => String.eqb (traceId s) tid) rows)
  /\ StronglySorted (fun a b => startedAt a <= startedAt b) (select_trace_spans tid rows)
  /\ (forall s, In s (select_trace_spans tid rows) <-> In s rows /\ traceId s = tid).
Proof.
  unfold select_trace_spans.
  destruct (order_by_asc_spec startedAt
              (List.filter (fun s => String.eqb (traceId s) tid) rows)) as [Hs Hp].
  split; [exact Hp|]. split; [exact Hs|].
  intros s. rewrite <- !list_elem_of_In, Hp, list_elem_of_In, filter_In.
  rewrite String.eqb_eq, <- list_elem_of_In. reflexivity.
Qed.

Lemma get_trace_runs (w : World) (c : Request) (session : AuthSession) (rows : list Span) :
  ai_spans w = Some rows ->
  let tid := req_param c in
  let spans := select_trace_spans tid rows in
  fst (TraceRoutes.route TraceRoutes.get_trace c w)
  = match req_session c with
    | None => JsonResponse (ErrorBody "Unauthorized") 401
    | Some _ =>
      match spans with
      | [] => JsonResponse (ErrorBody "Trace not found") 404
      | _ :: _ =>
        match TraceRoutes.find_root spans with
        | Some rootSpan =>
          JsonResponse (TraceBody
            {| detail_traceId := tid;
               detail_spans := map TraceRoutes.to_view spans;
               detail_startTime := startedAt rootSpan;
               detail_endTime := Js.prop (last spans) endedAt;
               detail_metadata := metadata rootSpan |}) 200
        | None => JsonResponse (ErrorBody "Failed to fetch trace") 500
        end
      end
    end.
Proof.
  intros Hdb tid spans.
  unfold TraceRoutes.route, serve, requireAuth.
  destruct (req_session c) as [s|]; [|reflexivity].
  unfold TraceRoutes.get_trace, try_catch, db_any, bind, emit.
  cbn [ai_spans with_log]. rewrite Hdb.
  fold tid. fold spans.
  destruct spans as [|x xs] eqn:E; [reflexivity|].
  cbn [length Nat.eqb].
  destruct (TraceRoutes.find_root (x :: xs)); reflexivity.
Qed.

(** C8, as amended.  An authenticated GET /traces/:traceId, with the span
    store answering.  When no span carries the trace identity the answer
    is 404 "Trace not found".  Otherwise the answer is 200 and lists all
    the spans of the trace, each once per row, by start time in
    ascending order, every one with the columns of its row and marked as
    root exactly when its parent identity is null or empty.  The root
    span is the first span in that order whose parent identity is null
    or empty, or the first span when every span has a parent; the start
    time and the metadata of the answer are those of the root span, and
    its end time is the end time of the span that started last. *)
Theorem trace_detail (w : World) (c : Request) (session : AuthSession)
    (rows : list Span) :
  req_session c = Some session ->
  ai_spans w = Some rows ->
  let tid := req_param c in
  let response := fst (TraceRoutes.route TraceRoutes.get_trace c w) in
  let orphan (s : Span) := parentSpanId s = None \/ parentSpanId s = Some "" in
  ((forall s, In s rows -> traceId s <> tid) ->
   response = JsonResponse (ErrorBody "Trace not found") 404)
  /\ ((exists s, In s rows /\ traceId s = tid) ->
      exists spans root trace,
        response = JsonResponse (TraceBody trace) 200
        /\ Permutation spans (List.filter (fun s => String.eqb (traceId s) tid) rows)
        /\ StronglySorted (fun a b => startedAt a <= startedAt b) spans
        /\ detail_traceId trace = tid
        /\ Forall2
             (fun s v =>
                view_id v = spanId s
                /\ view_traceId v = traceId s
                /\ view_name v = span_name s
                /\ view_type v = spanType s
                /\ view_startTime v = startedAt s
                /\ view_endTime v = endedAt s
                /\ view_input v = input s
                /\ view_output v = output s
                /\ view_metadata v = metadata s
                /\ view_attributes v = attributes s
                /\ view_errorInfo v = error s
                /\ view_parentSpanId v = parentSpanId s
                /\ (isRootSpan v = true <-> orphan s))
             spans (detail_spans trace)
        /\ ((orphan root
             /\ exists before after,
                  spans = before ++ root :: after
                  /\ Forall (fun s => ~ orphan s) before)
            \/ (Forall (fun s => ~ orphan s) spans /\ head spans = Some root))
        /\ detail_startTime trace = startedAt root
        /\ detail_metadata trace = metadata root
        /\ detail_endTime trace
           = match last spans with
             | Some latest => endedAt latest
             | None => None
             end).
Proof.
  intros Hauth Hdb tid response orphan.
  destruct (select_trace_spans_spec tid rows) as (Hperm & Hsorted & Hin).
  fold tid in Hperm, Hsorted, Hin.
  assert (Hresp := get_trace_runs w c session rows Hdb).
  cbv zeta in Hresp. rewrite Hauth in Hresp. fold tid response in Hresp.
  set (spans := select_trace_spans tid rows) in *.
  split.
  - intros Hnone. rewrite Hresp.
    destruct spans as [|x xs]; [reflexivity|].
    destruct (proj1 (Hin x) (or_introl eq_refl)) as [Hx Ht].
    now destruct (Hnone x Hx).
  - intros (s & Hs & Ht).
    assert (Hs' : In s spans) by (apply Hin; now split).
    assert (Hviews :
      Forall2
        (fun s v =>
           view_id v = spanId s /\ view_traceId v = traceId s
           /\ view_name v = span_name s /\ view_type v = spanType s
           /\ view_startTime v = startedAt s /\ view_endTime v = endedAt s
           /\ view_input v = input s /\ view_output v = output s
           /\ view_metadata v = metadata s /\ view_attributes v = attributes s
           /\ view_errorInfo v = error s /\ view_parentSpanId v = parentSpanId s
           /\ (isRootSpan v = true <-> orphan s))
        spans (map TraceRoutes.to_view spans)).
    { apply Forall2_map_self. intros y. cbn.
      repeat (split; [reflexivity|]). apply no_parent_falsy. }
    assert (Hlast : Js.prop (last spans) endedAt
                    = match last spans with
                      | Some latest => endedAt latest
                      | None => None
                      end) by (now destruct (last spans)).
    rewrite Hresp. clear Hresp.
    destruct spans as [|x xs] eqn:E; [destruct Hs'|]. rewrite <- E in *.
    unfold TraceRoutes.find_root.
    pose proof (find_first TraceRoutes.no_parent spans) as Hfind.
    destruct (Js.find TraceRoutes.no_parent spans) as [root|].
    + destruct Hfind as (before & after & Hsplit & Hroot & Hbefore).
      exists spans, root. eexists. split; [reflexivity|]. cbn.
      split; [exact Hperm|]. split; [exact Hsorted|]. split; [reflexivity|].
      split; [exact Hviews|]. split; [|auto].
      left. split; [now apply (no_parent_falsy root)|].
      exists before, after. split; [exact Hsplit|].
      rewrite Forall_forall in Hbefore. rewrite Forall_forall. intros y Hy.
      now apply (no_parent_falsy y), Hbefore.
    + assert (Hhead : head spans = Some x) by (now rewrite E).
      rewrite Hhead.
      exists spans, x. eexists. split; [reflexivity|]. cbn.
      split; [exact Hperm|]. split; [exact Hsorted|]. split; [reflexivity|].
      split; [exact Hviews|]. split; [|auto].
      right. split; [|exact Hhead].
      rewrite Forall_forall in Hfind. rewrite Forall_forall. intros y Hy.
      now apply (no_parent_falsy y), Hfind.
Qed.

Lemma trace_detail_witness :
  let c := Sample.request Sample.alice None "trace1" in
  let response := fst (TraceRoutes.route TraceRoutes.get_trace c Sample.world) in
  let orphan (s : Span) := parentSpanId s = None \/ parentSpanId s = Some "" in
  ((forall s, In s Sample.rows -> traceId s <> "trace1") ->
   response = JsonResponse (ErrorBody "Trace not found") 404)
  /\ ((exists s, In s Sample.rows /\ traceId s = "trace1") ->
      exists spans root trace,
        response = JsonResponse (TraceBody trace) 200
        /\ Permutation spans
             (List.filter (fun s => String.eqb (traceId s) "trace1") Sample.rows)
        /\ StronglySorted (fun a b => startedAt a <= startedAt b) spans
        /\ detail_traceId trace = "trace1"
        /\ Forall2
             (fun s v =>
                view_id v = spanId s
                /\ view_traceId v = traceId s
                /\ view_name v = span_name s
                /\ view_type v = spanType s
                /\ view_startTime v = startedAt s
                /\ view_endTime v = endedAt s
                /\ view_input v = input s
                /\ view_output v = output s
                /\ view_metadata v = metadata s
                /\ view_attributes v = attributes s
                /\ view_errorInfo v = error s
                /\ view_parentSpanId v = parentSpanId s
                /\ (isRootSpan v = true <-> orphan s))
             spans (detail_spans trace)
        /\ ((orphan root
             /\ exists before after,
                  spans = before ++ root :: after
                  /\ Forall (fun s => ~ orphan s) before)
            \/ (Forall (fun s => ~ orphan s) spans /\ head spans = Some root))
        /\ detail_startTime trace = startedAt root
        /\ detail_metadata trace = metadata root
        /\ detail_endTime trace
           = match last spans with
             | Some latest => endedAt latest
             | None => None
             end).
Proof.
  apply (trace_detail Sample.world (Sample.request Sample.alice None "trace1")
           Sample.alice Sample.rows).
  - reflexivity.
  - reflexivity.
Defined.

(** C8 as stated fails where a span has an empty parent identity.  In a
    trace of two spans, the one that starts first has the empty string
    for parent and the other has a null parent: the root span of the
    answer is the former, so that the start time and the metadata of the
    answer are not those of the span with null parent, and both spans
    are marked as root. *)
Lemma empty_parent_counterexample :
  let c := Sample.request Sample.alice None "trace2" in
  let response := fst (TraceRoutes.route TraceRoutes.get_trace c Cases.relinked) in
  exists trace,
    response = JsonResponse (TraceBody trace) 200
    /\ parentSpanId Cases.adopted = Some ""
    /\ parentSpanId Cases.top = None
    /\ detail_startTime trace = startedAt Cases.adopted
    /\ detail_startTime trace <> startedAt Cases.top
    /\ detail_metadata trace !! "threadId" = None
    /\ metadata Cases.top !! "threadId" = Some "t1"
    /\ map isRootSpan (detail_spans trace) = [true; true].
Proof.
  eexists. split; [vm_compute; reflexivity|].
  repeat split; try reflexivity. discriminate.
Qed.

(** On the sample world: the trace is listed root first, the start time
    is that of the root and the end time that of the child, which started
    last; an unknown trace is answered 404. *)
Example trace_of_sample :
  fst (TraceRoutes.route TraceRoutes.get_trace
         (Sample.request Sample.alice None "trace1") Sample.world)
  = JsonResponse (TraceBody
      {| detail_traceId := "trace1";
         detail_spans :=
           map TraceRoutes.to_view
             [ Sample.span "root" None 10 (Some 40);
               Sample.span "child" (Some "root") 20 (Some 30) ];
         detail_startTime := 10;
         detail_endTime := Some 30;
         detail_metadata := {[ "threadId" := "t1" ]} |}) 200
  /\ fst (TraceRoutes.route TraceRoutes.get_trace
            (Sample.request Sample.alice None "other") Sample.world)
     = JsonResponse (ErrorBody "Trace not found") 404.
Proof. split; vm_compute; reflexivity. Qed.

(** ** GET /traces/conversation/:threadId *)

Lemma get_conversation_runs (w : World) (c : Request) (session : AuthSession)
    (rows : list Span) :
  ai_spans w = Some rows ->
  let tid := req_param c in
  fst (TraceRoutes.get_conversation c session w)
  = Returns (JsonResponse
      (ConversationBody tid
         (Js.or_str
            (Js.prop (Js.prop (agent_memory w) (fun m => Mem.getThreadById m tid)) title)
            "Untitled Chat")
         (map TraceRoutes.to_summary (select_root_spans tid rows))) 200).
Proof.
  intros Hdb tid.
  unfold TraceRoutes.get_conversation, try_catch, db_any, agent_getMemory,
    memory_getThreadById, bind, emit, ask.
  cbn [ai_spans with_log agent_memory]. rewrite Hdb.
  cbn [ai_spans with_log agent_memory]. fold tid.
  destruct (agent_memory w) as [m|] eqn:E; cbn [with_log agent_memory];
    rewrite ?E; reflexivity.
Qed.

(** C10.  GET /traces/conversation/:threadId never looks at the caller:
    two authenticated requests for the same thread identity are answered
    alike, whoever sends them and whoever owns the thread; when the span
    store answers, the answer holds the title of the thread found by
    identity alone and the summaries of all root spans whose metadata
    name the thread. *)
Theorem conversation_traces_unguarded (w : World) (c1 c2 : Request)
    (s1 s2 : AuthSession) :
  req_session c1 = Some s1 ->
  req_session c2 = Some s2 ->
  req_param c1 = req_param c2 ->
  TraceRoutes.route TraceRoutes.get_conversation c1 w
  = TraceRoutes.route TraceRoutes.get_conversation c2 w
  /\ (forall rows, ai_spans w = Some rows ->
      fst (TraceRoutes.route TraceRoutes.get_conversation c2 w)
      = JsonResponse
          (ConversationBody (req_param c1)
             (Js.or_str
                (Js.prop (Js.prop (agent_memory w)
                            (fun m => Mem.getThreadById m (req_param c1))) title)
                "Untitled Chat")
             (map TraceRoutes.to_summary (select_root_spans (req_param c1) rows))) 200).
Proof.
  intros H1 H2 Hparam. unfold TraceRoutes.route.
  rewrite (route_authenticated _ c1 s1 w H1), (route_authenticated _ c2 s2 w H2).
  split.
  - unfold TraceRoutes.get_conversation. rewrite Hparam. reflexivity.
  - intros rows Hdb. unfold serve.
    pose proof (get_conversation_runs w c2 s2 rows Hdb) as Hrun. cbv zeta in Hrun.
    destruct (TraceRoutes.get_conversation c2 s2 w) as [[r|e] w'];
      cbn [fst] in Hrun |- *; [|discriminate].
    injection Hrun as ->. now rewrite Hparam.
Qed.

Lemma conversation_traces_unguarded_witness :
  let owner := Sample.request Sample.alice None "t1" in
  let other := Sample.request Sample.bob None "t1" in
  TraceRoutes.route TraceRoutes.get_conversation owner Sample.world
  = TraceRoutes.route TraceRoutes.get_conversation other Sample.world
  /\ (forall rows, ai_spans Sample.world = Some rows ->
      fst (TraceRoutes.route TraceRoutes.get_conversation other Sample.world)
      = JsonResponse
          (ConversationBody "t1"
             (Js.or_str
                (Js.prop (Js.prop (agent_memory Sample.world)
                            (fun m => Mem.getThreadById m "t1")) title)
                "Untitled Chat")
             (map TraceRoutes.to_summary (select_root_spans "t1" rows))) 200).
Proof.
  apply (conversation_traces_unguarded Sample.world
           (Sample.request Sample.alice None "t1") (Sample.request Sample.bob None "t1")
           Sample.alice Sample.bob).
  - reflexivity.
  - reflexivity.
  - reflexivity.
Defined.

(** On the sample world the thread belongs to the first user, and the
    second user is answered with its title and the summary of its
    trace. *)
Example stranger_reads_conversation :
  resourceId Sample.thread1 = "alice"
  /\ fst (TraceRoutes.route TraceRoutes.get_conversation
            (Sample.request Sample.bob None "t1") Sample.world)
     = JsonResponse
         (ConversationBody "t1" "Trip"
            [ {| summary_traceId := "trace1"; summary_name := "root";
                 summary_startTime := 10; summary_endTime := Some 40;
                 summary_input := "in"; summary_output := "out";
                 summary_metadata := {[ "threadId" := "t1" ]} |} ]) 200.
Proof. split; vm_compute; reflexivity. Qed.


(** * Further properties *)

(** ** Requests sent by the tool adapters *)

Lemma mapM_fetch_email_log (token : string) (l : list Gmail.MessageRef) (w0 : World) :
  log (snd (mapM (GoogleGmail.fetch_email token) l w0))
  = log w0 ++ map (fun msg => EvFetch (GmailMessagesGet (Gmail.id msg) "metadata"
                                         ["Subject"; "From"; "Date"] token)) l.
Proof.
  revert w0. induction l as [|msg l IH]; intros w0.
  - cbn. now rewrite app_nil_r.
  - cbn [mapM map].
    set (wa := with_log w0 (log w0 ++
      [EvFetch (GmailMessagesGet (Gmail.id msg) "metadata" ["Subject"; "From"; "Date"] token)])).
    specialize (IH wa).
    destruct (mapM_fetch_email token l wa) as (w1 & Hrun & _).
    rewrite Hrun in IH. cbn [snd] in IH.
    unfold bind at 1. unfold GoogleGmail.fetch_email at 1.
    unfold bind at 1. unfold fetch_gmail_detail, bind, emit, ask. fold wa.
    change (upstream wa) with (upstream w0).
    destruct (gmail_messages_get (upstream w0) (Gmail.id msg) token);
      unfold ret at 1; rewrite Hrun; cbn [snd ret]; rewrite IH;
      cbn [log wa with_log]; now rewrite <- app_assoc.
Qed.

(** X1.  With a resolved credential the contacts tool sends exactly one
    request, for the fields names, emailAddresses and phoneNumbers, a
    page of [maxResults] (10 when absent) and the caller's token; when
    the service answers with a failure status the tool throws
    "Failed to fetch contacts: <status> <body>". *)
Theorem contacts_single_request (w : World) (context : ToolInput)
    (rc : option (gmap string string)) (token : string) :
  get_access_token rc = Some token -> token <> "" ->
  let n := default 10 (maxResults context) in
  let result := GoogleContacts.execute context rc w in
  log (snd result)
  = log w ++ [EvFetch (PeopleConnections "names,emailAddresses,phoneNumbers" n token)]
  /\ (forall status text,
        people_connections (upstream w) "names,emailAddresses,phoneNumbers" n token
        = HttpFail status text ->
        fst result
        = Throws ("Failed to fetch contacts: " +:+ pretty status +:+ " " +:+ text)).
Proof.
  intros Htok Hne n result. subst result.
  unfold GoogleContacts.execute. rewrite Htok.
  rewrite (proj2 (truthy_nonempty token) Hne).
  unfold fetch_people, bind, emit, ask. cbn [upstream with_log]. fold n.
  destruct (people_connections (upstream w) "names,emailAddresses,phoneNumbers" n token)
    as [data|status text] eqn:E.
  - split; [reflexivity|]. intros status text [=].
  - split; [reflexivity|]. intros status' text' [= <- <-]. reflexivity.
Qed.

Lemma contacts_single_request_witness :
  let result := GoogleContacts.execute Sample.defaults Sample.with_token Sample.world in
  log (snd result)
  = log Sample.world
    ++ [EvFetch (PeopleConnections "names,emailAddresses,phoneNumbers" 10 "token-a")]
  /\ (forall status text,
        people_connections (upstream Sample.world) "names,emailAddresses,phoneNumbers"
          10 "token-a" = HttpFail status text ->
        fst result
        = Throws ("Failed to fetch contacts: " +:+ pretty status +:+ " " +:+ text)).
Proof.
  assert (Hne : "token-a" <> "") by discriminate.
  exact (contacts_single_request Sample.world Sample.defaults Sample.with_token
           "token-a" eq_refl Hne).
Defined.

(** X2.  When the list request of the mail tool is answered with a
    failure status, the tool throws "Failed to fetch emails: <status>
    <body>" and has sent that one request only: no detail request
    follows. *)
Theorem gmail_list_failure (w : World) (context : ToolInput)
    (rc : option (gmap string string)) (token : string) (status : Z) (text : string) :
  get_access_token rc = Some token -> token <> "" ->
  gmail_messages_list (upstream w) (default 10 (maxResults context))
    (GoogleGmail.search_query context) token = HttpFail status text ->
  let result := GoogleGmail.execute context rc w in
  fst result = Throws ("Failed to fetch emails: " +:+ pretty status +:+ " " +:+ text)
  /\ log (snd result)
     = log w ++ [EvFetch (GmailMessagesList (default 10 (maxResults context))
                            (GoogleGmail.search_query context) token)].
Proof.
  intros Htok Hne Hlist result. subst result.
  unfold GoogleGmail.execute. rewrite Htok.
  rewrite (proj2 (truthy_nonempty token) Hne).
  unfold fetch_gmail_list, bind, emit, ask. cbn [upstream with_log].
  rewrite Hlist. split; reflexivity.
Qed.

(** X3.  When the list request of the mail tool succeeds, the requests
    sent are, in this order: the list request, with [maxResults] (10 when
    absent) and the search query only when it is not empty, then one
    detail request per message among the first [maxResults] listed, in
    list order, each asking for the metadata headers Subject, From and
    Date; every request carries the token of the runtime context. *)
Theorem gmail_requests (w : World) (context : ToolInput)
    (rc : option (gmap string string)) (token : string) (listData : Gmail.ListData) :
  get_access_token rc = Some token -> token <> "" ->
  gmail_messages_list (upstream w) (default 10 (maxResults context))
    (GoogleGmail.search_query context) token = HttpOk listData ->
  let n := default 10 (maxResults context) in
  let q := match query context with
           | Some (String a s) => Some (String a s)
           | _ => None
           end in
  log (snd (GoogleGmail.execute context rc w))
  = log w
    ++ EvFetch (GmailMessagesList n q token)
    :: map (fun msg => EvFetch (GmailMessagesGet (Gmail.id msg) "metadata"
                                  ["Subject"; "From"; "Date"] token))
         (Js.slice0 n (default [] (Gmail.messages listData))).
Proof.
  intros Htok Hne Hlist n q.
  assert (Hq : GoogleGmail.search_query context = q).
  { unfold GoogleGmail.search_query, q. now destruct (query context) as [[|a s]|]. }
  unfold GoogleGmail.execute. rewrite Htok.
  rewrite (proj2 (truthy_nonempty token) Hne).
  unfold bind at 1. unfold fetch_gmail_list, bind, emit, ask.
  cbn [upstream with_log]. rewrite Hlist. fold n. rewrite Hq.
  rewrite mapM_fetch_email_log. cbn [log with_log].
  now rewrite <- app_assoc.
Qed.

Lemma gmail_requests_witness :
  log (snd (GoogleGmail.execute Sample.defaults Sample.with_token Sample.world))
  = log Sample.world
    ++ EvFetch (GmailMessagesList 10 None "token-a")
    :: map (fun msg => EvFetch (GmailMessagesGet (Gmail.id msg) "metadata"
                                  ["Subject"; "From"; "Date"] "token-a"))
         (Js.slice0 10 (default [] (Gmail.messages Sample.listed))).
Proof.
  assert (Hne : "token-a" <> "") by discriminate.
  exact (gmail_requests Sample.world Sample.defaults Sample.with_token "token-a"
           Sample.listed eq_refl Hne eq_refl).
Defined.

Lemma gmail_list_failure_witness :
  let result := GoogleGmail.execute Sample.defaults Sample.with_token Cases.refused in
  fst result = Throws ("Failed to fetch emails: " +:+ pretty 401 +:+ " " +:+ "Unauthorized")
  /\ log (snd result)
     = log Cases.refused
       ++ [EvFetch (GmailMessagesList (default 10 (maxResults Sample.defaults))
                      (GoogleGmail.search_query Sample.defaults) "token-a")].
Proof.
  assert (Hne : "token-a" <> "") by discriminate.
  exact (gmail_list_failure Cases.refused Sample.defaults Sample.with_token "token-a"
           401 "Unauthorized" eq_refl Hne eq_refl).
Defined.

Lemma header_value_first (key : string) (before after : list Gmail.Header)
    (h : Gmail.Header) :
  Forall (fun x => Gmail.name x <> key) before ->
  Gmail.name h = key ->
  GoogleGmail.header_value key (before ++ h :: after) = Some (Gmail.value h).
Proof.
  unfold GoogleGmail.header_value. intros Hbefore Hh.
  induction Hbefore as [|x before Hx _ IH]; cbn [app Js.find].
  - apply String.eqb_eq in Hh. now rewrite Hh.
  - apply String.eqb_neq in Hx. rewrite Hx. exact IH.
Qed.

(** X4.  The subject and the sender of a mail entry come from the first
    header named exactly "Subject", respectively "From": its value when
    it is not empty, and the sentinel ("No Subject", "Unknown") when it
    is empty, whatever the headers that follow. *)
Theorem first_header_decides (msg : Gmail.MessageRef) (detail : Gmail.Detail)
    (key : string) (before after : list Gmail.Header) (h : Gmail.Header) :
  Js.prop (Gmail.payload detail) Gmail.headers = Some (before ++ h :: after) ->
  Forall (fun x => Gmail.name x <> key) before ->
  Gmail.name h = key ->
  (key = "Subject" ->
   GoogleGmail.subject (GoogleGmail.of_detail msg detail)
   = match Gmail.value h with
     | EmptyString => "No Subject"
     | String a v => String a v
     end)
  /\ (key = "From" ->
      GoogleGmail.from (GoogleGmail.of_detail msg detail)
      = match Gmail.value h with
        | EmptyString => "Unknown"
        | String a v => String a v
        end).
Proof.
  intros Hheaders Hbefore Hh.
  pose proof (header_value_first key before after h Hbefore Hh) as Hfind.
  unfold GoogleGmail.of_detail. rewrite Hheaders.
  change (default [] (Some (before ++ h :: after))) with (before ++ h :: after).
  cbn [GoogleGmail.subject GoogleGmail.from].
  split; intros ->; rewrite Hfind; cbn; now destruct (Gmail.value h).
Qed.

Lemma first_header_decides_witness :
  let empty := {| Gmail.name := "Subject"; Gmail.value := "" |} in
  let later := {| Gmail.name := "Subject"; Gmail.value := "Hi" |} in
  let detail := {| Gmail.snippet := None;
                   Gmail.payload := Some {| Gmail.headers := Some ([] ++ empty :: [later]) |} |} in
  ("Subject" = "Subject" ->
   GoogleGmail.subject (GoogleGmail.of_detail Sample.m1 detail)
   = match Gmail.value empty with
     | EmptyString => "No Subject"
     | String a v => String a v
     end)
  /\ ("Subject" = "From" ->
      GoogleGmail.from (GoogleGmail.of_detail Sample.m1 detail)
      = match Gmail.value empty with
        | EmptyString => "Unknown"
        | String a v => String a v
        end).
Proof.
  apply (first_header_decides Sample.m1
           {| Gmail.snippet := None;
              Gmail.payload := Some {| Gmail.headers := Some
                ([] ++ {| Gmail.name := "Subject"; Gmail.value := "" |}
                    :: [ {| Gmail.name := "Subject"; Gmail.value := "Hi" |} ]) |} |}
           "Subject" [] [ {| Gmail.name := "Subject"; Gmail.value := "Hi" |} ]
           {| Gmail.name := "Subject"; Gmail.value := "" |}).
  - reflexivity.
  - constructor.
  - reflexivity.
Defined.

(** ** The stream handler off the normal path *)

Lemma sse_start_broken (stream : AgentStream) :
  textStream_fails stream = true ->
  sse_start stream
  = (match stream_traceId stream with
     | Some (String a t) => [traceId_frame (String a t)]
     | _ => []
     end ++ map data_frame (textStream stream), Errored).
Proof.
  intros H. unfold sse_start. rewrite H.
  now destruct (stream_traceId stream) as [[|a t]|].
Qed.

(** X5.  When the text stream of the agent breaks, the response of the
    server-sent-events handler is still 200 text/event-stream, and its
    body ends in error.  The frames enqueued by then are the trace
    frame, if any, and one data frame per chunk yielded before the
    failure; a reader receives those of them it had read before the
    failure, a prefix that may be empty, the rest being dropped; the
    frame [data: [DONE]] is neither enqueued nor received. *)
Theorem broken_stream (w : World) (c : Request) (session : AuthSession)
    (fields : list (string * Json)) (msg : string) (stream : AgentStream) :
  req_session c = Some session ->
  req_json c = Some (JObject fields) ->
  get_field "message" fields = Some (JString msg) ->
  msg <> "" ->
  chat_agent w msg (turn_options None w fields session) = Some stream ->
  textStream_fails stream = true ->
  exists chunks,
    fst (ChatRoutes.route ChatRoutes.post_stream c w)
    = StreamResponse 200 sse_headers chunks Errored
    /\ chunks
       = match stream_traceId stream with
         | Some (String a t) => [traceId_frame (String a t)]
         | _ => []
         end ++ map data_frame (textStream stream)
    /\ ~ In done_frame chunks
    /\ received 0 chunks Errored = []
    /\ forall taken,
         (exists dropped, chunks = received taken chunks Errored ++ dropped)
         /\ ~ In done_frame (received taken chunks Errored).
Proof.
  intros Hauth Hbody Hmsg Hne Hagent Hfails.
  unfold ChatRoutes.route. rewrite (route_authenticated _ c session w Hauth).
  unfold serve. rewrite (post_stream_runs w c session fields msg Hbody Hmsg Hne).
  cbv zeta. rewrite Hagent, (sse_start_broken stream Hfails). cbn [fst snd].
  eexists. split; [reflexivity|]. split; [reflexivity|].
  set (chunks := _ ++ map data_frame (textStream stream)).
  assert (Hdone : ~ In done_frame chunks).
  { unfold chunks. intros Hin. apply in_app_or in Hin as [Hin|Hin].
    - destruct (stream_traceId stream) as [[|a t]|]; [destruct Hin| |destruct Hin].
      destruct Hin as [Hin|[]]. exact (traceId_frame_not_done _ Hin).
    - apply in_map_iff in Hin as (chunk & Hchunk & _).
      exact (data_frame_not_done _ Hchunk). }
  split; [exact Hdone|]. split; [reflexivity|].
  intros taken. cbn [received].
  assert (Hcut : chunks = take taken chunks ++ drop taken chunks)
    by (symmetry; apply take_drop).
  split; [now exists (drop taken chunks)|].
  intros Hin. apply Hdone. rewrite Hcut. apply in_or_app. now left.
Qed.

Lemma broken_stream_witness :
  exists chunks,
    fst (ChatRoutes.route ChatRoutes.post_stream
           (Sample.request Sample.alice (Some Sample.hello) "") Cases.breaking)
    = StreamResponse 200 sse_headers chunks Errored
    /\ chunks
       = match stream_traceId Cases.broken with
         | Some (String a t) => [traceId_frame (String a t)]
         | _ => []
         end ++ map data_frame (textStream Cases.broken)
    /\ ~ In done_frame chunks
    /\ received 0 chunks Errored = []
    /\ forall taken,
         (exists dropped, chunks = received taken chunks Errored ++ dropped)
         /\ ~ In done_frame (received taken chunks Errored).
Proof.
  apply (broken_stream Cases.breaking (Sample.request Sample.alice (Some Sample.hello) "")
           Sample.alice [("message", JString "Hello")] "Hello" Cases.broken).
  - reflexivity.
  - reflexivity.
  - reflexivity.
  - discriminate.
  - reflexivity.
  - reflexivity.
Defined.

(** X6.  When [agent.stream] rejects, both stream handlers throw, so
    that the request is answered 500; by then the account of the caller
    has been looked up and the agent called once, and nothing else. *)
Theorem agent_rejection (w : World) (c : Request) (session : AuthSession)
    (fields : list (string * Json)) (msg : string) :
  req_session c = Some session ->
  req_json c = Some (JObject fields) ->
  get_field "message" fields = Some (JString msg) ->
  msg <> "" ->
  let uid := user_id (user session) in
  (chat_agent w msg (turn_options None w fields session) = None ->
   ChatRoutes.route ChatRoutes.post_stream c w
   = (InternalServerError,
      with_log w ((log w ++ [EvGetGoogleAccount uid])
                  ++ [EvAgentStream msg (turn_options None w fields session)])))
  /\ (chat_agent w msg (turn_options (Some "aisdk") w fields session) = None ->
      ChatRoutesAiSdk.route ChatRoutesAiSdk.post_stream c w
      = (InternalServerError,
         with_log w ((log w ++ [EvGetGoogleAccount uid])
                     ++ [EvAgentStream msg (turn_options (Some "aisdk") w fields session)]))).
Proof.
  intros Hauth Hbody Hmsg Hne uid.
  unfold ChatRoutes.route, ChatRoutesAiSdk.route.
  rewrite !(route_authenticated _ c session w Hauth). unfold serve.
  rewrite (post_stream_runs w c session fields msg Hbody Hmsg Hne).
  rewrite (post_stream_aisdk_runs w c session fields msg Hbody Hmsg Hne).
  cbv zeta. split; intros ->; reflexivity.
Qed.

Lemma agent_rejection_witness :
  let c := Sample.request Sample.alice (Some Sample.hello) "" in
  let fields := [("message", JString "Hello")] in
  (chat_agent Cases.refused "Hello" (turn_options None Cases.refused fields Sample.alice)
   = None ->
   ChatRoutes.route ChatRoutes.post_stream c Cases.refused
   = (InternalServerError,
      with_log Cases.refused
        ((log Cases.refused ++ [EvGetGoogleAccount "alice"])
         ++ [EvAgentStream "Hello" (turn_options None Cases.refused fields Sample.alice)])))
  /\ (chat_agent Cases.refused "Hello"
        (turn_options (Some "aisdk") Cases.refused fields Sample.alice) = None ->
      ChatRoutesAiSdk.route ChatRoutesAiSdk.post_stream c Cases.refused
      = (InternalServerError,
         with_log Cases.refused
           ((log Cases.refused ++ [EvGetGoogleAccount "alice"])
            ++ [EvAgentStream "Hello"
                  (turn_options (Some "aisdk") Cases.refused fields Sample.alice)]))).
Proof.
  apply (agent_rejection Cases.refused (Sample.request Sample.alice (Some Sample.hello) "")
           Sample.alice [("message", JString "Hello")] "Hello").
  - reflexivity.
  - reflexivity.
  - reflexivity.
  - discriminate.
Defined.

(** X7.  A thread identity supplied in the body (any truthy value) is
    handed to the agent as it is, with the caller as resource; the
    handler consults neither the threads nor the messages of the memory
    on the way, so it does not check whose thread it is. *)
Theorem supplied_thread_verbatim (w : World) (c : Request) (session : AuthSession)
    (fields : list (string * Json)) (msg : string) (threadId : Json) :
  req_session c = Some session ->
  req_json c = Some (JObject fields) ->
  get_field "message" fields = Some (JString msg) ->
  msg <> "" ->
  get_field "threadId" fields = Some threadId ->
  js_truthy (Some threadId) = true ->
  let uid := user_id (user session) in
  let opts fmt :=
    {| format := fmt;
       memory_thread := threadId;
       memory_resource := uid;
       runtimeContext := turn_context (google_account (account_table w) uid) session |} in
  log (snd (ChatRoutes.route ChatRoutes.post_stream c w))
  = log w ++ [EvGetGoogleAccount uid; EvAgentStream msg (opts None)]
  /\ log (snd (ChatRoutesAiSdk.route ChatRoutesAiSdk.post_stream c w))
     = log w ++ [EvGetGoogleAccount uid; EvAgentStream msg (opts (Some "aisdk"))].
Proof.
  intros Hauth Hbody Hmsg Hne Hthread Htruthy uid opts.
  unfold ChatRoutes.route, ChatRoutesAiSdk.route.
  rewrite !(route_authenticated _ c session w Hauth). unfold serve.
  rewrite (post_stream_runs w c session fields msg Hbody Hmsg Hne).
  rewrite (post_stream_aisdk_runs w c session fields msg Hbody Hmsg Hne).
  cbv zeta. unfold turn_options, stream_options, resolve_thread.
  rewrite Hthread, Htruthy. fold uid.
  change {| format := None; memory_thread := threadId; memory_resource := uid;
            runtimeContext := turn_context (google_account (account_table w) uid) session |}
    with (opts None).
  change {| format := Some "aisdk"; memory_thread := threadId; memory_resource := uid;
            runtimeContext := turn_context (google_account (account_table w) uid) session |}
    with (opts (Some "aisdk")).
  destruct (chat_agent w msg (opts None)), (chat_agent w msg (opts (Some "aisdk")));
    cbn [snd saved_turn after_turn log with_log with_memory];
    rewrite <- !app_assoc; split; reflexivity.
Qed.

Lemma supplied_thread_verbatim_witness :
  let c := Sample.request Sample.bob (Some (Cases.hello_in "t1")) "" in
  let opts fmt :=
    {| format := fmt;
       memory_thread := JString "t1";
       memory_resource := "bob";
       runtimeContext :=
         turn_context (google_account (account_table Sample.world) "bob") Sample.bob |} in
  log (snd (ChatRoutes.route ChatRoutes.post_stream c Sample.world))
  = log Sample.world ++ [EvGetGoogleAccount "bob"; EvAgentStream "Hello" (opts None)]
  /\ log (snd (ChatRoutesAiSdk.route ChatRoutesAiSdk.post_stream c Sample.world))
     = log Sample.world
       ++ [EvGetGoogleAccount "bob"; EvAgentStream "Hello" (opts (Some "aisdk"))].
Proof.
  apply (supplied_thread_verbatim Sample.world
           (Sample.request Sample.bob (Some (Cases.hello_in "t1")) "") Sample.bob
           [("message", JString "Hello"); ("threadId", JString "t1")] "Hello"
           (JString "t1")).
  - reflexivity.
  - reflexivity.
  - reflexivity.
  - discriminate.
  - reflexivity.
  - reflexivity.
Defined.

(** X8.  A body that is not JSON, or is the JSON value [null], makes
    both stream handlers throw before the message is looked at: the
    request is answered 500, not 400, and no call has been made. *)
Theorem unreadable_body (w : World) (c : Request) (session : AuthSession) :
  req_session c = Some session ->
  req_json c = None \/ req_json c = Some JNull ->
  ChatRoutes.route ChatRoutes.post_stream c w = (InternalServerError, w)
  /\ ChatRoutesAiSdk.route ChatRoutesAiSdk.post_stream c w = (InternalServerError, w).
Proof.
  intros Hauth Hbody. unfold ChatRoutes.route, ChatRoutesAiSdk.route.
  rewrite !(route_authenticated _ c session w Hauth).
  unfold serve, ChatRoutes.post_stream, ChatRoutesAiSdk.post_stream, c_req_json.
  destruct Hbody as [-> | ->]; split; reflexivity.
Qed.

Lemma unreadable_body_witness :
  let c := Sample.request Sample.alice (Some JNull) "" in
  ChatRoutes.route ChatRoutes.post_stream c Sample.world
  = (InternalServerError, Sample.world)
  /\ ChatRoutesAiSdk.route ChatRoutesAiSdk.post_stream c Sample.world
     = (InternalServerError, Sample.world).
Proof.
  apply (unreadable_body Sample.world (Sample.request Sample.alice (Some JNull) "")
           Sample.alice).
  - reflexivity.
  - right. reflexivity.
Defined.

(** ** From the session to the credential of the tools *)

Lemma or_str_falsy (v : option string) :
  Js.truthy_opt v = false -> Js.or_str v "" = "".
Proof. unfold Js.truthy_opt, Js.or_str. destruct v as [s|]; [intros ->|]; reflexivity. Qed.

Lemma head_filter {A : Type} (f : A -> bool) (l : list A) :
  match head (List.filter f l) with
  | Some a => In a l /\ f a = true
  | None => Forall (fun x => f x = false) l
  end.
Proof.
  induction l as [|x l IH]; cbn; [constructor|].
  destruct (f x) eqn:E; cbn.
  - split; [now left|exact E].
  - destruct (head (List.filter f l)) as [a|].
    + destruct IH as [Hin Ha]. split; [now right|exact Ha].
    + now constructor.
Qed.

(** X9.  The runtime context that the stream handlers build holds the
    identity of the caller and, as access token, the token of the first
    Google account on record for that very user, or the empty string
    when there is no such account or it has no token; in the latter case
    both tools, run with this context, throw "Google access token not
    available" without sending anything. *)
Theorem turn_credential (w w' : World) (session : AuthSession) (context : ToolInput) :
  let uid := user_id (user session) in
  let account := google_account (account_table w) uid in
  let rc := Some (turn_context account session) in
  (forall a, account = Some a ->
     In a (account_table w) /\ userId a = uid /\ providerId a = "google")
  /\ (account = None ->
      Forall (fun a => userId a <> uid \/ providerId a <> "google") (account_table w))
  /\ turn_context account session !! "userId" = Some uid
  /\ get_access_token rc = Some (Js.or_str (Js.prop account accessToken) "")
  /\ (Js.truthy_opt (Js.prop account accessToken) = false ->
      GoogleContacts.execute context rc w'
      = (Throws "Google access token not available", w')
      /\ GoogleGmail.execute context rc w'
         = (Throws "Google access token not available", w')).
Proof.
  intros uid account rc.
  pose proof (head_filter
    (fun a => String.eqb (userId a) uid && String.eqb (providerId a) "google")
    (account_table w)) as Hacc.
  fold (google_account (account_table w) uid) in Hacc. fold account in Hacc.
  assert (Htoken : get_access_token rc = Some (Js.or_str (Js.prop account accessToken) "")).
  { unfold rc, get_access_token, turn_context.
    rewrite lookup_insert_ne by discriminate. apply lookup_insert_eq. }
  split; [|split; [|split; [|split]]].
  - intros a Ha. rewrite Ha in Hacc. destruct Hacc as [Hin Hf].
    apply andb_true_iff in Hf as [H1 H2].
    apply String.eqb_eq in H1, H2. now repeat split.
  - intros Hnone. rewrite Hnone in Hacc.
    eapply Forall_impl; [exact Hacc|]. intros a Hf. cbn in Hf.
    apply andb_false_iff in Hf as [Hf|Hf]; apply String.eqb_neq in Hf; tauto.
  - unfold turn_context. apply lookup_insert_eq.
  - exact Htoken.
  - intros Hmissing.
    unfold GoogleContacts.execute, GoogleGmail.execute. rewrite Htoken.
    rewrite (or_str_falsy (Js.prop account accessToken) Hmissing).
    split; reflexivity.
Qed.

(** ** The session gate *)

(** Runs a handler through every case distinction it makes. *)
Ltac all_answers :=
  unfold serve, try_catch, db_any, c_req_json, destructure, agent_getMemory,
    memory_getThreadById, memory_query, memory_deleteMessages, getGoogleAccount,
    agent_stream, bind, ret, throw, emit, ask, c_json;
  cbn [fst snd];
  repeat (case_match; cbn [fst snd]; simplify_eq);
  try discriminate.

Lemma delete_thread_not_401 (w : World) (c : Request) (session : AuthSession)
    (body : JsonBody) :
  fst (serve (ChatRoutes.delete_thread c session) w) <> JsonResponse body 401.
Proof. unfold ChatRoutes.delete_thread. all_answers. Qed.

Lemma post_stream_not_401 (w : World) (c : Request) (session : AuthSession)
    (body : JsonBody) :
  fst (serve (ChatRoutes.post_stream c session) w) <> JsonResponse body 401
  /\ fst (serve (ChatRoutesAiSdk.post_stream c session) w) <> JsonResponse body 401.
Proof.
  unfold ChatRoutes.post_stream, ChatRoutesAiSdk.post_stream. split; all_answers.
Qed.

Lemma get_history_not_401 (w : World) (c : Request) (session : AuthSession)
    (body : JsonBody) :
  fst (serve (ChatRoutes.get_history c session) w) <> JsonResponse body 401.
Proof. unfold ChatRoutes.get_history. all_answers. Qed.

Lemma trace_routes_not_401 (w : World) (c : Request) (session : AuthSession)
    (body : JsonBody) :
  fst (serve (TraceRoutes.get_conversation c session) w) <> JsonResponse body 401
  /\ fst (serve (TraceRoutes.get_trace c session) w) <> JsonResponse body 401.
Proof.
  unfold TraceRoutes.get_conversation, TraceRoutes.get_trace. split; all_answers.
Qed.

Lemma gate_of_handler (handler : Request -> AuthSession -> Eff Response)
    (w : World) (c : Request) :
  (forall session body, fst (serve (handler c session) w) <> JsonResponse body 401) ->
  (req_session c = None ->
   serve (requireAuth c (handler c)) w = (JsonResponse (ErrorBody "Unauthorized") 401, w))
  /\ (forall body,
        fst (serve (requireAuth c (handler c)) w) = JsonResponse body 401 ->
        req_session c = None).
Proof.
  intros Hnot. split.
  - intros Hs. unfold requireAuth. rewrite Hs. reflexivity.
  - intros body. destruct (req_session c) as [session|] eqn:Hs; [|reflexivity].
    rewrite (route_authenticated _ c session w Hs). intros H.
    now destruct (Hnot session body).
Qed.

(** X10.  Each route of the chat and trace routers answers 401 exactly
    when the request carries no session, and then with the body
    [{ error: "Unauthorized" }] and without touching the world: no
    handler has run. *)
Theorem session_gate (w : World) (c : Request) :
  Forall
    (fun route : Request -> World -> Response * World =>
       (req_session c = None ->
        route c w = (JsonResponse (ErrorBody "Unauthorized") 401, w))
       /\ (forall body, fst (route c w) = JsonResponse body 401 -> req_session c = None))
    [ ChatRoutes.route ChatRoutes.delete_thread;
      ChatRoutes.route ChatRoutes.post_stream;
      ChatRoutes.route ChatRoutes.get_history;
      ChatRoutesAiSdk.route ChatRoutesAiSdk.post_stream;
      TraceRoutes.route TraceRoutes.get_conversation;
      TraceRoutes.route TraceRoutes.get_trace ].
Proof.
  unfold ChatRoutes.route, ChatRoutesAiSdk.route, TraceRoutes.route.
  repeat (apply List.Forall_cons;
          [cbv beta; apply gate_of_handler; intros session body|]).
  - apply delete_thread_not_401.
  - apply (proj1 (post_stream_not_401 w c session body)).
  - apply get_history_not_401.
  - apply (proj2 (post_stream_not_401 w c session body)).
  - apply (proj1 (trace_routes_not_401 w c session body)).
  - apply (proj2 (trace_routes_not_401 w c session body)).
  - apply List.Forall_nil.
Qed.

(** ** History and deletion *)

Section Stability.

Context {A : Type}.
Variable key : A -> Z.
Variable before : A -> A -> bool.

Hypothesis before_key : forall a b, before a b = true <-> key a <= key b.



End Stability.

Lemma get_history_world (w : World) (c : Request) (session : AuthSession) :
  agent_memory (snd (ChatRoutes.get_history c session w)) = agent_memory w.
Proof.
  unfold ChatRoutes.get_history, agent_getMemory, memory_query, bind, ask, ret, emit.
  destruct (agent_memory w) eqn:E; cbn [snd agent_memory with_log]; congruence.
Qed.

Lemma query_thread (m : Memory) (tid : string) :
  Forall (fun x => message_thread x = tid) (Mem.query m tid).
Proof.
  unfold Mem.query. apply Forall_forall. intros x Hx.
  apply list_elem_of_In, filter_In in Hx as [_ Hx]. now apply String.eqb_eq.
Qed.

(** X11.  GET /chat/history is a read: it answers 200 with messages that
    all belong to the thread asked for (the default thread of the caller
    when none is named), and leaves the memory as it found it; when the
    memory is not configured the answer is an empty list. *)
Theorem history_isolation (w : World) (c : Request) (session : AuthSession) :
  req_session c = Some session ->
  let tid := match req_query c !! "threadId" with
             | Some (String a s) => String a s
             | _ => "thread-" +:+ user_id (user session)
             end in
  exists messages,
    fst (ChatRoutes.route ChatRoutes.get_history c w)
    = JsonResponse (MessagesBody messages) 200
    /\ Forall (fun x => message_thread x = tid) messages
    /\ (agent_memory w = None -> messages = [])
    /\ agent_memory (snd (ChatRoutes.route ChatRoutes.get_history c w)) = agent_memory w.
Proof.
  intros Hauth tid. unfold ChatRoutes.route.
  rewrite (route_authenticated _ c session w Hauth). unfold serve.
  pose proof (get_history_runs w c session) as Hrun.
  pose proof (get_history_world w c session) as Hworld.
  destruct (ChatRoutes.get_history c session w) as [[r|e] w1];
    cbn [fst snd] in Hrun, Hworld |- *; [|discriminate].
  injection Hrun as ->. eexists. split; [reflexivity|].
  assert (Htid : Js.or_str (req_query c !! "threadId") (default_thread session) = tid).
  { unfold tid, Js.or_str, default_thread.
    now destruct (req_query c !! "threadId") as [[|a s]|]. }
  rewrite Htid. split; [|split; [|exact Hworld]].
  - destruct (agent_memory w) as [m|]; [|constructor].
    destruct (js_sort_by_key ChatRoutes.created_time (Mem.query m tid)) as [_ Hperm].
    unfold ChatRoutes.by_created. rewrite Hperm. apply query_thread.
  - now intros ->.
Qed.

Lemma history_isolation_witness :
  let c := Sample.history_request Sample.alice in
  let tid := match req_query c !! "threadId" with
             | Some (String a s) => String a s
             | _ => "thread-" +:+ user_id (user Sample.alice)
             end in
  exists messages,
    fst (ChatRoutes.route ChatRoutes.get_history c Sample.world)
    = JsonResponse (MessagesBody messages) 200
    /\ Forall (fun x => message_thread x = tid) messages
    /\ (agent_memory Sample.world = None -> messages = [])
    /\ agent_memory (snd (ChatRoutes.route ChatRoutes.get_history c Sample.world))
       = agent_memory Sample.world.
Proof.
  apply (history_isolation Sample.world (Sample.history_request Sample.alice) Sample.alice).
  reflexivity.
Defined.



Lemma filter_filter_keep {A : Type} (f g : A -> bool) (l : list A) :
  (forall x, In x l -> f x = true -> g x = true) ->
  List.filter f (List.filter g l) = List.filter f l.
Proof.
  induction l as [|x l IH]; intros H; [reflexivity|].
  cbn [List.filter]. destruct (g x) eqn:Eg; cbn [List.filter].
  - rewrite IH; [reflexivity|]. intros y Hy. apply H. now right.
  - destruct (f x) eqn:Ef.
    + rewrite (H x (or_introl eq_refl) Ef) in Eg. discriminate.
    + apply IH. intros y Hy. apply H. now right.
Qed.

Lemma filter_all {A : Type} (g : A -> bool) (l : list A) :
  (forall x, In x l -> g x = true) -> List.filter g l = l.
Proof.
  induction l as [|x l IH]; intros H; [reflexivity|].
  cbn [List.filter]. rewrite (H x (or_introl eq_refl)).
  f_equal. apply IH. intros y Hy. apply H. now right.
Qed.

Lemma deleteMessages_nil (m : Memory) : Mem.deleteMessages m [] = m.
Proof.
  unfold Mem.deleteMessages. destruct m as [ts ms]. cbn. f_equal.
  apply filter_all. reflexivity.
Qed.

Lemma same_id_same_message (l : list Message) (x y : Message) :
  NoDup (map message_id l) -> In x l -> In y l -> message_id x = message_id y -> x = y.
Proof.
  induction l as [|z l IH]; intros Hnd Hx Hy Hid; [destruct Hx|].
  cbn [map] in Hnd. apply NoDup_cons in Hnd as [Hz Hnd].
  destruct Hx as [<-|Hx], Hy as [<-|Hy]; try reflexivity.
  - destruct Hz. rewrite list_elem_of_In, Hid. now apply in_map.
  - destruct Hz. rewrite list_elem_of_In, <- Hid. now apply in_map.
  - now apply IH.
Qed.

(** What the deletion handler does for the owner of the thread. *)
Lemma delete_thread_owner (w : World) (c : Request) (session : AuthSession)
    (m : Memory) (t : Thread) :
  agent_memory w = Some m ->
  Mem.getThreadById m (req_param c) = Some t ->
  resourceId t = user_id (user session) ->
  let tid := req_param c in
  let ids := map message_id (Mem.query m tid) in
  let result := serve (ChatRoutes.delete_thread c session) w in
  fst result = JsonResponse (SuccessBody true) 200
  /\ agent_memory (snd result) = Some (Mem.deleteMessages m ids)
  /\ log (snd result)
     = log w ++ [EvGetThreadById tid; EvQuery tid]
       ++ match ids with
          | [] => []
          | _ :: _ => [EvDeleteMessages ids]
          end.
Proof.
  intros Hmem Hsome Hown tid ids result. subst result ids tid.
  unfold serve, ChatRoutes.delete_thread, agent_getMemory, memory_getThreadById.
  cbn [bind ask ret emit]. rewrite Hmem.
  cbn [bind ask ret emit agent_memory with_log Js.prop]. rewrite Hmem.
  cbn [Js.prop]. rewrite Hsome.
  apply String.eqb_eq in Hown. rewrite Hown. cbn [negb].
  unfold memory_query, memory_deleteMessages.
  cbn [bind ask ret emit agent_memory with_log log]. rewrite Hmem.
  destruct (Mem.query m (req_param c)) as [|x xs] eqn:Hq.
  - cbn. rewrite Hmem, deleteMessages_nil, <- app_assoc. repeat split.
  - cbn [length Nat.ltb Nat.leb bind ret emit fst snd agent_memory with_log
           with_memory log map]. rewrite Hmem.
    cbn [fmap option_fmap option_map]. rewrite <- !app_assoc. repeat split.
Qed.

(** X13.  Deletion composes with history: once the owner has deleted a
    thread, GET /chat/history for that thread answers with an empty
    list. *)
Theorem history_after_delete (w : World) (c c' : Request) (owner reader : AuthSession)
    (m : Memory) (t : Thread) :
  req_session c = Some owner ->
  agent_memory w = Some m ->
  Mem.getThreadById m (req_param c) = Some t ->
  resourceId t = user_id (user owner) ->
  req_session c' = Some reader ->
  req_query c' !! "threadId" = Some (req_param c) ->
  req_param c <> "" ->
  let w1 := snd (ChatRoutes.route ChatRoutes.delete_thread c w) in
  fst (ChatRoutes.route ChatRoutes.get_history c' w1) = JsonResponse (MessagesBody []) 200.
Proof.
  intros Hauth Hmem Hsome Hown Hauth' Hq Hne w1. subst w1.
  destruct (delete_thread_owner w c owner m t Hmem Hsome Hown) as (_ & Hmem1 & _).
  unfold ChatRoutes.route at 2. rewrite (route_authenticated _ c owner w Hauth).
  unfold ChatRoutes.route. rewrite (route_authenticated _ c' reader _ Hauth').
  unfold serve at 1.
  pose proof (get_history_runs (snd (serve (ChatRoutes.delete_thread c owner) w))
                c' reader) as Hrun.
  destruct (ChatRoutes.get_history c' reader _) as [[r|e] w2];
    cbn [fst] in Hrun |- *; [|discriminate].
  injection Hrun as ->. rewrite Hmem1, Hq, (or_str_present _ _ Hne).
  now rewrite query_after_delete.
Qed.

Lemma history_after_delete_witness :
  let c := Sample.request Sample.alice None "t1" in
  let w1 := snd (ChatRoutes.route ChatRoutes.delete_thread c Sample.world) in
  fst (ChatRoutes.route ChatRoutes.get_history (Sample.history_request Sample.alice) w1)
  = JsonResponse (MessagesBody []) 200.
Proof.
  apply (history_after_delete Sample.world (Sample.request Sample.alice None "t1")
           (Sample.history_request Sample.alice) Sample.alice Sample.alice
           Sample.store Sample.thread1).
  - reflexivity.
  - reflexivity.
  - reflexivity.
  - reflexivity.
  - reflexivity.
  - reflexivity.
  - discriminate.
Defined.

(** X14.  When the messages of the memory have pairwise distinct
    identities, deleting a thread leaves the messages of every other
    thread as they were. *)
Theorem delete_spares_others (w : World) (c : Request) (session : AuthSession)
    (m : Memory) (t : Thread) (other : string) :
  req_session c = Some session ->
  agent_memory w = Some m ->
  Mem.getThreadById m (req_param c) = Some t ->
  resourceId t = user_id (user session) ->
  NoDup (map message_id (stored_messages m)) ->
  other <> req_param c ->
  exists m',
    agent_memory (snd (ChatRoutes.route ChatRoutes.delete_thread c w)) = Some m'
    /\ Mem.query m' other = Mem.query m other.
Proof.
  intros Hauth Hmem Hsome Hown Hnd Hother.
  destruct (delete_thread_owner w c session m t Hmem Hsome Hown) as (_ & Hmem1 & _).
  unfold ChatRoutes.route. rewrite (route_authenticated _ c session w Hauth).
  eexists. split; [exact Hmem1|].
  unfold Mem.query, Mem.deleteMessages. cbn [stored_messages].
  apply filter_filter_keep. intros x Hx Hthread.
  apply negb_true_iff. apply not_true_iff_false. intros Hex.
  apply existsb_exists in Hex as (i & Hi & Heq). apply String.eqb_eq in Heq.
  apply in_map_iff in Hi as (y & Hy & Hin).
  apply filter_In in Hin as [Hin Hty].
  assert (x = y) by (apply (same_id_same_message (stored_messages m)); congruence).
  subst y. apply String.eqb_eq in Hthread, Hty. congruence.
Qed.

Lemma delete_spares_others_witness :
  Mem.query Cases.two_threads "t1" <> []
  /\ Mem.query Cases.two_threads "t2"
     = [ Cases.note "d" RoleUser "Where?" (Some 4000);
         Cases.note "e" RoleAssistant "At eight" (Some 5000) ]
  /\ exists m',
       agent_memory (snd (ChatRoutes.route ChatRoutes.delete_thread
                            (Sample.request Sample.alice None "t1") Cases.busy)) = Some m'
       /\ Mem.query m' "t2" = Mem.query Cases.two_threads "t2".
Proof.
  split; [discriminate|]. split; [reflexivity|].
  apply (delete_spares_others Cases.busy (Sample.request Sample.alice None "t1")
           Sample.alice Cases.two_threads Sample.thread1 "t2").
  - reflexivity.
  - reflexivity.
  - reflexivity.
  - reflexivity.
  - repeat constructor; cbn; intros H; inversion H; subst;
      repeat match goal with
             | H' : _ ∈ _ |- _ => inversion H'; clear H'; subst
             end.
  - discriminate.
Defined.

(** X15.  Deleting a thread twice: the second request of the owner is
    answered [{ success: true }] again, finds no message, calls
    [deleteMessages] no more and leaves the memory as the first request
    left it. *)
Theorem delete_twice (w : World) (c : Request) (session : AuthSession)
    (m : Memory) (t : Thread) :
  req_session c = Some session ->
  agent_memory w = Some m ->
  Mem.getThreadById m (req_param c) = Some t ->
  resourceId t = user_id (user session) ->
  let w1 := snd (ChatRoutes.route ChatRoutes.delete_thread c w) in
  let again := ChatRoutes.route ChatRoutes.delete_thread c w1 in
  fst again = JsonResponse (SuccessBody true) 200
  /\ agent_memory (snd again) = agent_memory w1
  /\ log (snd again) = log w1 ++ [EvGetThreadById (req_param c); EvQuery (req_param c)].
Proof.
  intros Hauth Hmem Hsome Hown w1 again. subst again w1.
  unfold ChatRoutes.route. rewrite !(route_authenticated _ c session _ Hauth).
  destruct (delete_thread_owner w c session m t Hmem Hsome Hown) as (_ & Hmem1 & _).
  cbv zeta in Hmem1.
  set (w1 := snd (serve (ChatRoutes.delete_thread c session) w)) in *.
  set (m1 := Mem.deleteMessages m (map message_id (Mem.query m (req_param c)))) in *.
  assert (Hsome1 : Mem.getThreadById m1 (req_param c) = Some t) by exact Hsome.
  destruct (delete_thread_owner w1 c session m1 t Hmem1 Hsome1 Hown) as (Hr & Hm & Hl).
  cbv zeta in Hm, Hl.
  assert (Hq : Mem.query m1 (req_param c) = []) by apply query_after_delete.
  rewrite Hq in Hm, Hl. cbn [map] in Hm, Hl.
  rewrite deleteMessages_nil in Hm. rewrite app_nil_r in Hl.
  split; [exact Hr|]. split; [congruence|exact Hl].
Qed.

Lemma delete_twice_witness :
  let c := Sample.request Sample.alice None "t1" in
  let w1 := snd (ChatRoutes.route ChatRoutes.delete_thread c Sample.world) in
  let again := ChatRoutes.route ChatRoutes.delete_thread c w1 in
  fst again = JsonResponse (SuccessBody true) 200
  /\ agent_memory (snd again) = agent_memory w1
  /\ log (snd again) = log w1 ++ [EvGetThreadById (req_param c); EvQuery (req_param c)].
Proof.
  apply (delete_twice Sample.world (Sample.request Sample.alice None "t1") Sample.alice
           Sample.store Sample.thread1).
  - reflexivity.
  - reflexivity.
  - reflexivity.
  - reflexivity.
Defined.

(** X16.  The refusals of DELETE /chat/threads/:id: without a memory the
    answer is 500 "Memory not configured" and nothing has been called;
    for a thread that is missing or belongs to another user the only
    call made is the lookup of the thread, so no message has been read
    or deleted. *)
Theorem delete_refusals (w : World) (c : Request) (session : AuthSession) :
  req_session c = Some session ->
  let tid := req_param c in
  let result := ChatRoutes.route ChatRoutes.delete_thread c w in
  (agent_memory w = None ->
   result = (JsonResponse (ErrorBody "Memory not configured") 500, w))
  /\ (forall m,
        agent_memory w = Some m ->
        (forall t, Mem.getThreadById m tid = Some t ->
                   resourceId t <> user_id (user session)) ->
        result = (JsonResponse (ErrorBody "Thread not found") 404,
                  with_log w (log w ++ [EvGetThreadById tid]))).
Proof.
  intros Hauth tid result. subst result.
  unfold ChatRoutes.route. rewrite (route_authenticated _ c session w Hauth).
  unfold serve, ChatRoutes.delete_thread, agent_getMemory, memory_getThreadById.
  cbn [bind ask ret emit]. split.
  - intros ->. reflexivity.
  - intros m Hmem Hforeign. rewrite Hmem.
    cbn [bind ask ret emit agent_memory with_log Js.prop]. rewrite Hmem.
    cbn [Js.prop]. fold tid.
    destruct (Mem.getThreadById m tid) as [t|] eqn:Hsome; [|reflexivity].
    specialize (Hforeign t eq_refl). apply String.eqb_neq in Hforeign.
    rewrite Hforeign. reflexivity.
Qed.

Lemma delete_refusals_witness :
  let c := Sample.request Sample.bob None "t1" in
  let result := ChatRoutes.route ChatRoutes.delete_thread c Sample.world in
  (agent_memory Sample.world = None ->
   result = (JsonResponse (ErrorBody "Memory not configured") 500, Sample.world))
  /\ (forall m,
        agent_memory Sample.world = Some m ->
        (forall t, Mem.getThreadById m "t1" = Some t -> resourceId t <> "bob") ->
        result = (JsonResponse (ErrorBody "Thread not found") 404,
                  with_log Sample.world (log Sample.world ++ [EvGetThreadById "t1"]))).
Proof.
  apply (delete_refusals Sample.world (Sample.request Sample.bob None "t1") Sample.bob).
  reflexivity.
Defined.

(** ** The trace routes off the normal path *)

(** X17.  When the span store rejects the query, the trace routes answer
    500 with their own error body, "Failed to fetch trace" and "Failed
    to fetch conversation traces": the failure is caught and never
    reaches the framework. *)
Theorem trace_store_failure (w : World) (c : Request) (session : AuthSession) :
  req_session c = Some session ->
  ai_spans w = None ->
  fst (TraceRoutes.route TraceRoutes.get_trace c w)
  = JsonResponse (ErrorBody "Failed to fetch trace") 500
  /\ fst (TraceRoutes.route TraceRoutes.get_conversation c w)
     = JsonResponse (ErrorBody "Failed to fetch conversation traces") 500.
Proof.
  intros Hauth Hdb. unfold TraceRoutes.route.
  rewrite !(route_authenticated _ c session w Hauth).
  unfold serve, TraceRoutes.get_trace, TraceRoutes.get_conversation, try_catch, db_any,
    bind, emit.
  cbn [ai_spans with_log]. rewrite Hdb. split; reflexivity.
Qed.

Lemma trace_store_failure_witness :
  let c := Sample.request Sample.alice None "trace1" in
  fst (TraceRoutes.route TraceRoutes.get_trace c Cases.storeless)
  = JsonResponse (ErrorBody "Failed to fetch trace") 500
  /\ fst (TraceRoutes.route TraceRoutes.get_conversation c Cases.storeless)
     = JsonResponse (ErrorBody "Failed to fetch conversation traces") 500.
Proof.
  apply (trace_store_failure Cases.storeless (Sample.request Sample.alice None "trace1")
           Sample.alice).
  - reflexivity.
  - reflexivity.
Defined.

Lemma select_root_spans_spec (tid : string) (rows : list Span) :
  StronglySorted (fun a b => row_startedAt a <= row_startedAt b)
    (select_root_spans tid rows)
  /\ NoDup (select_root_spans tid rows)
  /\ (forall r, In r (select_root_spans tid rows)
      <-> exists s, In s rows /\ metadata s !! "threadId" = Some tid
                    /\ parentSpanId s = None /\ r = root_row s).
Proof.
  unfold select_root_spans.
  set (roots := List.filter _ rows).
  destruct (order_by_asc_spec row_startedAt (remove_dups (map root_row roots)))
    as [Hsorted Hperm].
  split; [exact Hsorted|]. split.
  - rewrite Hperm. apply NoDup_remove_dups.
  - intros r. rewrite <- list_elem_of_In, Hperm, elem_of_remove_dups, list_elem_of_In.
    rewrite in_map_iff. unfold roots. split.
    + intros (s & <- & Hs). apply filter_In in Hs as [Hs Hf].
      apply andb_true_iff in Hf as [H1 H2].
      apply bool_decide_eq_true in H1, H2. now exists s.
    + intros (s & Hs & H1 & H2 & ->). exists s. split; [reflexivity|].
      apply filter_In. split; [exact Hs|].
      apply andb_true_iff. split; now apply bool_decide_eq_true.
Qed.

Lemma to_summary_inj (a b : RootRow) :
  TraceRoutes.to_summary a = TraceRoutes.to_summary b -> a = b.
Proof. destruct a, b. unfold TraceRoutes.to_summary. cbn. congruence. Qed.

(** X18.  With the span store answering, GET /traces/conversation/:id
    answers 200 with the summaries of the root spans (the spans without
    parent) whose metadata name the thread, and with no other: a summary
    carries the trace identity, name, start, end, input, output and
    metadata of its span, each summary is listed once, and the summaries
    are in ascending order of start time; the title is that of the
    thread with this identity, or "Untitled Chat" when the memory is not
    configured, has no such thread, or the thread has no title. *)
Theorem conversation_listing (w : World) (c : Request) (session : AuthSession)
    (rows : list Span) :
  req_session c = Some session ->
  ai_spans w = Some rows ->
  let tid := req_param c in
  exists ttl traces,
    fst (TraceRoutes.route TraceRoutes.get_conversation c w)
    = JsonResponse (ConversationBody tid ttl traces) 200
    /\ StronglySorted (fun a b => summary_startTime a <= summary_startTime b) traces
    /\ NoDup traces
    /\ (forall x, In x traces
        <-> exists s, In s rows /\ metadata s !! "threadId" = Some tid
                      /\ parentSpanId s = None
                      /\ summary_traceId x = traceId s
                      /\ summary_name x = span_name s
                      /\ summary_startTime x = startedAt s
                      /\ summary_endTime x = endedAt s
                      /\ summary_input x = input s
                      /\ summary_output x = output s
                      /\ summary_metadata x = metadata s)
    /\ ttl = match agent_memory w with
             | Some m =>
               match Mem.getThreadById m tid with
               | Some t =>
                 match title t with
                 | Some (String a s) => String a s
                 | _ => "Untitled Chat"
                 end
               | None => "Untitled Chat"
               end
             | None => "Untitled Chat"
             end.
Proof.
  intros Hauth Hdb tid. unfold TraceRoutes.route.
  rewrite (route_authenticated _ c session w Hauth). unfold serve.
  pose proof (get_conversation_runs w c session rows Hdb) as Hrun. cbv zeta in Hrun.
  destruct (TraceRoutes.get_conversation c session w) as [[r|e] w1];
    cbn [fst] in Hrun |- *; [|discriminate].
  injection Hrun as ->. fold tid.
  destruct (select_root_spans_spec tid rows) as (Hsorted & Hnd & Hin).
  eexists _, _. split; [reflexivity|]. split; [|split; [|split]].
  - clear -Hsorted.
    induction (select_root_spans tid rows) as [|a l IH]; cbn [map]; [constructor|].
    inversion Hsorted as [|a' l' Hl Hall]; subst. constructor; [now apply IH|].
    clear -Hall. induction Hall as [|b l Hb _ IH]; cbn [map]; constructor.
    + exact Hb.
    + exact IH.
  - apply NoDup_fmap_2; [|exact Hnd].
    intros a b. apply to_summary_inj.
  - intros x. rewrite in_map_iff. split.
    + intros (r & <- & Hr). apply Hin in Hr as (s & Hs & H1 & H2 & ->).
      exists s. cbn. repeat (split; [assumption || reflexivity|]). reflexivity.
    + intros (s & Hs & H1 & H2 & Ei & En & Es & Ee & Ein & Eo & Em).
      exists (root_row s). split.
      * destruct x. cbn in Ei, En, Es, Ee, Ein, Eo, Em. subst. reflexivity.
      * apply Hin. now exists s.
  - destruct (agent_memory w) as [m|]; [|reflexivity]. cbn [Js.prop].
    destruct (Mem.getThreadById m tid) as [t|]; [|reflexivity]. cbn [Js.prop].
    now destruct (title t) as [[|a s]|].
Qed.

Lemma conversation_listing_witness :
  let c := Sample.request Sample.bob None "t1" in
  exists ttl traces,
    fst (TraceRoutes.route TraceRoutes.get_conversation c Sample.world)
    = JsonResponse (ConversationBody "t1" ttl traces) 200
    /\ StronglySorted (fun a b => summary_startTime a <= summary_startTime b) traces
    /\ NoDup traces
    /\ (forall x, In x traces
        <-> exists s, In s Sample.rows /\ metadata s !! "threadId" = Some "t1"
                      /\ parentSpanId s = None
                      /\ summary_traceId x = traceId s
                      /\ summary_name x = span_name s
                      /\ summary_startTime x = startedAt s
                      /\ summary_endTime x = endedAt s
                      /\ summary_input x = input s
                      /\ summary_output x = output s
                      /\ summary_metadata x = metadata s)
    /\ ttl = match agent_memory Sample.world with
             | Some m =>
               match Mem.getThreadById m "t1" with
               | Some t =>
                 match title t with
                 | Some (String a s) => String a s
                 | _ => "Untitled Chat"
                 end
               | None => "Untitled Chat"
               end
             | None => "Untitled Chat"
             end.
Proof.
  apply (conversation_listing Sample.world (Sample.request Sample.bob None "t1")
           Sample.bob Sample.rows).
  - reflexivity.
  - reflexivity.
Defined.

(** ** Environment configuration *)

Lemma env_at_required (p : Config.ProcessEnv) (key : string) :
  In key Config.required ->
  Js.truthy_opt (Config.env_at (Config.env p) key) = Js.truthy_opt (p !! key).
Proof.
  intros Hin. cbn in Hin.
  destruct Hin as [<-|[<-|[<-|[<-|[<-|[]]]]]]; cbn;
    match goal with |- context [p !! ?k] => destruct (p !! k) as [[|a s]|] end;
    reflexivity.
Qed.

Lemma missing_process_env (p : Config.ProcessEnv) :
  Config.missing (Config.env p)
  = List.filter (fun key => negb (Js.truthy_opt (p !! key))) Config.required.
Proof.
  unfold Config.missing. apply filter_ext_in. intros key Hin.
  now rewrite env_at_required.
Qed.

(** X19.  [validateEnv] throws only in production, that is when
    NODE_ENV is set to "production": with any other value, or none, it
    returns true whatever else is set.  In production it returns true
    exactly when each of the five required variables is set to a
    non-empty value; otherwise the message of the error names the
    required variables that are unset or empty, in the order of the
    list, separated by ", ". *)
Theorem validateEnv_production (p : Config.ProcessEnv) :
  let unset := List.filter (fun key => negb (Js.truthy_opt (p !! key))) Config.required in
  (p !! "NODE_ENV" <> Some "production" ->
   Config.validateEnv (Config.env p) = inr true)
  /\ (p !! "NODE_ENV" = Some "production" ->
      (Config.validateEnv (Config.env p) = inr true
       <-> forall key, In key Config.required ->
             exists v, p !! key = Some v /\ v <> "")
      /\ (unset <> [] ->
          Config.validateEnv (Config.env p)
          = inl ("Missing required environment variables: "
                 +:+ Config.join ", " unset))).
Proof.
  intros unset. unfold Config.validateEnv. rewrite missing_process_env. fold unset.
  assert (Hall : unset = [] <->
            forall key, In key Config.required -> exists v, p !! key = Some v /\ v <> "").
  { unfold unset. split.
    - intros Hnil key Hin.
      destruct (p !! key) as [[|a s]|] eqn:Hkey.
      + exfalso. assert (Hk : In key []); [|destruct Hk].
        rewrite <- Hnil. apply filter_In. split; [exact Hin|]. now rewrite Hkey.
      + now exists (String a s).
      + exfalso. assert (Hk : In key []); [|destruct Hk].
        rewrite <- Hnil. apply filter_In. split; [exact Hin|]. now rewrite Hkey.
    - intros Hset.
      destruct (List.filter _ Config.required) as [|key rest] eqn:Hf; [reflexivity|].
      assert (Hk : In key (List.filter (fun key => negb (Js.truthy_opt (p !! key)))
                             Config.required)) by (rewrite Hf; now left).
      apply filter_In in Hk as [Hin Hfalsy].
      destruct (Hset key Hin) as (v & Hv & Hne). rewrite Hv in Hfalsy.
      destruct v; [now destruct Hne | discriminate]. }
  split.
  - intros Hdev.
    assert (Hnode : String.eqb (Config.NODE_ENV (Config.env p)) "production" = false).
    { apply String.eqb_neq. cbn. intros Heq. apply Hdev.
      destruct (p !! "NODE_ENV") as [[|a s]|]; cbn in Heq; try discriminate.
      now rewrite Heq. }
    rewrite Hnode, andb_false_r. reflexivity.
  - intros Hprod.
    assert (Hnode : String.eqb (Config.NODE_ENV (Config.env p)) "production" = true).
    { cbn. rewrite Hprod. reflexivity. }
    rewrite Hnode, andb_true_r. split.
    + rewrite <- Hall. destruct unset as [|key rest]; cbn [length Nat.ltb Nat.leb].
      * tauto.
      * split; discriminate.
    + intros Hne. destruct unset as [|key rest]; [now destruct Hne|]. reflexivity.
Qed.

(** ** GET /traces: grouping a page of spans *)

Section TraceGrouping.

Import TraceList.

Lemma has_keys (key : string) (m : TracesMap) :
  has key m = true <-> In key (map fst m).
Proof.
  unfold has. rewrite existsb_exists, in_map_iff. split.
  - intros (e & He & Heq). apply String.eqb_eq in Heq. now exists e.
  - intros (e & Heq & He). exists e. split; [exact He|]. now apply String.eqb_eq.
Qed.

Lemma set_fresh (key : string) (value : Trace) (m : TracesMap) :
  has key m = false -> set key value m = m ++ [(key, value)].
Proof.
  induction m as [|[k v] m IH]; [reflexivity|].
  unfold has. cbn [existsb fst set]. intros Hno.
  apply orb_false_iff in Hno as [Hk Hrest]. rewrite Hk.
  cbn [app]. f_equal. now apply IH.
Qed.

Lemma update_map (key : string) (f : Trace -> Trace) (m : TracesMap) :
  NoDup (map fst m) -> update key f m = map (at_key key f) m.
Proof.
  induction m as [|[k v] m IH]; [reflexivity|].
  cbn [map fst update]. intros Hnd. apply NoDup_cons in Hnd as [Hk Hnd].
  unfold at_key at 1. cbn [fst snd].
  destruct (String.eqb k key) eqn:Heq.
  - f_equal. apply String.eqb_eq in Heq. subst k.
    clear IH Hnd. induction m as [|[k' v'] m IH]; [reflexivity|].
    cbn [map]. unfold at_key at 1. cbn [fst snd].
    destruct (String.eqb k' key) eqn:Heq'.
    + apply String.eqb_eq in Heq'. subst k'. exfalso. apply Hk. now left.
    + f_equal. apply IH. intros Hin. apply Hk. now right.
  - f_equal. now apply IH.
Qed.

Lemma at_key_fst (key : string) (f : Trace -> Trace) (m : TracesMap) :
  map fst (map (at_key key f) m) = map fst m.
Proof.
  rewrite map_map. apply map_ext. intros [k v]. unfold at_key. cbn [fst snd].
  now destruct (String.eqb k key).
Qed.

(** The loop body in one step: the trace of the span is opened when it
    is new, then every entry of that trace takes the span. *)
Lemma step_map (m : TracesMap) (span : Span) :
  NoDup (map fst m) ->
  step m span
  = map (at_key (traceId span) (fun t => extend span (push span t)))
      (if has (traceId span) m then m else m ++ [(traceId span, opened span)]).
Proof.
  intros Hnd. unfold step. set (key := traceId span).
  assert (Hnd1 : NoDup (map fst (if has key m then m else m ++ [(key, opened span)]))).
  { destruct (has key m) eqn:Hhas; [exact Hnd|].
    rewrite map_app. cbn [map fst]. apply NoDup_app. split; [exact Hnd|]. split.
    - intros k Hk Hin. apply list_elem_of_In in Hk, Hin.
      destruct Hin as [<-|[]]. apply has_keys in Hk. congruence.
    - apply NoDup_singleton. }
  destruct (has key m) eqn:Hhas; cbn [negb].
  - rewrite (update_map key (push span) m Hnd).
    rewrite update_map by (now rewrite at_key_fst).
    rewrite map_map. apply map_ext. intros [k v]. unfold at_key. cbn [fst snd].
    destruct (String.eqb k key) eqn:Heq; cbn [fst snd]; now rewrite ?Heq.
  - rewrite set_fresh by exact Hhas.
    rewrite (update_map key (push span) _ Hnd1).
    rewrite update_map by (now rewrite at_key_fst).
    rewrite map_map. apply map_ext. intros [k v]. unfold at_key. cbn [fst snd].
    destruct (String.eqb k key) eqn:Heq; cbn [fst snd]; now rewrite ?Heq.
Qed.

Lemma first_seen_snoc (keys : list string) (key : string) :
  first_seen (keys ++ [key])
  = if bool_decide (key ∈ keys) then first_seen keys else first_seen keys ++ [key].
Proof.
  unfold first_seen. rewrite rev_app_distr. cbn [rev app remove_dups].
  destruct (decide_rel elem_of key (rev keys)) as [Hin|Hout].
  - rewrite bool_decide_eq_true_2; [reflexivity|].
    apply list_elem_of_In, in_rev, list_elem_of_In in Hin. exact Hin.
  - rewrite bool_decide_eq_false_2; [reflexivity|].
    intros Hin. apply Hout, list_elem_of_In. apply list_elem_of_In in Hin.
    now apply in_rev in Hin.
Qed.

Lemma first_seen_spec (keys : list string) :
  NoDup (first_seen keys) /\ forall key, In key (first_seen keys) <-> In key keys.
Proof.
  unfold first_seen. split.
  - rewrite <- Permutation_rev. apply NoDup_remove_dups.
  - intros key. rewrite <- in_rev, <- list_elem_of_In, elem_of_remove_dups,
      list_elem_of_In, <- in_rev. reflexivity.
Qed.

Lemma latest_end_extend (span : Span) (t : Trace) (mine : list Span) :
  latest_end (trace_endTime t) mine ->
  latest_end (trace_endTime (extend span (push span t))) (mine ++ [span]).
Proof.
  intros [Hmax Hsome]. unfold extend. cbn [endedAt push trace_endTime].
  destruct (endedAt span) as [ended|] eqn:Hend.
  - destruct (trace_endTime t) as [known|] eqn:Hknown.
    + destruct (known <? ended) eqn:Hlt; cbn [trace_endTime].
      * apply Z.ltb_lt in Hlt. split.
        -- intros s e Hin He. exists ended. split; [reflexivity|].
           apply in_app_or in Hin as [Hin|[<-|[]]].
           ++ destruct (Hmax s e Hin He) as (e' & He' & Hle).
              injection He' as <-. lia.
           ++ rewrite Hend in He. injection He as <-. lia.
        -- intros e' He'. injection He' as <-. exists span. split; [|exact Hend].
           apply in_or_app. right. now left.
      * apply Z.ltb_ge in Hlt. cbn [push trace_endTime]. rewrite ?Hknown. split.
        -- intros s e Hin He. exists known. split; [reflexivity|].
           apply in_app_or in Hin as [Hin|[<-|[]]].
           ++ destruct (Hmax s e Hin He) as (e' & He' & Hle).
              injection He' as <-. exact Hle.
           ++ rewrite Hend in He. injection He as <-. exact Hlt.
        -- intros e' He'. destruct (Hsome e' He') as (s & Hin & Hs).
           exists s. split; [|exact Hs]. apply in_or_app. now left.
    + cbn [trace_endTime]. split.
      * intros s e Hin He. exists ended. split; [reflexivity|].
        apply in_app_or in Hin as [Hin|[<-|[]]].
        -- destruct (Hmax s e Hin He) as (e' & He' & _). discriminate.
        -- rewrite Hend in He. injection He as <-. lia.
      * intros e' He'. injection He' as <-. exists span. split; [|exact Hend].
        apply in_or_app. right. now left.
  - split.
    + intros s e Hin He. apply in_app_or in Hin as [Hin|[<-|[]]].
      * exact (Hmax s e Hin He).
      * rewrite Hend in He. discriminate.
    + intros e' He'. destruct (Hsome e' He') as (s & Hin & Hs).
      exists s. split; [|exact Hs]. apply in_or_app. now left.
Qed.

Lemma of_trace_snoc (key : string) (spans : list Span) (span : Span) :
  of_trace key (spans ++ [span])
  = of_trace key spans ++ (if String.eqb (traceId span) key then [span] else []).
Proof. unfold of_trace. rewrite List.filter_app. reflexivity. Qed.

Lemma of_trace_unseen (key : string) (spans : list Span) :
  ~ In key (map traceId spans) -> of_trace key spans = [].
Proof.
  intros Hout. unfold of_trace.
  induction spans as [|s spans IH]; [reflexivity|].
  cbn [List.filter]. destruct (String.eqb (traceId s) key) eqn:Heq.
  - apply String.eqb_eq in Heq. exfalso. apply Hout. now left.
  - apply IH. intros Hin. apply Hout. now right.
Qed.

Lemma taken_fields (span : Span) (t : Trace) :
  let t' := extend span (push span t) in
  trace_traceId t' = trace_traceId t
  /\ trace_spans t' = trace_spans t ++ [span]
  /\ trace_name t' = trace_name t
  /\ trace_startTime t' = trace_startTime t
  /\ trace_metadata t' = trace_metadata t
  /\ trace_attributes t' = trace_attributes t.
Proof.
  unfold extend. cbn.
  now destruct (endedAt span), (trace_endTime t); try destruct (_ <? _).
Qed.

Lemma loop_invariant (spans : list Span) :
  map fst (fold_left step spans []) = first_seen (map traceId spans)
  /\ Forall (entry_ok spans) (fold_left step spans []).
Proof.
  induction spans as [|span spans [IHkeys IHok]] using rev_ind.
  - split; [reflexivity|constructor].
  - rewrite fold_left_app. cbn [fold_left].
    set (m := fold_left step spans []) in *.
    set (key := traceId span).
    assert (Hnd : NoDup (map fst m)).
    { rewrite IHkeys. apply first_seen_spec. }
    assert (Hhas : has key m = bool_decide (key ∈ map traceId spans)).
    { destruct (has key m) eqn:Hh.
      - symmetry. apply bool_decide_eq_true. apply has_keys in Hh.
        rewrite IHkeys in Hh. apply (proj1 (proj2 (first_seen_spec _) _)) in Hh.
        apply list_elem_of_In. exact Hh.
      - symmetry. apply bool_decide_eq_false. intros Hin.
        apply list_elem_of_In in Hin. apply (proj2 (proj2 (first_seen_spec _) _)) in Hin.
        rewrite <- IHkeys in Hin. apply has_keys in Hin. congruence. }
    rewrite (step_map m span Hnd). fold key. split.
    + rewrite at_key_fst, (map_app traceId). cbn [map]. fold key.
      rewrite first_seen_snoc.
      rewrite Hhas. destruct (bool_decide (key ∈ map traceId spans)).
      * exact IHkeys.
      * rewrite map_app, IHkeys. reflexivity.
    + assert (Hold : Forall (entry_ok (spans ++ [span]))
                      (map (at_key key (fun t => extend span (push span t))) m)).
      { rewrite Forall_forall in IHok |- *. intros entry Hentry.
        apply list_elem_of_In, in_map_iff in Hentry as ([k t] & <- & Hin).
        apply list_elem_of_In in Hin.
        destruct (IHok _ Hin) as (Hid & Hspans & Hfirst & Hend).
        cbn [fst snd] in Hid, Hspans, Hfirst, Hend. rewrite Hid in Hspans, Hfirst, Hend.
        unfold at_key, entry_ok, trace_ok. cbn [fst snd].
        destruct (String.eqb k key) eqn:Heq; cbn [fst snd].
        - destruct (taken_fields span t) as (Ei & Es & En & Et & Em & Ea).
          rewrite Ei, Es, En, Et, Em, Ea, Hid, of_trace_snoc. fold key.
          rewrite String.eqb_sym, Heq.
          split; [reflexivity|]. split; [now rewrite Hspans|]. split.
          + destruct Hfirst as (first & rest & Hmine & Hn & Hs & Hm & Ha).
            exists first, (rest ++ [span]). rewrite Hmine. now repeat split.
          + now apply latest_end_extend.
        - rewrite Hid, of_trace_snoc. fold key. rewrite String.eqb_sym, Heq, app_nil_r.
          split; [reflexivity|split; [exact Hspans|split; [exact Hfirst|exact Hend]]]. }
      destruct (has key m) eqn:Hh; [exact Hold|].
      rewrite map_app. apply Forall_app. split; [exact Hold|].
      cbn [map]. apply List.Forall_cons; [|apply List.Forall_nil].
      assert (Hout : ~ In key (map traceId spans)).
      { intros Hin. symmetry in Hhas. apply bool_decide_eq_false in Hhas.
        now apply Hhas, list_elem_of_In. }
      unfold at_key, entry_ok, trace_ok. cbn [fst snd]. rewrite String.eqb_refl.
      cbn [fst snd].
      destruct (taken_fields span (opened span)) as (Ei & Es & En & Et & Em & Ea).
      rewrite Ei, Es, En, Et, Em, Ea. cbn [opened trace_traceId trace_spans trace_name
        trace_startTime trace_metadata trace_attributes app]. fold key.
      rewrite of_trace_snoc, (of_trace_unseen key spans Hout).
      fold key. rewrite String.eqb_refl. cbn [app].
      split; [reflexivity|]. split; [reflexivity|]. split.
      * exists span, []. now repeat split.
      * unfold extend, latest_end. cbn [endedAt push opened trace_endTime].
        destruct (endedAt span) as [ended|] eqn:Hend; cbn [trace_endTime].
        -- rewrite Z.ltb_irrefl. cbn [push opened trace_endTime]. rewrite ?Hend. split.
           ++ intros s e [<-|[]] He. rewrite Hend in He. injection He as <-.
              exists ended. split; [reflexivity|lia].
           ++ intros e' He'. exists span. split; [now left|congruence].
        -- cbn [push opened trace_endTime]. rewrite ?Hend. split.
           ++ intros s e [<-|[]] He. congruence.
           ++ discriminate.
Qed.

End TraceGrouping.

(** X20.  GET /traces in trace mode turns the page of spans it read
    into traces: the traces are listed in the order in which their
    identities first appear in the page, no two with the same identity;
    each trace holds exactly the spans of the page that carry its
    identity, in page order, so every span of the page is in exactly one
    trace; its name, start, metadata and attributes are those of the
    first of its spans in the page; and its end is the latest end among
    its spans that have ended, or null when none has. *)
Theorem traces_of_page (spans : list Span) :
  let traces := TraceList.tracesList spans in
  map TraceList.trace_traceId traces = first_seen (map traceId spans)
  /\ NoDup (map TraceList.trace_traceId traces)
  /\ Forall (TraceList.trace_ok spans) traces
  /\ (forall s, In s spans ->
        exists t, In t traces /\ TraceList.trace_traceId t = traceId s
                  /\ In s (TraceList.trace_spans t)).
Proof.
  intros traces. unfold traces, TraceList.tracesList.
  destruct (loop_invariant spans) as [Hkeys Hok].
  set (m := fold_left TraceList.step spans []) in *.
  assert (Hids : map TraceList.trace_traceId (map snd m) = map fst m).
  { rewrite map_map. apply map_ext_in. intros entry Hin.
    rewrite Forall_forall in Hok. apply list_elem_of_In in Hin.
    exact (proj1 (Hok entry Hin)). }
  assert (Hall : Forall (TraceList.trace_ok spans) (map snd m)).
  { rewrite Forall_forall in Hok. rewrite Forall_forall. intros t Ht.
    apply list_elem_of_In, in_map_iff in Ht as (entry & <- & Hin).
    apply list_elem_of_In in Hin. exact (proj2 (Hok entry Hin)). }
  split; [now rewrite Hids|]. split.
  { rewrite Hids, Hkeys. apply first_seen_spec. }
  split; [exact Hall|].
  intros s Hs.
  assert (Hkey : In (traceId s) (map TraceList.trace_traceId (map snd m))).
  { rewrite Hids, Hkeys. apply first_seen_spec. now apply in_map. }
  apply in_map_iff in Hkey as (t & Hid & Ht).
  exists t. split; [exact Ht|]. split; [exact Hid|].
  rewrite Forall_forall in Hall. apply list_elem_of_In in Ht.
  destruct (Hall t Ht) as (-> & _). rewrite Hid.
  apply filter_In. split; [exact Hs|]. apply String.eqb_refl.
Qed.

(** ** The conversation list: threads by date *)

Section ThreadGroups.

Import Sidebar.

Variable Date_time : string -> option Z.
Variable today : Z.

Let label : Thread -> string := group_of Date_time today.

Lemma sidebar_has (group : string) (groups : Groups) :
  has group groups = bool_decide (group ∈ map fst groups).
Proof.
  induction groups as [|[k v] groups IH].
  - symmetry. apply bool_decide_eq_false. intros Hin. inversion Hin.
  - unfold has in *. cbn [existsb map fst]. rewrite IH.
    destruct (String.eqb k group) eqn:Heq; cbn [orb].
    + apply String.eqb_eq in Heq. subst k. symmetry. apply bool_decide_eq_true.
      apply list_elem_of_here.
    + apply String.eqb_neq in Heq. apply bool_decide_ext.
      rewrite elem_of_cons. split; [tauto|]. intros [->|H]; [now destruct Heq|exact H].
Qed.

Lemma sidebar_set_fresh (group : string) (value : list Thread) (groups : Groups) :
  has group groups = false -> set group value groups = groups ++ [(group, value)].
Proof.
  induction groups as [|[k v] groups IH]; [reflexivity|].
  unfold has. cbn [existsb fst set]. intros Hno.
  apply orb_false_iff in Hno as [Hk Hrest]. rewrite Hk.
  cbn [app]. f_equal. now apply IH.
Qed.

(** Pushing a thread, on groups laid out by their labels. *)
Lemma push_members (group : string) (thread : Thread) (keys : list string)
    (f : string -> list Thread) :
  NoDup keys ->
  push group thread (map (fun k => (k, f k)) keys)
  = map (fun k => (k, f k ++ (if String.eqb k group then [thread] else []))) keys.
Proof.
  induction keys as [|k keys IH]; [reflexivity|].
  intros Hnd. apply NoDup_cons in Hnd as [Hk Hnd]. cbn [map push].
  destruct (String.eqb k group) eqn:Heq.
  - f_equal. apply String.eqb_eq in Heq. subst k.
    apply map_ext_in. intros k' Hin.
    destruct (String.eqb k' group) eqn:Heq'; [|now rewrite app_nil_r].
    apply String.eqb_eq in Heq'. subst k'. exfalso. now apply Hk, list_elem_of_In.
  - rewrite app_nil_r. f_equal. now apply IH.
Qed.

Lemma members_snoc (group : string) (threads : list Thread) (thread : Thread) :
  members Date_time today group (threads ++ [thread])
  = members Date_time today group threads
    ++ (if String.eqb (label thread) group then [thread] else []).
Proof. unfold members. rewrite List.filter_app. reflexivity. Qed.

(** The groups, in closed form: one per label in use, in the order in
    which the labels first appear, each with its threads in list order. *)
Lemma groups_closed_form (threads : list Thread) :
  groupThreadsByDate Date_time today threads
  = map (fun k => (k, members Date_time today k threads))
      (first_seen (map label threads)).
Proof.
  unfold groupThreadsByDate.
  induction threads as [|thread threads IH] using rev_ind; [reflexivity|].
  rewrite fold_left_app. cbn [fold_left]. rewrite IH. clear IH.
  rewrite (map_app label). cbn [map]. rewrite first_seen_snoc.
  unfold add. fold label. set (group := label thread).
  set (keys := first_seen (map label threads)).
  assert (Hnd : NoDup keys) by apply first_seen_spec.
  rewrite sidebar_has, map_map. cbn [fst]. rewrite map_id.
  assert (Hin : group ∈ keys <-> group ∈ map label threads).
  { rewrite !list_elem_of_In. apply first_seen_spec. }
  rewrite (bool_decide_ext _ _ Hin).
  destruct (bool_decide (group ∈ map label threads)) eqn:Hseen; cbn [negb].
  - rewrite (push_members group thread keys
               (fun k => members Date_time today k threads) Hnd).
    apply map_ext. intros k. cbv beta.
      now rewrite members_snoc, (String.eqb_sym k).
  - apply bool_decide_eq_false in Hseen.
    rewrite sidebar_set_fresh.
    2:{ rewrite sidebar_has, map_map. cbn [fst]. rewrite map_id.
        apply bool_decide_eq_false. now rewrite Hin. }
    assert (Hempty : members Date_time today group threads = []).
    { unfold members. clear -Hseen. fold label.
      induction threads as [|t threads IH]; [reflexivity|].
      cbn [List.filter]. destruct (String.eqb (label t) group) eqn:Heq.
      - apply String.eqb_eq in Heq. exfalso. apply Hseen. cbn [map].
        rewrite <- Heq. apply list_elem_of_here.
      - apply IH. intros H. apply Hseen. cbn [map]. now apply list_elem_of_further. }
    replace (map (fun k => (k, members Date_time today k threads)) keys ++ [(group, [])])
      with (map (fun k => (k, members Date_time today k threads)) (keys ++ [group]))
      by (rewrite map_app; cbn [map]; now rewrite Hempty).
    rewrite (push_members group thread (keys ++ [group])
               (fun k => members Date_time today k threads)).
    + apply map_ext. intros k. cbv beta.
      now rewrite members_snoc, (String.eqb_sym k).
    + apply NoDup_app. split; [exact Hnd|]. split; [|apply NoDup_singleton].
      intros k Hk Hk'. apply list_elem_of_singleton in Hk'. subst k.
      apply Hseen. now apply Hin.
Qed.

Lemma label_known (thread : Thread) : In (label thread) labels.
Proof.
  unfold label, group_of, labels.
  repeat match goal with |- context [if ?b then _ else _] => destruct b end;
    cbn; tauto.
Qed.

End ThreadGroups.

(** X21.  [groupThreadsByDate] files every thread of the list under
    exactly one of the five labels: the groups carry distinct labels, in
    the order in which the labels first appear in the list; no group is
    empty; each group holds exactly the threads of its label, in list
    order; and a thread whose date cannot be read is filed under
    "Older". *)
Theorem threads_by_date (Date_time : string -> option Z) (today : Z)
    (threads : list Sidebar.Thread) :
  let label := Sidebar.group_of Date_time today in
  let groups := Sidebar.groupThreadsByDate Date_time today threads in
  map fst groups = first_seen (map label threads)
  /\ NoDup (map fst groups)
  /\ Forall (fun group =>
       In (fst group) Sidebar.labels
       /\ snd group <> []
       /\ snd group = List.filter (fun t => String.eqb (label t) (fst group)) threads)
       groups
  /\ (forall thread, In thread threads ->
        exists listed, In (label thread, listed) groups /\ In thread listed)
  /\ (forall thread,
        Date_time (if Js.truthy (Sidebar.updatedAt thread)
                   then Sidebar.updatedAt thread else Sidebar.createdAt thread) = None ->
        label thread = "Older").
Proof.
  intros label groups. unfold groups. rewrite groups_closed_form. fold label.
  set (keys := first_seen (map label threads)).
  assert (Hkeys : forall k, In k keys <-> In k (map label threads))
    by apply first_seen_spec.
  assert (Hfst : map fst (map (fun k => (k, Sidebar.members Date_time today k threads)) keys)
                 = keys).
  { rewrite map_map. cbn [fst]. apply map_id. }
  split; [exact Hfst|]. split; [rewrite Hfst; apply first_seen_spec|]. split; [|split].
  - rewrite Forall_forall. intros group Hgroup.
    apply list_elem_of_In, in_map_iff in Hgroup as (k & <- & Hk). cbn [fst snd].
    apply Hkeys, in_map_iff in Hk as (thread & <- & Hthread).
    split; [apply label_known|]. split; [|reflexivity].
    intros Hnil.
    assert (Hin : In thread (Sidebar.members Date_time today (label thread) threads)).
    { apply filter_In. split; [exact Hthread|]. apply String.eqb_refl. }
    rewrite Hnil in Hin. destruct Hin.
  - intros thread Hthread.
    exists (Sidebar.members Date_time today (label thread) threads). split.
    + apply in_map_iff. exists (label thread). split; [reflexivity|].
      apply Hkeys. now apply in_map.
    + apply filter_In. split; [exact Hthread|]. apply String.eqb_refl.
  - intros thread Hdate. unfold label, Sidebar.group_of. rewrite Hdate. reflexivity.
Qed.

(** ** The chat page reads what the stream handler writes *)

Section ReadingTheStream.

Import ChatPage.

Variable JSON_parse : string -> option Json.
Variable String_of : Json -> string.

Hypothesis parse_written : forall s, JSON_parse (JSON.stringify s) = Some (JString s).

Let line_step := on_line JSON_parse String_of.

Lemma string_app_nil (s : string) : s +:+ "" = s.
Proof.
  induction s as [|c s IH]; [reflexivity|].
  change (String c (s +:+ "") = String c s). now rewrite IH.
Qed.

Lemma split_lines_line (line rest : string) :
  Shape.one_line line = true ->
  split_lines (line +:+ nl +:+ rest) = line :: split_lines rest.
Proof.
  induction line as [|c line IH]; intros Hone.
  - reflexivity.
  - cbn [Shape.one_line] in Hone. apply andb_true_iff in Hone as [Hc Hline].
    change (String c line +:+ nl +:+ rest) with (String c (line +:+ nl +:+ rest)).
    cbn [split_lines]. apply negb_true_iff in Hc. rewrite Hc.
    now rewrite (IH Hline).
Qed.

(** A read that ends where a line ends adds one empty line, which the
    next read takes over. *)
Lemma split_lines_whole (chunk : string) :
  whole_lines chunk = true -> chunk <> "" ->
  exists lines,
    lines <> []
    /\ split_lines chunk = lines ++ [""]
    /\ forall rest, split_lines (chunk +:+ rest) = lines ++ split_lines rest.
Proof.
  induction chunk as [|c chunk IH]; intros Hwhole Hne; [now destruct Hne|].
  destruct chunk as [|c' chunk].
  - cbn [whole_lines] in Hwhole. exists [""]. split; [discriminate|].
    split.
    + cbn [split_lines]. now rewrite Hwhole.
    + intros rest. change (String c "" +:+ rest) with (String c rest).
      cbn [split_lines]. now rewrite Hwhole.
  - assert (Hrest : whole_lines (String c' chunk) = true) by exact Hwhole.
    destruct (IH Hrest) as (lines & Hlines & Hsplit & Happ); [discriminate|].
    destruct (Ascii.eqb c JSON.newline) eqn:Hc.
    + exists ("" :: lines). split; [discriminate|]. split.
      * cbn [split_lines] in Hsplit |- *. rewrite Hc. cbn [app]. now rewrite <- Hsplit.
      * intros rest.
        change (String c (String c' chunk) +:+ rest)
          with (String c (String c' chunk +:+ rest)).
        cbn [split_lines app]. rewrite Hc. now rewrite <- Happ.
    + destruct lines as [|line lines]; [now destruct Hlines|].
      exists (String c line :: lines). split; [discriminate|]. split.
      * change (split_lines (String c (String c' chunk)))
          with (if Ascii.eqb c JSON.newline then "" :: split_lines (String c' chunk)
                else match split_lines (String c' chunk) with
                     | l :: ls => String c l :: ls
                     | [] => [String c ""]
                     end).
        rewrite Hc, Hsplit. reflexivity.
      * intros rest.
        change (String c (String c' chunk) +:+ rest)
          with (String c (String c' chunk +:+ rest)).
        change (split_lines (String c (String c' chunk +:+ rest)))
          with (if Ascii.eqb c JSON.newline
                then "" :: split_lines (String c' chunk +:+ rest)
                else match split_lines (String c' chunk +:+ rest) with
                     | l :: ls => String c l :: ls
                     | [] => [String c ""]
                     end).
        rewrite Hc, Happ. reflexivity.
Qed.

Lemma on_line_empty (acc : string) : line_step acc "" = acc.
Proof. reflexivity. Qed.

Lemma on_read_app (acc chunk rest : string) :
  whole_lines chunk = true ->
  on_read JSON_parse String_of acc (chunk +:+ rest)
  = on_read JSON_parse String_of (on_read JSON_parse String_of acc chunk) rest.
Proof.
  intros Hwhole. unfold on_read. fold line_step.
  destruct chunk as [|c chunk].
  - reflexivity.
  - destruct (split_lines_whole (String c chunk) Hwhole) as (lines & _ & Hsplit & Happ);
      [discriminate|].
    rewrite Happ, Hsplit, !fold_left_app. cbn [fold_left].
    now rewrite on_line_empty.
Qed.

Lemma read_all_joined (reads : list string) (acc : string) :
  Forall (fun chunk => whole_lines chunk = true) reads ->
  fold_left (on_read JSON_parse String_of) reads acc
  = on_read JSON_parse String_of acc (joined reads).
Proof.
  intros Hall. revert acc. induction Hall as [|chunk reads Hchunk _ IH]; intros acc.
  - reflexivity.
  - cbn [fold_left joined fold_right]. rewrite IH. fold (joined reads).
    now rewrite on_read_app.
Qed.

Lemma on_data_line (acc text : string) :
  line_step acc ("data: " +:+ JSON.stringify text) = acc +:+ shown text.
Proof.
  unfold line_step, on_line, shown.
  change ("data: " +:+ JSON.stringify text)
    with (String "d" (String "a" (String "t" (String "a" (String ":" (String " "
            (JSON.stringify text))))))).
  assert (Hblank : blank (String "d" (String "a" (String "t" (String "a" (String ":"
                      (String " " (JSON.stringify text))))))) = false) by reflexivity.
  rewrite Hblank. cbn [orb].
  assert (Hprefix : String.prefix "data: "
            (String "d" (String "a" (String "t" (String "a" (String ":"
               (String " " (JSON.stringify text))))))) = true) by reflexivity.
  unfold startsWith. rewrite Hprefix.
  assert (Hevent : String.prefix "event:"
            (String "d" (String "a" (String "t" (String "a" (String ":"
               (String " " (JSON.stringify text))))))) = false) by reflexivity.
  rewrite Hevent. cbn [orb slice].
  assert (Hdone : String.eqb (JSON.stringify text) "[DONE]" = false) by reflexivity.
  rewrite Hdone, parse_written.
  destruct (looks_like_traceId text); [now rewrite string_app_nil|reflexivity].
Qed.

Lemma on_data_frame (acc text rest : string) :
  fold_left line_step (split_lines (data_frame text +:+ rest)) acc
  = fold_left line_step (split_lines rest) (acc +:+ shown text).
Proof.
  unfold data_frame.
  rewrite !string_app_assoc.
  rewrite <- (string_app_assoc "data: " (JSON.stringify text)).
  rewrite split_lines_line.
  2:{ rewrite one_line_app, stringify_one_line. reflexivity. }
  change (nl +:+ rest) with ("" +:+ nl +:+ rest).
  rewrite split_lines_line by reflexivity.
  cbn [fold_left]. now rewrite on_data_line, on_line_empty.
Qed.

Lemma on_traceId_frame (acc t rest : string) :
  fold_left line_step (split_lines (traceId_frame t +:+ rest)) acc
  = fold_left line_step (split_lines rest) (acc +:+ shown t).
Proof.
  unfold traceId_frame.
  rewrite !string_app_assoc.
  rewrite split_lines_line by reflexivity.
  cbn [fold_left].
  assert (Hevent : line_step acc "event: traceId" = acc) by reflexivity.
  rewrite Hevent.
  rewrite <- (string_app_assoc "data: " (JSON.stringify t)).
  rewrite split_lines_line.
  2:{ rewrite one_line_app, stringify_one_line. reflexivity. }
  change (nl +:+ rest) with ("" +:+ nl +:+ rest).
  rewrite split_lines_line by reflexivity.
  cbn [fold_left]. now rewrite on_data_line, on_line_empty.
Qed.

Lemma on_done_frame (acc : string) :
  fold_left line_step (split_lines done_frame) acc = acc.
Proof. reflexivity. Qed.

Lemma joined_app (xs ys : list string) : joined (xs ++ ys) = joined xs +:+ joined ys.
Proof.
  induction xs as [|x xs IH]; [reflexivity|].
  cbn [app joined fold_right]. fold (joined (xs ++ ys)). fold (joined xs).
  now rewrite IH, string_app_assoc.
Qed.

Lemma on_data_frames (chunks : list string) (acc rest : string) :
  fold_left line_step (split_lines (joined (map data_frame chunks) +:+ rest)) acc
  = fold_left line_step (split_lines rest) (acc +:+ joined (map shown chunks)).
Proof.
  revert acc. induction chunks as [|chunk chunks IH]; intros acc.
  - cbn [map joined fold_right]. now rewrite string_app_nil.
  - cbn [map joined fold_right]. fold (joined (map data_frame chunks)).
    fold (joined (map shown chunks)).
    rewrite string_app_assoc, on_data_frame, IH. now rewrite string_app_assoc.
Qed.

Lemma shown_filter (chunks : list string) :
  joined (map shown chunks)
  = joined (List.filter (fun text => negb (looks_like_traceId text)) chunks).
Proof.
  induction chunks as [|chunk chunks IH]; [reflexivity|].
  cbn [map List.filter joined fold_right]. fold (joined (map shown chunks)).
  rewrite IH. unfold shown at 1. now destruct (looks_like_traceId chunk).
Qed.

(** The content after reading the frames of a stream that ends well. *)
Lemma read_frames (stream : AgentStream) (reads : list string) :
  textStream_fails stream = false ->
  Forall (fun chunk => whole_lines chunk = true) reads ->
  joined reads = joined (fst (sse_start stream)) ->
  read_all JSON_parse String_of reads
  = shown (default "" (stream_traceId stream))
    +:+ joined (List.filter (fun text => negb (looks_like_traceId text))
                  (textStream stream)).
Proof.
  intros Hends Hwhole Hsame. unfold read_all.
  rewrite (read_all_joined reads "" Hwhole), Hsame.
  unfold sse_start. rewrite Hends. cbn [fst].
  unfold on_read. fold line_step. rewrite <- shown_filter.
  set (texts := map data_frame (textStream stream)).
  assert (Htexts : forall acc,
            fold_left line_step (split_lines (joined (texts ++ [done_frame]))) acc
            = acc +:+ joined (map shown (textStream stream))).
  { intros acc. rewrite joined_app. unfold texts. rewrite on_data_frames.
    cbn [joined fold_right]. rewrite string_app_nil. apply on_done_frame. }
  destruct (stream_traceId stream) as [[|a t]|]; cbn [Js.truthy default app].
  - rewrite Htexts. reflexivity.
  - change (joined (traceId_frame (String a t) :: texts ++ [done_frame]))
      with (traceId_frame (String a t) +:+ joined (texts ++ [done_frame])).
    rewrite on_traceId_frame, Htexts. reflexivity.
  - rewrite Htexts. reflexivity.
Qed.

End ReadingTheStream.

(** X22.  The chat page shows what the stream handler sent.  For an
    authenticated POST /chat/stream with a non-empty string message whose
    stream ends well, and for a [JSON.parse] that reads back the strings
    [JSON.stringify] writes: however the body of the response is cut
    into reads, as long as every read ends where a line ends, the
    content of the assistant message is the text chunks of the model end
    to end, in order, without the chunks made of exactly 32 hexadecimal
    digits, which the page takes for trace identities; a trace identity
    that is not made of 32 hexadecimal digits is shown before them. *)
Theorem page_shows_stream (JSON_parse : string -> option Json)
    (String_of : Json -> string) (w : World) (c : Request) (session : AuthSession)
    (fields : list (string * Json)) (msg : string) (stream : AgentStream) :
  (forall s, JSON_parse (JSON.stringify s) = Some (JString s)) ->
  req_session c = Some session ->
  req_json c = Some (JObject fields) ->
  get_field "message" fields = Some (JString msg) ->
  msg <> "" ->
  chat_agent w msg (turn_options None w fields session) = Some stream ->
  textStream_fails stream = false ->
  exists frames,
    fst (ChatRoutes.route ChatRoutes.post_stream c w)
    = StreamResponse 200 sse_headers frames Closed
    /\ forall reads,
         Forall (fun chunk => ChatPage.whole_lines chunk = true) reads ->
         ChatPage.joined reads = ChatPage.joined frames ->
         ChatPage.read_all JSON_parse String_of reads
         = ChatPage.shown (default "" (stream_traceId stream))
           +:+ ChatPage.joined
                 (List.filter (fun text => negb (ChatPage.looks_like_traceId text))
                    (textStream stream)).
Proof.
  intros Hparse Hauth Hbody Hmsg Hne Hagent Hends.
  unfold ChatRoutes.route. rewrite (route_authenticated _ c session w Hauth).
  unfold serve. rewrite (post_stream_runs w c session fields msg Hbody Hmsg Hne).
  cbv zeta. rewrite Hagent. cbn [fst].
  exists (fst (sse_start stream)). split.
  - unfold sse_start. rewrite Hends. reflexivity.
  - intros reads Hwhole Hsame.
    exact (read_frames JSON_parse String_of Hparse stream reads Hends Hwhole Hsame).
Qed.

Lemma page_shows_stream_witness :
  exists frames,
    fst (ChatRoutes.route ChatRoutes.post_stream
           (Sample.request Sample.alice (Some Sample.hello) "") Cases.answering)
    = StreamResponse 200 sse_headers frames Closed
    /\ forall reads,
         Forall (fun chunk => ChatPage.whole_lines chunk = true) reads ->
         ChatPage.joined reads = ChatPage.joined frames ->
         ChatPage.read_all ChatPage.parse_strings (fun _ => "") reads
         = ChatPage.shown (default "" (stream_traceId Cases.traced))
           +:+ ChatPage.joined
                 (List.filter (fun text => negb (ChatPage.looks_like_traceId text))
                    (textStream Cases.traced)).
Proof.
  apply (page_shows_stream ChatPage.parse_strings (fun _ => "") Cases.answering
           (Sample.request Sample.alice (Some Sample.hello) "")
           Sample.alice [("message", JString "Hello")] "Hello" Cases.traced).
  - intros s. unfold ChatPage.parse_strings. rewrite parse_stringify. reflexivity.
  - reflexivity.
  - reflexivity.
  - reflexivity.
  - discriminate.
  - reflexivity.
  - reflexivity.
Defined.

(** The same page on three streams, each read frame by frame: the trace
    identity of the sample is not shown; a chunk of 32 hexadecimal
    digits is not shown either; a trace identity of another form is. *)
Example page_on_samples :
  ChatPage.read_all ChatPage.parse_strings (fun _ => "") (fst (sse_start Cases.traced))
  = "Hello"
  /\ ChatPage.read_all ChatPage.parse_strings (fun _ => "")
       [data_frame "Key: "; data_frame "0123456789ABCDEF0123456789abcdef"; done_frame]
     = "Key: "
  /\ ChatPage.read_all ChatPage.parse_strings (fun _ => "")
       [traceId_frame "trace-1"; data_frame "Hi"; done_frame]
     = "trace-1Hi".
Proof. repeat split; vm_compute; reflexivity. Qed.
